(** * GetGitHubCommitsFromDevOpsBuild: a shallow embedding and its properties

    The script resolves two Azure DevOps build numbers to commit SHAs, asks
    the GitHub CLI for the commits between them, extracts ticket references
    from the commit messages and writes a Markdown report.

    Modelling conventions.
    - A Python [str] is a [string]; the characters considered are the ASCII
      ones (code points below 128).  Characters outside that range are
      treated as non-word, non-letter, non-digit and are left alone by
      [upper]; the Unicode tables of the interpreter are not modelled, and
      statements that depend on them are made for ASCII text.
    - Values decoded from JSON are [json]; a Python [dict] is an association
      list in insertion order, [None] is [JNull].
    - Exceptions, [sys.exit] and normal return are the three outcomes of a
      computation; console output, HTTP requests, process launches and file
      operations are recorded, in order, in a trace of events.
    - The services the script talks to (HTTP, the [gh] process, the file
      system, the clock) are oracles collected in a [world]. *)

From Stdlib Require Import String Ascii List ZArith QArith Bool Lia OrderedTypeEx.
From stdpp Require Import base option list sets gmap strings sorting.

Local Open Scope string_scope.
Local Open Scope list_scope.

(** ** Characters and strings *)

Module Chars.

Definition code (c : ascii) : N := N_of_ascii c.

Definition between (lo hi c : ascii) : bool :=
  (code lo <=? code c)%N && (code c <=? code hi)%N.

Definition is_lower (c : ascii) : bool := between "a" "z" c.
Definition is_upper (c : ascii) : bool := between "A" "Z" c.
Definition is_alpha (c : ascii) : bool := is_lower c || is_upper c.
Definition is_digit (c : ascii) : bool := between "0" "9" c.

(** [\w]: letters, digits and the underscore. *)
Definition is_word (c : ascii) : bool :=
  is_alpha c || is_digit c || Ascii.eqb c "_".

Definition upper (c : ascii) : ascii :=
  if is_lower c then ascii_of_N (code c - 32) else c.

Definition lower (c : ascii) : ascii :=
  if is_upper c then ascii_of_N (code c + 32) else c.

End Chars.

(** [str.upper()] *)
Fixpoint str_upper (s : string) : string :=
  match s with
  | EmptyString => EmptyString
  | String c s' => String (Chars.upper c) (str_upper s')
  end.

(** [s[:n]] on a string *)
Fixpoint str_take (n : nat) (s : string) : string :=
  match n, s with
  | S k, String c s' => String c (str_take k s')
  | _, _ => EmptyString
  end.

Fixpoint str_drop (n : nat) (s : string) : string :=
  match n, s with
  | S k, String _ s' => str_drop k s'
  | _, _ => s
  end.

Fixpoint str_all (p : ascii -> bool) (s : string) : bool :=
  match s with
  | EmptyString => true
  | String c s' => p c && str_all p s'
  end.

Definition str_head (s : string) : option ascii :=
  match s with
  | EmptyString => None
  | String c _ => Some c
  end.

Fixpoint str_last (d : option ascii) (s : string) : option ascii :=
  match s with
  | EmptyString => d
  | String c s' => str_last (Some c) s'
  end.

(** [s.split("\n")[0]]: the text before the first line feed. *)
Fixpoint first_line (s : string) : string :=
  match s with
  | EmptyString => EmptyString
  | String c s' =>
      if Ascii.eqb c "010" then EmptyString else String c (first_line s')
  end.

(** The characters of a string, as Python iterates over it. *)
Fixpoint str_chars (s : string) : list string :=
  match s with
  | EmptyString => []
  | String c s' => String c EmptyString :: str_chars s'
  end.

(** ** Regular expressions

    The three patterns of the script are sequences of assertions, quantified
    character classes and one capture group.  [run] is a backtracking matcher
    with greedy quantifiers, as in [re]. *)

Module Re.

Inductive cset : Type :=
| CChar (c : ascii)
| CRange (lo hi : ascii)
| CDigit
| CUnion (a b : cset).

Fixpoint cset_in (cs : cset) (c : ascii) : bool :=
  match cs with
  | CChar d => Ascii.eqb c d
  | CRange lo hi => Chars.between lo hi c
  | CDigit => Chars.is_digit c
  | CUnion a b => cset_in a c || cset_in b c
  end.

(** Under [re.IGNORECASE] a character matches when one of its case
    variants is in the class. *)
Definition cset_mem (ignorecase : bool) (cs : cset) (c : ascii) : bool :=
  cset_in cs c
  || (ignorecase && (cset_in cs (Chars.lower c) || cset_in cs (Chars.upper c))).

Inductive item : Type :=
| IBoundary                                      (* \b *)
| IBegin                                         (* ^  *)
| IEnd                                           (* $  *)
| IRep (cs : cset) (lo : nat) (hi : option nat)  (* cs{lo,hi}, greedy *)
| IOpen                                          (* (  *)
| IClose.                                        (* )  *)

Definition IOne (cs : cset) : item := IRep cs 1 (Some 1).
Definition IPlus (cs : cset) : item := IRep cs 1 None.

Record regex : Type := Regex { items : list item; ignorecase : bool }.

(** Offsets of group 1, relative to the start of the match. *)
Definition groups : Type := (option nat * option nat)%type.

Definition opt_word (o : option ascii) : bool :=
  match o with
  | Some c => Chars.is_word c
  | None => false
  end.

(** [\b]: exactly one side of the position is a word character. *)
Definition at_boundary (prev : option ascii) (s : string) : bool :=
  xorb (opt_word prev) (opt_word (str_head s)).

(** [$] without MULTILINE: at the end, or before a final line feed. *)
Definition at_end (s : string) : bool :=
  match s with
  | EmptyString => true
  | String c EmptyString => Ascii.eqb c "010"
  | _ => false
  end.

Definition at_begin (prev : option ascii) : bool :=
  match prev with
  | None => true
  | Some _ => false
  end.

Section Rep.
Context {R : Type}.
Variable p : ascii -> bool.
Variable k : nat -> option ascii -> string -> option R.

(** Greedy repetition: take one more character when possible and fall
    back to stopping here when the rest of the pattern then fails. *)
Fixpoint rep (lo : nat) (hi : option nat) (pos : nat)
    (prev : option ascii) (s : string) {struct s} : option R :=
  let stop := if Nat.eqb lo 0 then k pos prev s else None in
  match hi with
  | Some O => stop
  | _ =>
      match s with
      | EmptyString => stop
      | String c s' =>
          if p c then
            match rep (Nat.pred lo) (option_map Nat.pred hi) (S pos) (Some c) s' with
            | Some r => Some r
            | None => stop
            end
          else stop
      end
  end.
End Rep.

Fixpoint run (ic : bool) (its : list item) (g : groups) (pos : nat)
    (prev : option ascii) (s : string) {struct its} : option (nat * groups) :=
  match its with
  | [] => Some (pos, g)
  | IBoundary :: r => if at_boundary prev s then run ic r g pos prev s else None
  | IBegin :: r => if at_begin prev then run ic r g pos prev s else None
  | IEnd :: r => if at_end s then run ic r g pos prev s else None
  | IRep cs lo hi :: r =>
      rep (cset_mem ic cs) (fun pos' prev' s' => run ic r g pos' prev' s')
          lo hi pos prev s
  | IOpen :: r => run ic r (Some pos, snd g) pos prev s
  | IClose :: r => run ic r (fst g, Some pos) pos prev s
  end.

(** One attempt at the current position; [prev] is the character before
    it.  The result is the length of the match and the group offsets. *)
Definition match_here (re : regex) (prev : option ascii) (s : string)
    : option (nat * groups) :=
  run (ignorecase re) (items re) (None, None) 0 prev s.

(** [pattern.match(s)] as a truth value. *)
Definition matches (re : regex) (s : string) : bool :=
  match match_here re None s with
  | Some _ => true
  | None => false
  end.

Definition group1 (g : groups) (s : string) : string :=
  match g with
  | (Some a, Some b) => str_take (b - a) (str_drop a s)
  | _ => EmptyString
  end.

(** [pattern.findall(s)] for a pattern without groups: the matched texts,
    left to right, without overlap.  [skip] counts the characters of the
    last match that are still to be passed over. *)
Fixpoint findall_from (re : regex) (skip : nat) (prev : option ascii)
    (s : string) {struct s} : list string :=
  match skip with
  | S n =>
      match s with
      | EmptyString => []
      | String c s' => findall_from re n (Some c) s'
      end
  | O =>
      match match_here re prev s with
      | Some (n, _) =>
          str_take n s ::
            match s with
            | EmptyString => []
            | String c s' => findall_from re (Nat.pred n) (Some c) s'
            end
      | None =>
          match s with
          | EmptyString => []
          | String c s' => findall_from re 0 (Some c) s'
          end
      end
  end.

Definition findall (re : regex) (s : string) : list string :=
  findall_from re 0 None s.

(** [pattern.sub(f, s)] where [f] receives group 1 of each match.  The
    pattern it is used with consumes at least one character; a match of
    length zero is passed over. *)
Fixpoint sub_from (re : regex) (f : string -> string) (skip : nat)
    (prev : option ascii) (s : string) {struct s} : string :=
  match skip with
  | S n =>
      match s with
      | EmptyString => EmptyString
      | String c s' => sub_from re f n (Some c) s'
      end
  | O =>
      match match_here re prev s with
      | Some (S n, g) =>
          f (group1 g s) +:+
            match s with
            | EmptyString => EmptyString
            | String c s' => sub_from re f n (Some c) s'
            end
      | _ =>
          match s with
          | EmptyString => EmptyString
          | String c s' => String c (sub_from re f 0 (Some c) s')
          end
      end
  end.

Definition sub (re : regex) (f : string -> string) (s : string) : string :=
  sub_from re f 0 None s.

End Re.

(** The three patterns of the script. *)

(** [re.compile(r"\b[a-zA-Z]{3,5}-\d{2,6}\b", re.IGNORECASE)] *)
Definition issue_pattern : Re.regex :=
  Re.Regex
    [ Re.IBoundary;
      Re.IRep (Re.CUnion (Re.CRange "a" "z") (Re.CRange "A" "Z")) 3 (Some 5);
      Re.IOne (Re.CChar "-");
      Re.IRep Re.CDigit 2 (Some 6);
      Re.IBoundary ]
    true.

(** [re.compile(r"#(\d+)")] *)
Definition pr_pattern : Re.regex :=
  Re.Regex [ Re.IOne (Re.CChar "#"); Re.IOpen; Re.IPlus Re.CDigit; Re.IClose ] false.

(** [re.compile(r'^\d+\.\d+\.\d+$')] *)
Definition build_number_pattern : Re.regex :=
  Re.Regex
    [ Re.IBegin; Re.IPlus Re.CDigit; Re.IOne (Re.CChar ".");
      Re.IPlus Re.CDigit; Re.IOne (Re.CChar "."); Re.IPlus Re.CDigit; Re.IEnd ]
    false.

(** ** JSON values and the Python operations applied to them *)

Set Warnings "-register-all".

Inductive json : Type :=
| JNull
| JBool (b : bool)
| JInt (n : Z)
| JFloat (q : Q)
| JStr (s : string)
| JArr (l : list json)
| JObj (kvs : list (string * json)).

Inductive exn : Type :=
| KeyError (key : string)
| TypeError
| AttributeError
| ValueError.

Inductive result (A : Type) : Type :=
| Ok (a : A)
| Err (e : exn).
Arguments Ok {A} a.
Arguments Err {A} e.

Fixpoint assoc (k : string) (kvs : list (string * json)) : option json :=
  match kvs with
  | [] => None
  | (k', v) :: r => if String.eqb k k' then Some v else assoc k r
  end.

(** [d.get(k, default)]: only a dict has the method. *)
Definition py_get (d : json) (k : string) (default : json) : result json :=
  match d with
  | JObj kvs => Ok (match assoc k kvs with Some v => v | None => default end)
  | _ => Err AttributeError
  end.

(** [d[k]] with a string key. *)
Definition py_getitem (d : json) (k : string) : result json :=
  match d with
  | JObj kvs => match assoc k kvs with Some v => Ok v | None => Err (KeyError k) end
  | _ => Err TypeError
  end.

(** [bool(v)] *)
Definition truthy (v : json) : bool :=
  match v with
  | JNull => false
  | JBool b => b
  | JInt n => negb (n =? 0)%Z
  | JFloat q => negb (Qnum q =? 0)%Z
  | JStr s => negb (String.eqb s "")
  | JArr l => match l with [] => false | _ => true end
  | JObj kvs => match kvs with [] => false | _ => true end
  end.

(** [v == 0] *)
Definition eq_zero (v : json) : bool :=
  match v with
  | JBool b => negb b
  | JInt n => (n =? 0)%Z
  | JFloat q => (Qnum q =? 0)%Z
  | _ => false
  end.

(** [v == s] for a string literal [s] *)
Definition eq_str (v : json) (s : string) : bool :=
  match v with
  | JStr t => String.eqb t s
  | _ => false
  end.

(** [len(v)].  The length of a string is its number of characters; the
    strings considered are ASCII text, one character per code. *)
Definition py_len (v : json) : result nat :=
  match v with
  | JStr s => Ok (String.length s)
  | JArr l => Ok (length l)
  | JObj kvs => Ok (length kvs)
  | _ => Err TypeError
  end.

(** The items a [for] loop or an unpacking sees; a string (ASCII text)
    gives its characters, an object its keys. *)
Definition py_iter (v : json) : result (list json) :=
  match v with
  | JStr s => Ok (map JStr (str_chars s))
  | JArr l => Ok l
  | JObj kvs => Ok (map (fun kv => JStr (fst kv)) kvs)
  | _ => Err TypeError
  end.

(** [v[:7]] *)
Definition slice7 (v : json) : result json :=
  match v with
  | JStr s => Ok (JStr (str_take 7 s))
  | JArr l => Ok (JArr (firstn 7 l))
  | _ => Err TypeError
  end.

(** [v.split("\n")[0]]: only a str has the method. *)
Definition split_first_line (v : json) : result string :=
  match v with
  | JStr s => Ok (first_line s)
  | _ => Err AttributeError
  end.

(** ** Console diagnostics, events and the outside world *)

(** One constructor per [print] of the script, with the values it shows. *)
Inductive diag : Type :=
| DUsage
| DConfigLoadFailed
| DFetchingBuild (build_number org project : json)
| DErrorFetchingBuild (build_number : json)
| DInvalidJsonBuild (build_number : json)
| DNoBuildFound (build_number : json)
| DBuildNotSucceeded (build_number : json)
| DNoSourceVersion (build_number : json)
| DBuildCommit (build_number commit_sha : json)
| DCompareUrl (url : string)
| DFetchingCommits (short1 short2 repo : json)
| DGitHubApiError (stderr : string)
| DGitHubTimeout
| DGhNotFound
| DInvalidJsonGitHub
| DFoundCommits (n : nat) (short1 short2 : json)
| DCommitLine (sha author date : json) (summary : string)
| DSkipMalformed (key : string)
| DSkipMissingMessage
| DUniqueRefsHeader
| DRef (ref link : string)
| DNoneFound
| DSkipMissingField (key : string)
| DMarkdownCreated (output_file : string)
| DWriteError (output_file : string)
| DComparingArgs (build1 build2 : json)
| DNeedTwoBuilds
| DComparingConfig (build1 build2 : json)
| DWarnBuildFormat (build_number : json)
| DCouldNotGetTwo
| DNoCommitsFound.

Inductive event : Type :=
| Print (d : diag)
| HttpGet (url : string) (params : list (string * json)) (pat : json)
| RunProcess (cmd : list string)
| FileOpen (path : string)
| FileWrite (path : string) (data : string).

Definition trace : Type := list event.

(** [requests.get] followed by [raise_for_status] and [response.json()] *)
Inductive http_result : Type :=
| HttpFailed                        (* a RequestException *)
| HttpBody (body : option json).    (* None: the body is not JSON *)

(** [subprocess.run(cmd, capture_output=True, text=True, timeout=60)]: the
    three results the script distinguishes. *)
Inductive proc_result : Type :=
| ProcDone (returncode : Z) (stdout : option json) (stderr : string)
                                    (* stdout as json.loads reads it; None: JSONDecodeError *)
| ProcTimeout                       (* subprocess.TimeoutExpired *)
| ProcNotFound.                     (* FileNotFoundError *)

(** What the script does not control.  Each oracle sees the events so far. *)
Record world : Type := World {
  (** [str(v)] of a value that is not a str, as an f-string renders it *)
  py_repr : json -> string;
  (** [open] and [json.load] of the configuration; None: any exception *)
  read_config : string -> option json;
  http_get : trace -> string -> list (string * json) -> json -> http_result;
  run_process : trace -> list string -> proc_result;
  (** [open(path, "w")]: false stands for an IOError *)
  open_write : trace -> string -> bool;
  (** [datetime.now().strftime('%Y-%m-%d %H:%M:%S')] *)
  now : trace -> string;
  (** [os.path.splitext(os.path.basename(path))[0]] *)
  path_stem : string -> string
}.

(** ** Computations: a trace and one of three outcomes *)

Inductive outcome (A : Type) : Type :=
| Ret (a : A)
| Raise (e : exn)
| Exit (code : Z).
Arguments Ret {A} a.
Arguments Raise {A} e.
Arguments Exit {A} code.

Definition M (A : Type) : Type := trace -> outcome A * trace.

Definition ret {A} (a : A) : M A := fun t => (Ret a, t).

Definition bind {A B} (m : M A) (f : A -> M B) : M B :=
  fun t =>
    match m t with
    | (Ret a, t') => f a t'
    | (Raise e, t') => (Raise e, t')
    | (Exit c, t') => (Exit c, t')
    end.

Declare Scope prog_scope.
Delimit Scope prog_scope with prog.
Notation "'let*' x ':=' m 'in' k" := (bind m (fun x => k))
  (at level 10, x pattern, m at level 100, k at level 200) : prog_scope.
Notation "m ;; k" := (bind m (fun _ => k))
  (at level 100, k at level 200, right associativity) : prog_scope.
Local Open Scope prog_scope.

Definition emit (e : event) : M unit := fun t => (Ret tt, t ++ [e]).
Definition print (d : diag) : M unit := emit (Print d).
Definition sys_exit {A} (code : Z) : M A := fun t => (Exit code, t).
Definition raise {A} (e : exn) : M A := fun t => (Raise e, t).

Definition lift {A} (r : result A) : M A :=
  match r with
  | Ok a => ret a
  | Err e => raise e
  end.

(** [try: m except KeyError as e: h e] *)
Definition catch_key {A} (m : M A) (h : string -> M A) : M A :=
  fun t =>
    match m t with
    | (Raise (KeyError k), t') => h k t'
    | r => r
    end.

(** A [for] loop whose body updates an accumulator. *)
Fixpoint for_each {A S} (l : list A) (body : A -> S -> M S) (s : S) : M S :=
  match l with
  | [] => ret s
  | x :: r => let* s' := body x s in for_each r body s'
  end.

(** The exit status of the process. *)
Definition exit_code {A} (o : outcome A) : Z :=
  match o with
  | Ret _ => 0
  | Raise _ => 1     (* uncaught exception: traceback, status 1 *)
  | Exit c => c
  end.

(** ** The script *)

Definition nl : string := String "010" EmptyString.

(** The module-level names read from the configuration and the command line. *)
Record globals : Type := Globals {
  argv : list string;
  config_file : string;
  ORG : json;
  PROJECT : json;
  DEFINITION_ID : json;
  BRANCH : json;
  AZURE_PAT : json;
  GITHUB_REPO : json;
  BUILD_NUMBERS : json
}.

Definition default_jira_base_url : string :=
  "https://landmarkinfo.atlassian.net/browse/".

(** [sorted(refs)] on a set of strings *)
Definition sorted (refs : gset string) : list string :=
  merge_sort String.leb (elements refs).

Section Script.
Variable w : world.

(** A value inside an f-string. *)
Definition fmt (v : json) : string :=
  match v with
  | JStr s => s
  | _ => py_repr w v
  end.

Definition http_request (url : string) (params : list (string * json))
    (pat : json) : M http_result :=
  fun t => (Ret (http_get w t url params pat), t ++ [HttpGet url params pat]).

Definition subprocess_run (cmd : list string) : M proc_result :=
  fun t => (Ret (run_process w t cmd), t ++ [RunProcess cmd]).

Definition open_for_writing (path : string) : M bool :=
  fun t => (Ret (open_write w t path), t ++ [FileOpen path]).

Definition strftime_now : M string := fun t => (Ret (now w t), t).

Definition write (path data : string) : M unit := emit (FileWrite path data).

(** [next((b for b in value if b.get("result") == "succeeded"), None)]:
    the generator stops at the first hit, so later entries are not
    looked at. *)
Fixpoint next_succeeded (value : list json) : result json :=
  match value with
  | [] => Ok JNull
  | b :: rest =>
      match py_get b "result" JNull with
      | Err e => Err e
      | Ok r => if eq_str r "succeeded" then Ok b else next_succeeded rest
      end
  end.

Definition get_azure_build_commit
    (org project definition_id branch build_number pat : json) : M json :=
  let url :=
    "https://dev.azure.com/" +:+ fmt org +:+ "/" +:+ fmt project
      +:+ "/_apis/build/builds" in
  let params :=
    [ ("definitions", definition_id); ("branchName", branch);
      ("buildNumber", build_number); ("api-version", JStr "7.2-preview.7") ] in
  print (DFetchingBuild build_number org project) ;;
  let* response := http_request url params pat in
  match response with
  | HttpFailed => print (DErrorFetchingBuild build_number) ;; ret JNull
  | HttpBody None => print (DInvalidJsonBuild build_number) ;; ret JNull
  | HttpBody (Some data) =>
      let* count := lift (py_get data "count" (JInt 0)) in
      if eq_zero count then print (DNoBuildFound build_number) ;; ret JNull
      else
        let* value := lift (py_getitem data "value") in
        let* entries := lift (py_iter value) in
        let* build := lift (next_succeeded entries) in
        if negb (truthy build) then
          print (DBuildNotSucceeded build_number) ;; ret JNull
        else
          let* commit_sha := lift (py_get build "sourceVersion" JNull) in
          if negb (truthy commit_sha) then
            print (DNoSourceVersion build_number) ;; ret JNull
          else
            print (DBuildCommit build_number commit_sha) ;; ret commit_sha
  end.

(** The body of the loop over the [commits] array. *)
Definition collect_commit (c : json) (commit_list : list json) : M (list json) :=
  catch_key
    (let* sha := lift (py_getitem c "sha") in
     let* short := lift (slice7 sha) in
     let* commit := lift (py_getitem c "commit") in
     let* message := lift (py_getitem commit "message") in
     let* author := lift (py_getitem commit "author") in
     let* name := lift (py_getitem author "name") in
     let* date := lift (py_getitem author "date") in
     let commit_info :=
       JObj [("sha", short); ("message", message); ("author", name); ("date", date)] in
     let commit_list' := commit_list ++ [commit_info] in
     let* msg_summary := lift (split_first_line message) in
     print (DCommitLine short name date msg_summary) ;;
     ret commit_list')
    (fun key => print (DSkipMalformed key) ;; ret commit_list).

Definition compare_url_of (repo sha1 sha2 : json) : string :=
  "https://github.com/" +:+ fmt repo +:+ "/compare/" +:+ fmt sha1 +:+ "..." +:+ fmt sha2.

Definition get_github_commits_between (repo sha1 sha2 : json)
    : M (list json * string) :=
  let compare_url := compare_url_of repo sha1 sha2 in
  print (DCompareUrl compare_url) ;;
  let* short1 := lift (slice7 sha1) in
  let* short2 := lift (slice7 sha2) in
  print (DFetchingCommits short1 short2 repo) ;;
  let cmd :=
    ["gh"; "api";
     "repos/" +:+ fmt repo +:+ "/compare/" +:+ fmt sha1 +:+ "..." +:+ fmt sha2] in
  let* result := subprocess_run cmd in
  match result with
  | ProcTimeout => print DGitHubTimeout ;; ret ([], compare_url)
  | ProcNotFound => print DGhNotFound ;; ret ([], compare_url)
  | ProcDone returncode stdout stderr =>
      if negb (returncode =? 0)%Z then
        print (DGitHubApiError stderr) ;; ret ([], compare_url)
      else
        match stdout with
        | None => print DInvalidJsonGitHub ;; ret ([], compare_url)
        | Some data =>
            let* commits := lift (py_get data "commits" (JArr [])) in
            let* n := lift (py_len commits) in
            print (DFoundCommits n short1 short2) ;;
            let* entries := lift (py_iter commits) in
            let* commit_list := for_each entries collect_commit [] in
            ret (commit_list, compare_url)
        end
  end.

(** [pattern.findall(message)]: a TypeError unless the message is a str. *)
Definition findall_value (re : Re.regex) (message : json) : result (list string) :=
  match message with
  | JStr s => Ok (Re.findall re s)
  | _ => Err TypeError
  end.

Definition scan_commit (c : json) (refs : gset string) : M (gset string) :=
  catch_key
    (let* message := lift (py_getitem c "message") in
     let* found := lift (findall_value issue_pattern message) in
     ret (refs ∪ list_to_set (map str_upper found)))
    (fun _ => print DSkipMissingMessage ;; ret refs).

Definition analyze_commits (commit_list : list json) (jira_base_url : string)
    : M (list string) :=
  let* refs := for_each commit_list scan_commit ∅ in
  let refs_list := sorted refs in
  print DUniqueRefsHeader ;;
  match refs_list with
  | [] => print DNoneFound
  | _ =>
      for_each refs_list
        (fun ref _ => print (DRef ref (jira_base_url +:+ ref))) tt
  end ;;
  ret (map (fun ref => jira_base_url +:+ ref) refs_list).

Definition pr_link (repo : json) (number : string) : string :=
  "[#" +:+ number +:+ "](https://github.com/" +:+ fmt repo +:+ "/pull/"
    +:+ number +:+ ")".

(** The body of the loop that writes one line per commit. *)
Definition write_commit (repo : json) (output_file : string) (c : json)
    (_ : unit) : M unit :=
  catch_key
    (let* sha := lift (py_getitem c "sha") in
     let sha_link := "https://github.com/" +:+ fmt repo +:+ "/commit/" +:+ fmt sha in
     let* message := lift (py_getitem c "message") in
     let* msg_summary := lift (split_first_line message) in
     let msg_summary_with_pr := Re.sub pr_pattern (pr_link repo) msg_summary in
     let* author := lift (py_getitem c "author") in
     let* date := lift (py_getitem c "date") in
     write output_file
       ("- [" +:+ fmt sha +:+ "](" +:+ sha_link +:+ ") | " +:+ fmt author
          +:+ " | " +:+ fmt date +:+ " | " +:+ msg_summary_with_pr +:+ nl))
    (fun key => print (DSkipMissingField key)).

(** A failure of [open] is the IOError that is modelled: the path is one
    that [open] takes (ASCII text without a NUL character; for a path with
    a NUL character [open] raises a ValueError, which is not modelled).
    The writes that follow a successful [open] succeed. *)
Definition export_to_markdown (commit_list : list json)
    (refs_links : list string) (repo : json) (compare_url output_file : string)
    : M unit :=
  let* opened := open_for_writing output_file in
  if negb opened then print (DWriteError output_file)
  else
    let* timestamp := strftime_now in
    write output_file ("# Commit Report - " +:+ timestamp +:+ nl +:+ nl) ;;
    write output_file
      ("**GitHub Compare URL:** [" +:+ compare_url +:+ "](" +:+ compare_url
         +:+ ")" +:+ nl +:+ nl) ;;
    write output_file ("## GitHub Commits" +:+ nl +:+ nl) ;;
    match commit_list with
    | [] => write output_file ("No commits found." +:+ nl)
    | _ => for_each commit_list (write_commit repo output_file) tt
    end ;;
    write output_file (nl +:+ "## Ticket References" +:+ nl +:+ nl) ;;
    match refs_links with
    | [] => write output_file ("No ticket references found." +:+ nl)
    | _ =>
        for_each refs_links
          (fun link _ => write output_file ("- " +:+ link +:+ nl)) tt
    end ;;
    write output_file (nl +:+ "_Report generated on " +:+ timestamp +:+ "_" +:+ nl) ;;
    print (DMarkdownCreated output_file).

(** [pattern.match] raises a TypeError on a value that is not a str. *)
Definition validate_build_number (build_number : json) : result bool :=
  match build_number with
  | JStr s => Ok (Re.matches build_number_pattern s)
  | _ => Err TypeError
  end.

Section Main.
Variable g : globals.

(** Lines 209-218: the two build numbers. *)
Definition choose_builds : M (json * json) :=
  if Nat.eqb (length (argv g)) 4 then
    let build1 := JStr (nth 2 (argv g) "") in
    let build2 := JStr (nth 3 (argv g) "") in
    print (DComparingArgs build1 build2) ;; ret (build1, build2)
  else
    let* n := lift (py_len (BUILD_NUMBERS g)) in
    if negb (Nat.eqb n 2) then print DNeedTwoBuilds ;; sys_exit 1
    else
      let* values := lift (py_iter (BUILD_NUMBERS g)) in
      match values with
      | [build1; build2] =>
          print (DComparingConfig build1 build2) ;; ret (build1, build2)
      | _ => raise ValueError
      end.

(** Lines 220-223: format warnings. *)
Definition warn_formats (build1 build2 : json) : M unit :=
  for_each [build1; build2]
    (fun build_num _ =>
       let* valid := lift (validate_build_number build_num) in
       if negb valid then print (DWarnBuildFormat build_num) else ret tt)
    tt.

(** Lines 225-229: one query per build number, keeping the truthy SHAs. *)
Definition resolve_shas (build1 build2 : json) : M (list json) :=
  for_each [build1; build2]
    (fun build_num commit_shas =>
       let* sha :=
         get_azure_build_commit (ORG g) (PROJECT g) (DEFINITION_ID g)
           (BRANCH g) build_num (AZURE_PAT g) in
       if truthy sha then ret (commit_shas ++ [sha]) else ret commit_shas)
    [].

(** Lines 236-248: what follows once two SHAs are known. *)
Definition report (build1 build2 sha1 sha2 : json) : M unit :=
  let* fetched := get_github_commits_between (GITHUB_REPO g) sha1 sha2 in
  let commit_list := fst fetched in
  let compare_url := snd fetched in
  match commit_list with
  | [] => print DNoCommitsFound ;; ret tt
  | _ =>
      let* refs_links := analyze_commits commit_list default_jira_base_url in
      let base_name := path_stem w (config_file g) in
      let output_file :=
        base_name +:+ "_" +:+ fmt build1 +:+ "_" +:+ fmt build2
          +:+ "_commit_report.md" in
      export_to_markdown commit_list refs_links (GITHUB_REPO g) compare_url
        output_file
  end.

Definition main : M unit :=
  let* builds := choose_builds in
  let build1 := fst builds in
  let build2 := snd builds in
  warn_formats build1 build2 ;;
  let* commit_shas := resolve_shas build1 build2 in
  if Nat.ltb (length commit_shas) 2 then print DCouldNotGetTwo ;; sys_exit 1
  else
    match commit_shas with
    | [sha1; sha2] => report build1 build2 sha1 sha2
    | _ => raise ValueError
    end.
End Main.

(** The module body followed by [main()]. *)
Definition program (args : list string) : M unit :=
  if Nat.ltb (length args) 2 then print DUsage ;; sys_exit 1
  else
    let path := nth 1 args "" in
    match read_config w path with
    | None => print DConfigLoadFailed ;; sys_exit 1
    | Some config =>
        let* org := lift (py_get config "ORG" JNull) in
        let* project := lift (py_get config "PROJECT" JNull) in
        let* definition_id := lift (py_get config "DEFINITION_ID" JNull) in
        let* branch := lift (py_get config "BRANCH" JNull) in
        let* azure_pat := lift (py_get config "AZURE_PAT" JNull) in
        let* github_repo := lift (py_get config "GITHUB_REPO" JNull) in
        let* build_numbers := lift (py_get config "BUILD_NUMBERS" (JArr [])) in
        main (Globals args path org project definition_id branch azure_pat
                github_repo build_numbers)
    end.

End Script.

(** ** Vocabulary of the statements *)

(** The length of the longest prefix whose characters all satisfy [p]. *)
Fixpoint span (p : ascii -> bool) (s : string) : nat :=
  match s with
  | EmptyString => 0
  | String c s' => if p c then S (span p s') else 0
  end.

(** No character satisfying [p] comes first. *)
Definition head_fails (p : ascii -> bool) (s : string) : Prop :=
  match s with
  | EmptyString => True
  | String c _ => p c = false
  end.

Definition within (hi : option nat) (n : nat) : bool :=
  match hi with
  | Some h => Nat.leb n h
  | None => true
  end.

Module IssueKey.
Import Re.

Definition letters : cset := CUnion (CRange "a" "z") (CRange "A" "Z").

(** The text at the current position starts with an issue key of
    length [n]: letters, a hyphen, digits, with a word boundary on
    both sides. *)
Definition key_here (prev : option ascii) (s : string) (n : nat) : Prop :=
  exists ls ds rest,
    s = ls +:+ "-" +:+ ds +:+ rest
    /\ 3 <= String.length ls <= 5 /\ str_all Chars.is_alpha ls = true
    /\ 2 <= String.length ds <= 6 /\ str_all Chars.is_digit ds = true
    /\ opt_word prev = false /\ opt_word (str_head rest) = false
    /\ n = String.length ls + 1 + String.length ds.

Definition tail_digits : nat -> option ascii -> string -> option (nat * groups) :=
  fun pos prev s =>
    rep (cset_mem true CDigit)
      (fun pos' prev' s' => run true [IBoundary] (None, None) pos' prev' s')
      2 (Some 6) pos prev s.

Definition tail_hyphen : nat -> option ascii -> string -> option (nat * groups) :=
  fun pos prev s =>
    rep (cset_mem true (CChar "-")) tail_digits 1 (Some 1) pos prev s.

(** The shape of an issue key, without its context. *)
Definition is_key (m : string) : Prop :=
  exists ls ds,
    m = ls +:+ "-" +:+ ds
    /\ 3 <= String.length ls <= 5 /\ str_all Chars.is_alpha ls = true
    /\ 2 <= String.length ds <= 6 /\ str_all Chars.is_digit ds = true.

End IssueKey.

Definition is_obj (v : json) : bool :=
  match v with
  | JObj _ => true
  | _ => false
  end.

(** The entry is a build whose [result] field is the string "succeeded". *)
Definition is_succeeded (b : json) : bool :=
  match b with
  | JObj kvs =>
      match assoc "result" kvs with
      | Some r => eq_str r "succeeded"
      | None => false
      end
  | _ => false
  end.

(** A build object that did not succeed. *)
Definition other_build (b : json) : Prop := is_obj b = true /\ is_succeeded b = false.

(** The field of a build, [None] when the key is absent. *)
Definition field (k : string) (b : json) : option json :=
  match b with
  | JObj kvs => assoc k kvs
  | _ => None
  end.

(** The answer to the query issued by [get_azure_build_commit] at trace [t]
    is a JSON body [data]. *)
Definition azure_body (w : world) (org project definition_id branch build_number pat : json)
    (t : trace) (data : json) : Prop :=
  http_get w (t ++ [Print (DFetchingBuild build_number org project)])
    ("https://dev.azure.com/" +:+ fmt w org +:+ "/" +:+ fmt w project +:+ "/_apis/build/builds")
    [ ("definitions", definition_id); ("branchName", branch);
      ("buildNumber", build_number); ("api-version", JStr "7.2-preview.7") ]
    pat
  = HttpBody (Some data).

Definition is_http (e : event) : bool :=
  match e with HttpGet _ _ _ => true | _ => false end.

Definition is_process (e : event) : bool :=
  match e with RunProcess _ => true | _ => false end.

Definition is_file (e : event) : bool :=
  match e with FileOpen _ | FileWrite _ _ => true | _ => false end.

(** The defensive branches: a commit record without an expected key. *)
Definition is_skip (e : event) : bool :=
  match e with
  | Print DSkipMissingMessage | Print (DSkipMissingField _) => true
  | _ => false
  end.

(** The reference extractor has started. *)
Definition is_analysis (e : event) : bool :=
  match e with
  | Print DUniqueRefsHeader | Print (DRef _ _) | Print DNoneFound
  | Print DSkipMissingMessage => true
  | _ => false
  end.

(** A build number was resolved to a commit. *)
Definition is_resolved (e : event) : bool :=
  match e with Print (DBuildCommit _ _) => true | _ => false end.

Definition resolved (d : list event) : nat := length (List.filter is_resolved d).

(** Console output only. *)
Definition is_print (e : event) : bool :=
  match e with Print _ => true | _ => false end.

(** Console output and HTTP requests: what happens up to the resolution of
    the two builds.  No process is launched, no file is touched and the
    reference extractor has not started. *)
Definition quiet (e : event) : Prop :=
  is_process e = false /\ is_file e = false /\ is_analysis e = false.

(** [m] only appends events, and every event it appends satisfies [P]. *)
Definition adds {A} (P : event -> Prop) (m : M A) : Prop :=
  forall t, exists d, snd (m t) = t ++ d /\ Forall P d.

(** Events of the resolver: console output and one HTTP request. *)
Definition resolver_event (e : event) : Prop :=
  is_process e = false /\ is_file e = false /\ is_analysis e = false /\ is_skip e = false.

(** The four values read from an entry of the [commits] array:
    [sha], [commit.message], [commit.author.name], [commit.author.date]. *)
Definition four_fields (c : json) : option (json * json * json * json) :=
  match field "sha" c, field "commit" c with
  | Some sha, Some commit =>
      match field "message" commit, field "author" commit with
      | Some message, Some author =>
          match field "name" author, field "date" author with
          | Some name, Some date => Some (sha, message, name, date)
          | _, _ => None
          end
      | _, _ => None
      end
  | _, _ => None
  end.

Definition has_all_fields (c : json) : bool :=
  match four_fields c with
  | Some _ => true
  | None => false
  end.

(** The record built from an entry that has the four fields. *)
Definition commit_info_of (c : json) : json :=
  match four_fields c with
  | Some (JStr sha, message, name, date) =>
      JObj [("sha", JStr (str_take 7 sha)); ("message", message);
            ("author", name); ("date", date)]
  | _ => JNull
  end.

Definition str_or_absent (o : option json) : bool :=
  match o with
  | Some (JStr _) | None => true
  | _ => false
  end.

Definition obj_or_absent (o : option json) : bool :=
  match o with
  | Some (JObj _) | None => true
  | _ => false
  end.

(** An entry shaped as the comparison endpoint documents it, except that
    fields may be missing: the entry, [commit] and [commit.author] are
    objects, [sha] and [commit.message] are strings. *)
Definition entry_ok (c : json) : bool :=
  is_obj c
  && str_or_absent (field "sha" c)
  && match field "commit" c with
     | None => true
     | Some commit =>
         is_obj commit
         && str_or_absent (field "message" commit)
         && obj_or_absent (field "author" commit)
     end.

(** The answer of the [gh] process launched by the fetcher at trace [t]. *)
Definition gh_answer (w : world) (repo sha1 sha2 : string) (t : trace) : proc_result :=
  run_process w
    ((t ++ [Print (DCompareUrl (compare_url_of w (JStr repo) (JStr sha1) (JStr sha2)))])
       ++ [Print (DFetchingCommits (JStr (str_take 7 sha1)) (JStr (str_take 7 sha2)) (JStr repo))])
    ["gh"; "api"; "repos/" +:+ repo +:+ "/compare/" +:+ sha1 +:+ "..." +:+ sha2].

(** A record as the fetcher builds it: the four keys, a string message and
    a [sha] of at most seven items. *)
Definition is_commit_record (c : json) : Prop :=
  exists sha message author date n,
    c = JObj [("sha", sha); ("message", JStr message); ("author", author); ("date", date)]
    /\ py_len sha = Ok n /\ n <= 7.

(** The keys found in one message, normalised. *)
Definition message_keys (message : string) : gset string :=
  list_to_set (map str_upper (Re.findall issue_pattern message)).

(** The line written for a commit record. *)
Definition commit_line (w : world) (repo sha author date : json) (message : string) : string :=
  "- [" +:+ fmt w sha +:+ "](" +:+ "https://github.com/" +:+ fmt w repo +:+ "/commit/"
    +:+ fmt w sha +:+ ") | " +:+ fmt w author +:+ " | " +:+ fmt w date +:+ " | "
    +:+ Re.sub pr_pattern (pr_link w repo) (first_line message) +:+ nl.

Definition example_commit : json :=
  JObj [("sha", JStr "abcdef1"); ("author", JStr "A");
        ("date", JStr "2024-01-01T00:00:00Z");
        ("message", JStr ("Fix #42" +:+ nl +:+ "body"))].

Definition example_line : string :=
  "- [abcdef1](https://github.com/org/repo/commit/abcdef1) | A | 2024-01-01T00:00:00Z | Fix [#42](https://github.com/org/repo/pull/42)"
    +:+ nl.

(** Strict lexicographic order on strings, by character code. *)
Definition str_lt (a b : string) : Prop := String.ltb a b = true.

(** A record the extractor can scan: an object whose message, when
    present, is a string. *)
Definition scannable (c : json) : bool :=
  is_obj c && str_or_absent (field "message" c).

(** The normalised keys of one record. *)
Definition keys_of (c : json) : gset string :=
  match field "message" c with
  | Some (JStr message) => message_keys message
  | _ => ∅
  end.

Definition with_message (message : string) : json := JObj [("message", JStr message)].

(** Console output that does not announce a resolved build. *)
Definition plain (e : event) : Prop :=
  is_print e = true /\ is_resolved e = false /\ is_analysis e = false.

(** The run reaches line 231 with the list [commit_shas] at trace [t']. *)
Definition resolves (w : world) (g : globals) (t : trace)
    (build1 build2 : json) (commit_shas : list json) (t' : trace) : Prop :=
  exists t1 t2,
    choose_builds g t = (Ret (build1, build2), t1)
    /\ warn_formats build1 build2 t1 = (Ret tt, t2)
    /\ resolve_shas w g build1 build2 t2 = (Ret commit_shas, t').

(** One turn of the loop over the two build numbers. *)
Definition resolve_turn (w : world) (g : globals) (build_num : json)
    (commit_shas : list json) : M (list json) :=
  let* sha :=
    get_azure_build_commit w (ORG g) (PROJECT g) (DEFINITION_ID g)
      (BRANCH g) build_num (AZURE_PAT g) in
  if truthy sha then ret (commit_shas ++ [sha]) else ret commit_shas.

Definition demo_world (config : option json) (http : http_result)
    (proc : proc_result) : world :=
  World (fun _ => "None") (fun _ => config) (fun _ _ _ _ => http)
    (fun _ _ => proc) (fun _ _ => true) (fun _ => "2024-01-02 03:04:05")
    (fun _ => "config").

Definition demo_build : json :=
  JObj [("result", JStr "succeeded"); ("sourceVersion", JStr "0123456789abcdef")].

Definition demo_builds : http_result :=
  HttpBody (Some (JObj [("count", JInt 2);
                        ("value", JArr [JObj [("result", JStr "failed")]; demo_build])])).

Definition demo_entry : json :=
  JObj [("sha", JStr "abcdef1234567890");
        ("commit",
         JObj [("message", JStr ("Fix abc-123 (#42)" +:+ nl +:+ "body"));
               ("author", JObj [("name", JStr "A"); ("date", JStr "2024-01-01T00:00:00Z")])])].

Definition demo_compare : proc_result :=
  ProcDone 0 (Some (JObj [("commits", JArr [JObj [("sha", JStr "ffff")]; demo_entry])])) "".

Definition demo_args : list string := ["GetGitHubCommitsFromDevOpsBuild.py"; "config.json"].

(** A configuration whose BUILD_NUMBERS is a two-character string. *)
Definition string_config : json :=
  JObj [("ORG", JStr "org"); ("PROJECT", JStr "proj"); ("GITHUB_REPO", JStr "org/repo");
        ("BUILD_NUMBERS", JStr "12")].

Definition demo_globals (build_numbers : json) : globals :=
  Globals demo_args "config.json" (JStr "org") (JStr "proj") JNull JNull JNull
    (JStr "org/repo") build_numbers.

Definition azure_world : world := demo_world None demo_builds ProcNotFound.

Definition fetch_world : world := demo_world None HttpFailed demo_compare.

Definition list_config (build_numbers : list json) : json :=
  JObj [("ORG", JStr "org"); ("PROJECT", JStr "proj"); ("GITHUB_REPO", JStr "org/repo");
        ("BUILD_NUMBERS", JArr build_numbers)].

Definition failing_world : world :=
  demo_world (Some (list_config [JStr "1.2.3"; JStr "1.2.4"])) HttpFailed demo_compare.

Definition empty_world : world := demo_world None demo_builds ProcNotFound.

Definition two_builds : globals := demo_globals (JArr [JStr "1.2.3"; JStr "1.2.4"]).

(** ** Vocabulary of the further properties *)

Module BuildNumber.
Import Re.

(** The rest of the build-number pattern after a run of digits, and after
    a dot. *)
Definition digits_then {R} (k : nat -> option ascii -> string -> option R)
    : nat -> option ascii -> string -> option R :=
  fun pos prev s => rep (cset_mem false CDigit) k 1 None pos prev s.

Definition dot_then {R} (k : nat -> option ascii -> string -> option R)
    : nat -> option ascii -> string -> option R :=
  fun pos prev s => rep (cset_mem false (CChar ".")) k 1 (Some 1) pos prev s.

Definition at_end_k : nat -> option ascii -> string -> option (nat * groups) :=
  fun pos prev s => run false [IEnd] (None, None) pos prev s.

(** A non-empty run of decimal digits. *)
Definition digits (a : string) : Prop :=
  a <> EmptyString /\ str_all Chars.is_digit a = true.

(** Three runs of digits separated by dots, optionally followed by one
    final line feed. *)
Definition shape (s : string) : Prop :=
  exists a b c tail,
    s = a +:+ "." +:+ b +:+ "." +:+ c +:+ tail
    /\ digits a /\ digits b /\ digits c
    /\ (tail = EmptyString \/ tail = nl).

End BuildNumber.


Definition is_str (v : json) : bool :=
  match v with
  | JStr _ => true
  | _ => false
  end.

(** The SHA kept for a build: the resolver's answer when it is truthy. *)
Definition kept_sha (sha : json) : list json := if truthy sha then [sha] else [].

(** The request sent by the resolver. *)
Definition azure_request (w : world)
    (org project definition_id branch build_number pat : json) : event :=
  HttpGet
    ("https://dev.azure.com/" +:+ fmt w org +:+ "/" +:+ fmt w project +:+ "/_apis/build/builds")
    [ ("definitions", definition_id); ("branchName", branch);
      ("buildNumber", build_number); ("api-version", JStr "7.2-preview.7") ]
    pat.

(** What the HTTP oracle answers to that request at trace [t]. *)
Definition azure_answer (w : world)
    (org project definition_id branch build_number pat : json) (t : trace) : http_result :=
  http_get w (t ++ [Print (DFetchingBuild build_number org project)])
    ("https://dev.azure.com/" +:+ fmt w org +:+ "/" +:+ fmt w project +:+ "/_apis/build/builds")
    [ ("definitions", definition_id); ("branchName", branch);
      ("buildNumber", build_number); ("api-version", JStr "7.2-preview.7") ]
    pat.

Definition count_events (f : event -> bool) (d : list event) : nat :=
  length (List.filter f d).

(** The command line of the comparison. *)
Definition gh_command (w : world) (repo sha1 sha2 : json) : list string :=
  ["gh"; "api";
   "repos/" +:+ fmt w repo +:+ "/compare/" +:+ fmt w sha1 +:+ "..." +:+ fmt w sha2].

(** The line of the report for a record that has the four keys and a
    string message. *)
Definition line_of (w : world) (repo : json) (c : json) : option string :=
  match field "sha" c, field "message" c, field "author" c, field "date" c with
  | Some sha, Some (JStr message), Some author, Some date =>
      Some (commit_line w repo sha author date message)
  | _, _, _, _ => None
  end.

(** The lines of the records that have one, in order. *)
Fixpoint lines_of (w : world) (repo : json) (commit_list : list json) : list string :=
  match commit_list with
  | [] => []
  | c :: rest =>
      match line_of w repo c with
      | Some line => line :: lines_of w repo rest
      | None => lines_of w repo rest
      end
  end.

(** The first key, in the order the writer reads them, that an object
    lacks; None also when the message is present but not a string. *)
Definition first_missing (c : json) : option string :=
  match c with
  | JObj kvs =>
      match assoc "sha" kvs with
      | None => Some "sha"
      | Some _ =>
          match assoc "message" kvs with
          | None => Some "message"
          | Some (JStr _) =>
              match assoc "author" kvs with
              | None => Some "author"
              | Some _ =>
                  match assoc "date" kvs with
                  | None => Some "date"
                  | Some _ => None
                  end
              end
          | Some _ => None
          end
      end
  | _ => None
  end.

(** The chunks written to the report, in order. *)
Definition document (w : world) (repo : json) (compare_url timestamp : string)
    (commit_list : list json) (refs_links : list string) : list string :=
  [ "# Commit Report - " +:+ timestamp +:+ nl +:+ nl;
    "**GitHub Compare URL:** [" +:+ compare_url +:+ "](" +:+ compare_url +:+ ")" +:+ nl +:+ nl;
    "## GitHub Commits" +:+ nl +:+ nl ]
  ++ match commit_list with
     | [] => ["No commits found." +:+ nl]
     | _ => lines_of w repo commit_list
     end
  ++ [ nl +:+ "## Ticket References" +:+ nl +:+ nl ]
  ++ match refs_links with
     | [] => ["No ticket references found." +:+ nl]
     | _ => map (fun link => "- " +:+ link +:+ nl) refs_links
     end
  ++ [ nl +:+ "_Report generated on " +:+ timestamp +:+ "_" +:+ nl ].

Definition is_open (e : event) : bool :=
  match e with FileOpen _ => true | _ => false end.

(** A file event names [path]. *)
Definition on_file (path : string) (e : event) : Prop :=
  match e with
  | FileOpen p | FileWrite p _ => p = path
  | _ => True
  end.

(** The name of the report of a run. *)
Definition report_name (w : world) (g : globals) (build1 build2 : json) : string :=
  path_stem w (config_file g) +:+ "_" +:+ fmt w build1 +:+ "_" +:+ fmt w build2
    +:+ "_commit_report.md".

(** An event of the writer after it opened [path]: no second [open],
    no other file, no request and no process. *)
Definition writer_event (path : string) (e : event) : Prop :=
  is_open e = false /\ on_file path e /\ is_http e = false /\ is_process e = false.

(** A world in which no file can be opened for writing. *)
Definition readonly_world : world :=
  World (fun _ => "None") (fun _ => None) (fun _ _ _ _ => demo_builds)
    (fun _ _ => demo_compare) (fun _ _ => false) (fun _ => "2024-01-02 03:04:05")
    (fun _ => "config").

(** A computation that can only exit with status 1. *)
Definition exits_one {A} (m : M A) : Prop :=
  forall t c, fst (m t) = Exit c -> c = 1%Z.

(** The globals the module body builds from a configuration object. *)
Definition globals_of (args : list string) (kvs : list (string * json)) : globals :=
  let get k := match assoc k kvs with Some v => v | None => JNull end in
  Globals args (nth 1 args "") (get "ORG") (get "PROJECT") (get "DEFINITION_ID")
    (get "BRANCH") (get "AZURE_PAT") (get "GITHUB_REPO")
    (match assoc "BUILD_NUMBERS" kvs with Some v => v | None => JArr [] end).

(** The three phases of a run, by what their events may be. *)
Definition resolving_event (e : event) : Prop := is_process e = false /\ is_file e = false.
Definition fetching_event (e : event) : Prop := is_http e = false /\ is_file e = false.
Definition reporting_event (e : event) : Prop := is_http e = false /\ is_process e = false.

Definition report_world : world := demo_world None demo_builds demo_compare.

(** A normalised issue key: 3 to 5 upper-case letters, a hyphen, 2 to 6
    digits. *)
Definition upper_key (k : string) : Prop :=
  exists ls ds,
    k = ls +:+ "-" +:+ ds
    /\ 3 <= String.length ls <= 5 /\ str_all Chars.is_upper ls = true
    /\ 2 <= String.length ds <= 6 /\ str_all Chars.is_digit ds = true.

(** The classes of a pattern do not tell a character from its upper-case
    form. *)
Definition caseless (ic : bool) (it : Re.item) : Prop :=
  match it with
  | Re.IRep cs _ _ => forall c, Re.cset_mem ic cs (Chars.upper c) = Re.cset_mem ic cs c
  | _ => True
  end.

(** The character tests of the summary and of pull-request references. *)
Definition is_hash (c : ascii) : bool := Ascii.eqb c "#".

Definition is_lf (c : ascii) : bool := Ascii.eqb c "010".

(** No character of the string satisfies [p]. *)
Definition free_of (p : ascii -> bool) (s : string) : Prop :=
  str_all (fun c => negb (p c)) s = true.

(** What [pr_pattern.sub] puts in the place of [#number]: the link, or the
    sign itself when no digit follows it. *)
Definition linked (w : world) (repo : json) (number : string) : string :=
  match number with
  | EmptyString => "#"
  | _ => pr_link w repo number
  end.

(** A record without a [message] key. *)
Definition lacks_message (c : json) : bool :=
  match field "message" c with
  | None => true
  | Some _ => false
  end.

(** The lines the extractor prints under its heading for the keys found. *)
Definition listing (jira_base_url : string) (keys : list string) : list event :=
  match keys with
  | [] => [Print DNoneFound]
  | _ => map (fun ref => Print (DRef ref (jira_base_url +:+ ref))) keys
  end.

(** The key the fetcher misses first in an entry, in the order of its
    lookups. *)
Definition entry_missing (c : json) : string :=
  match field "sha" c, field "commit" c with
  | None, _ => "sha"
  | Some _, None => "commit"
  | Some _, Some commit =>
      match field "message" commit, field "author" commit with
      | None, _ => "message"
      | Some _, None => "author"
      | Some _, Some author =>
          match field "name" author with
          | None => "name"
          | Some _ => "date"
          end
      end
  end.

(** What the fetcher prints for one entry of the answer. *)
Definition entry_line (c : json) : event :=
  match four_fields c with
  | Some (JStr sha, JStr message, name, date) =>
      Print (DCommitLine (JStr (str_take 7 sha)) name date (first_line message))
  | _ => Print (DSkipMalformed (entry_missing c))
  end.

(** ** Text within the modelled range *)

(** A character of the ASCII range, and a text made of such characters:
    the texts on which the character classes, [len] and iteration of the
    model are those of the interpreter. *)
Definition is_ascii (c : ascii) : bool := (Chars.code c <? 128)%N.

Definition ascii_text (s : string) : Prop := str_all is_ascii s = true.

(** The character before a position, when there is one, is ASCII. *)
Definition ascii_before (prev : option ascii) : Prop :=
  match prev with
  | Some c => is_ascii c = true
  | None => True
  end.

(** The message of a record, when it is a string, is ASCII text. *)
Definition ascii_message (c : json) : Prop :=
  match field "message" c with
  | Some (JStr message) => ascii_text message
  | _ => True
  end.

(** A configuration value as the interpreter holds it: the text of a
    string is ASCII, the keys of an object are distinct. *)
Definition representable (v : json) : Prop :=
  match v with
  | JStr s => ascii_text s
  | JObj kvs => NoDup (map fst kvs)
  | _ => True
  end.

(** [len(v) = n], for the values that have a length: the items of a list,
    the characters of a string, the keys of an object. *)
Definition has_len (v : json) (n : nat) : Prop :=
  match v with
  | JArr l => List.length l = n
  | JStr s => String.length s = n
  | JObj kvs => List.length kvs = n
  | _ => False
  end.

(** [build1, build2 = v]: the two items of a list, the two characters of a
    string, the two keys of an object. *)
Definition two_items (v build1 build2 : json) : Prop :=
  match v with
  | JArr [x; y] => build1 = x /\ build2 = y
  | JStr (String c1 (String c2 EmptyString)) =>
      build1 = JStr (String c1 EmptyString) /\ build2 = JStr (String c2 EmptyString)
  | JObj [(k1, _); (k2, _)] => build1 = JStr k1 /\ build2 = JStr k2
  | _ => False
  end.

(** A path that [open] takes: ASCII text without a NUL character. *)
Definition is_nul (c : ascii) : bool := Ascii.eqb c "000".

Definition file_name (path : string) : Prop :=
  ascii_text path /\ str_all (fun c => negb (is_nul c)) path = true.

(** * Properties *)

(** ** The patterns on examples *)

Example findall_demo :
  Re.findall issue_pattern "Fix abc-123, see ABCDE-12;AB-12 ABCDEF-12 ABC-1 X_ABC-22 ABC-1234567"
  = ["abc-123"; "ABCDE-12"].
Proof. vm_compute. reflexivity. Qed.

Example sub_demo :
  Re.sub pr_pattern (fun n => "<" +:+ n +:+ ">") "Merge #42 and #7x #" = "Merge <42> and <7>x #".
Proof. vm_compute. reflexivity. Qed.

Example build_number_demo :
  map (Re.matches build_number_pattern) ["1.2.3"; "10.20.30"; "1.2"; "1.2.3.4"; "a.b.c"; "1.2.3 "]
  = [true; true; false; false; false; false].
Proof. vm_compute. reflexivity. Qed.

(** ** Strings *)

Lemma app_nil_string (b : string) : EmptyString +:+ b = b.
Proof. reflexivity. Qed.

Lemma app_cons_string c (a b : string) : String c a +:+ b = String c (a +:+ b).
Proof. reflexivity. Qed.

Lemma str_take_drop n s : str_take n s +:+ str_drop n s = s.
Proof.
  revert s; induction n as [|n IH]; intros [|c s]; simpl; try reflexivity.
  now rewrite app_cons_string, IH.
Qed.

Lemma str_all_take_span p s : str_all p (str_take (span p s) s) = true.
Proof.
  induction s as [|c s IH]; simpl; [reflexivity|].
  destruct (p c) eqn:E; simpl; [now rewrite E|reflexivity].
Qed.

Lemma length_take_span p s : String.length (str_take (span p s) s) = span p s.
Proof.
  induction s as [|c s IH]; simpl; [reflexivity|].
  destruct (p c); simpl; [now rewrite IH|reflexivity].
Qed.

Lemma str_all_ext p q s :
  (forall c, p c = q c) -> str_all p s = str_all q s.
Proof. intros H; induction s as [|c s IH]; simpl; [reflexivity|now rewrite H, IH]. Qed.

Lemma span_app p a b :
  str_all p a = true -> head_fails p b -> span p (a +:+ b) = String.length a.
Proof.
  intros Ha Hb; induction a as [|c a IH].
  - rewrite app_nil_string. destruct b as [|c b]; simpl in *; [reflexivity|now rewrite Hb].
  - rewrite app_cons_string. simpl in *.
    apply andb_true_iff in Ha as [Hc Ha]. rewrite Hc. now rewrite IH.
Qed.

Lemma str_take_app_length a b : str_take (String.length a) (a +:+ b) = a.
Proof.
  induction a as [|c a IH]; [rewrite app_nil_string; now destruct b|].
  rewrite app_cons_string; simpl. now rewrite IH.
Qed.

Lemma str_drop_app_length a b : str_drop (String.length a) (a +:+ b) = b.
Proof.
  induction a as [|c a IH]; [rewrite app_nil_string; now destruct b|].
  rewrite app_cons_string; simpl. exact IH.
Qed.

(** After a non-empty prefix of [p]-characters the last one satisfies [p]. *)
Lemma str_last_all p d s :
  str_all p s = true -> s <> EmptyString ->
  exists c, str_last d s = Some c /\ p c = true.
Proof.
  revert d; induction s as [|c s IH]; intros d Hs Hne; [congruence|].
  simpl in *. apply andb_true_iff in Hs as [Hc Hs].
  destruct s as [|c' s]; [exists c; auto|].
  apply IH; [exact Hs|discriminate].
Qed.

(** ** The matcher *)

Module ReFacts.
Import Re.

Section RepSpan.
Context {R : Type}.
Variable p : ascii -> bool.
Variable k : nat -> option ascii -> string -> option R.
(** What follows the repetition cannot start with a [p]-character
    right after a [p]-character. *)
Hypothesis k_stops :
  forall pos d c s, p d = true -> p c = true -> k pos (Some d) (String c s) = None.

Lemma rep_span s : forall lo hi pos prev,
  (1 <= lo \/ exists d, prev = Some d /\ p d = true) ->
  rep p k lo hi pos prev s =
    if Nat.leb lo (span p s) && within hi (span p s)
    then k (pos + span p s) (str_last prev (str_take (span p s) s))
           (str_drop (span p s) s)
    else None.
Proof.
  induction s as [|c s IH]; intros lo hi pos prev Hinv.
  - simpl. rewrite Nat.add_0_r.
    assert (within hi 0 = true) as -> by (destruct hi; reflexivity).
    rewrite andb_true_r.
    destruct lo; simpl; destruct hi as [[|h]|]; reflexivity.
  - cbn [rep span]. destruct (p c) eqn:Hc.
    + assert (Hstop : (if Nat.eqb lo 0 then k pos prev (String c s) else None) = None).
      { destruct lo as [|lo]; simpl; [|reflexivity].
        destruct Hinv as [Hlo|(d & -> & Hd)]; [lia|]. now apply k_stops. }
      rewrite Hstop.
      destruct hi as [[|h]|].
      * simpl. now rewrite andb_false_r.
      * rewrite IH by (right; eauto). cbn [option_map within Nat.pred].
        replace (Nat.leb (Nat.pred lo) (span p s)) with (Nat.leb lo (S (span p s)))
          by (destruct lo; reflexivity).
        replace (Nat.leb (S (span p s)) (S h)) with (Nat.leb (span p s) h) by reflexivity.
        replace (S pos + span p s) with (pos + S (span p s)) by lia.
        cbn [str_take str_drop str_last].
        destruct (_ && _); [|reflexivity].
        match goal with |- match ?x with _ => _ end = _ => destruct x end; reflexivity.
      * rewrite IH by (right; eauto). cbn [option_map within Nat.pred].
        replace (Nat.leb (Nat.pred lo) (span p s)) with (Nat.leb lo (S (span p s)))
          by (destruct lo; reflexivity).
        replace (S pos + span p s) with (pos + S (span p s)) by lia.
        cbn [str_take str_drop str_last].
        destruct (_ && _); [|reflexivity].
        match goal with |- match ?x with _ => _ end = _ => destruct x end; reflexivity.
    + rewrite Nat.add_0_r. cbn [str_take str_drop str_last].
      assert (within hi 0 = true) as -> by (destruct hi; reflexivity).
      rewrite andb_true_r.
      destruct lo; simpl; destruct hi as [[|h]|]; reflexivity.
Qed.
End RepSpan.

Lemma letters_mem c :
  cset_mem true (CUnion (CRange "a" "z") (CRange "A" "Z")) c = Chars.is_alpha c.
Proof. destruct c as [[] [] [] [] [] [] [] []]; reflexivity. Qed.

Lemma digit_mem ic c : cset_mem ic CDigit c = Chars.is_digit c.
Proof. destruct ic; destruct c as [[] [] [] [] [] [] [] []]; reflexivity. Qed.

Lemma hyphen_mem c : cset_mem true (CChar "-") c = Ascii.eqb c "-".
Proof. destruct c as [[] [] [] [] [] [] [] []]; reflexivity. Qed.

Lemma alpha_not_hyphen c : Chars.is_alpha c = true -> Ascii.eqb c "-" = false.
Proof. destruct c as [[] [] [] [] [] [] [] []]; vm_compute; intros; congruence. Qed.

Lemma digit_not_hyphen c : Chars.is_digit c = true -> Ascii.eqb c "-" = false.
Proof. destruct c as [[] [] [] [] [] [] [] []]; vm_compute; intros; congruence. Qed.

Lemma digit_is_word c : Chars.is_digit c = true -> Chars.is_word c = true.
Proof. destruct c as [[] [] [] [] [] [] [] []]; vm_compute; intros; congruence. Qed.

Lemma alpha_is_word c : Chars.is_alpha c = true -> Chars.is_word c = true.
Proof. destruct c as [[] [] [] [] [] [] [] []]; vm_compute; intros; congruence. Qed.

End ReFacts.

Module IssueKeyFacts.
Import Re ReFacts IssueKey.

Lemma match_here_unfold prev s :
  match_here issue_pattern prev s =
    if at_boundary prev s
    then rep (cset_mem true letters) tail_hyphen 3 (Some 5) 0 prev s
    else None.
Proof. reflexivity. Qed.

Lemma tail_digits_eq pos prev s :
  tail_digits pos prev s =
    let d := span (cset_mem true CDigit) s in
    if Nat.leb 2 d && Nat.leb d 6
    then if at_boundary (str_last prev (str_take d s)) (str_drop d s)
         then Some (pos + d, (None, None)) else None
    else None.
Proof.
  unfold tail_digits. rewrite rep_span; [reflexivity| |left; lia].
  intros q d c r Hd Hc. cbn [run]. unfold at_boundary. cbn [opt_word str_head].
  rewrite digit_mem in Hd, Hc.
  now rewrite (digit_is_word _ Hd), (digit_is_word _ Hc).
Qed.

Lemma tail_hyphen_eq pos prev s :
  tail_hyphen pos prev s =
    match s with
    | String c s' => if Ascii.eqb c "-" then
                       (if span (cset_mem true (CChar "-")) s' is 0
                        then tail_digits (pos + 1) (Some c) s' else None)
                     else None
    | EmptyString => None
    end.
Proof.
  unfold tail_hyphen. rewrite rep_span; [| |left; lia].
  - destruct s as [|c s]; [reflexivity|]. cbn [span].
    rewrite hyphen_mem. destruct (Ascii.eqb c "-") eqn:E; [|reflexivity].
    destruct (span _ s) eqn:Es; reflexivity.
  - intros q d c r Hd Hc. rewrite tail_digits_eq. cbn [span].
    rewrite hyphen_mem in Hc. rewrite digit_mem.
    destruct (Chars.is_digit c) eqn:E; [|reflexivity].
    now rewrite (digit_not_hyphen _ E) in Hc.
Qed.

Lemma span_pos_head p s :
  1 <= span p s -> exists c s', s = String c s' /\ p c = true.
Proof.
  destruct s as [|c s]; simpl; [lia|].
  destruct (p c) eqn:E; [eauto|lia].
Qed.

Lemma tail_hyphen_stops pos d c s :
  cset_mem true letters d = true -> cset_mem true letters c = true ->
  tail_hyphen pos (Some d) (String c s) = None.
Proof.
  intros _ Hc. rewrite tail_hyphen_eq. unfold letters in Hc.
  rewrite letters_mem in Hc. now rewrite (alpha_not_hyphen _ Hc).
Qed.

Lemma match_here_sound prev s n g :
  match_here issue_pattern prev s = Some (n, g) ->
  key_here prev s n /\ g = (None, None).
Proof.
  rewrite match_here_unfold.
  destruct (at_boundary prev s) eqn:Hb; [|discriminate].
  rewrite (rep_span _ _ tail_hyphen_stops) by (left; lia).
  set (a := span (cset_mem true letters) s).
  destruct (Nat.leb 3 a && within (Some 5) a) eqn:Ha; [|discriminate].
  apply andb_true_iff in Ha as [Ha3 Ha5]. cbn [within] in Ha5.
  apply Nat.leb_le in Ha3, Ha5.
  rewrite tail_hyphen_eq.
  destruct (str_drop a s) as [|c s'] eqn:Hdrop; [discriminate|].
  destruct (Ascii.eqb c "-") eqn:Hc; [|discriminate].
  apply Ascii.eqb_eq in Hc; subst c.
  destruct (span (cset_mem true (CChar "-")) s'); [|discriminate].
  rewrite tail_digits_eq. cbv zeta.
  set (d := span (cset_mem true CDigit) s').
  destruct (Nat.leb 2 d && Nat.leb d 6) eqn:Hd; [|discriminate].
  apply andb_true_iff in Hd as [Hd2 Hd6]. apply Nat.leb_le in Hd2, Hd6.
  destruct (at_boundary _ (str_drop d s')) eqn:Hb2; [|discriminate].
  intros [= <- <-]. split; [|reflexivity].
  exists (str_take a s), (str_take d s'), (str_drop d s').
  assert (Hla : String.length (str_take a s) = a) by apply length_take_span.
  assert (Hld : String.length (str_take d s') = d) by apply length_take_span.
  rewrite Hla, Hld.
  assert (Hds : str_all Chars.is_digit (str_take d s') = true).
  { rewrite <- (str_all_ext _ _ _ (digit_mem true)). apply str_all_take_span. }
  repeat split; try lia.
  - rewrite <- (str_take_drop a s) at 1. rewrite Hdrop.
    change ("-" +:+ str_take d s' +:+ str_drop d s')
      with (String "-" (str_take d s' +:+ str_drop d s')).
    now rewrite str_take_drop.
  - rewrite <- (str_all_ext _ _ _ letters_mem). apply str_all_take_span.
  - exact Hds.
  - assert (H1 : 1 <= span (cset_mem true letters) s) by (fold a; lia).
    destruct (span_pos_head _ _ H1) as (c0 & s0 & E & Hc0).
    rewrite E in Hb.
    unfold letters in Hc0. rewrite letters_mem in Hc0.
    unfold at_boundary in Hb. cbn [str_head opt_word] in Hb.
    rewrite (alpha_is_word _ Hc0) in Hb. now destruct (opt_word prev).
  - destruct (str_last_all Chars.is_digit (Some "-"%char) (str_take d s') Hds)
      as (dg & Hlast & Hdg).
    { intros E. rewrite E in Hld. simpl in Hld. lia. }
    unfold at_boundary in Hb2. rewrite Hlast in Hb2. cbn [opt_word] in Hb2.
    rewrite (digit_is_word _ Hdg) in Hb2.
    now destruct (opt_word (str_head (str_drop d s'))).
Qed.

Lemma length_pos_cons (s : string) :
  1 <= String.length s -> exists c s', s = String c s'.
Proof. destruct s as [|c s]; simpl; [lia|eauto]. Qed.

Lemma not_word_not_digit s :
  opt_word (str_head s) = false -> head_fails (cset_mem true CDigit) s.
Proof.
  destruct s as [|c s]; simpl; [trivial|]. intros H. rewrite digit_mem.
  destruct (Chars.is_digit c) eqn:E; [|reflexivity].
  now rewrite (digit_is_word _ E) in H.
Qed.

Lemma match_here_complete prev s n :
  key_here prev s n -> match_here issue_pattern prev s = Some (n, (None, None)).
Proof.
  intros (ls & ds & rest & -> & [Hl3 Hl5] & Hls & [Hd2 Hd6] & Hds & Hp & Hr & ->).
  change ("-" +:+ ds +:+ rest) with (String "-" (ds +:+ rest)).
  destruct (length_pos_cons ls ltac:(lia)) as (l0 & ls' & El).
  destruct (length_pos_cons ds ltac:(lia)) as (d0 & ds' & Ed).
  assert (Hl0 : Chars.is_alpha l0 = true).
  { rewrite El in Hls. simpl in Hls. now apply andb_true_iff in Hls as [? _]. }
  assert (Hd0 : Chars.is_digit d0 = true).
  { rewrite Ed in Hds. simpl in Hds. now apply andb_true_iff in Hds as [? _]. }
  rewrite match_here_unfold.
  assert (Hb : at_boundary prev (ls +:+ String "-" (ds +:+ rest)) = true).
  { rewrite El, app_cons_string. unfold at_boundary. cbn [str_head opt_word].
    now rewrite Hp, (alpha_is_word _ Hl0). }
  rewrite Hb.
  rewrite (rep_span _ _ tail_hyphen_stops) by (left; lia).
  assert (Ha : span (cset_mem true letters) (ls +:+ String "-" (ds +:+ rest))
               = String.length ls).
  { apply span_app.
    - now rewrite (str_all_ext _ _ _ letters_mem).
    - reflexivity. }
  rewrite Ha. cbn [within].
  rewrite (proj2 (Nat.leb_le 3 _) Hl3), (proj2 (Nat.leb_le _ 5) Hl5). cbn [andb].
  rewrite str_drop_app_length, tail_hyphen_eq. cbn [Ascii.eqb Bool.eqb].
  assert (Hh : span (cset_mem true (CChar "-")) (ds +:+ rest) = 0).
  { rewrite Ed, app_cons_string. cbn [span].
    now rewrite hyphen_mem, (digit_not_hyphen _ Hd0). }
  rewrite Hh, tail_digits_eq. cbv zeta.
  assert (Hd : span (cset_mem true CDigit) (ds +:+ rest) = String.length ds).
  { apply span_app.
    - now rewrite (str_all_ext _ _ _ (digit_mem true)).
    - now apply not_word_not_digit. }
  rewrite Hd.
  rewrite (proj2 (Nat.leb_le 2 _) Hd2), (proj2 (Nat.leb_le _ 6) Hd6). cbn [andb].
  rewrite str_take_app_length, str_drop_app_length.
  destruct (str_last_all Chars.is_digit (Some "-"%char) ds Hds) as (dg & Hlast & Hdg).
  { rewrite Ed. discriminate. }
  unfold at_boundary. rewrite Hlast. cbn [opt_word].
  rewrite (digit_is_word _ Hdg), Hr. cbn [xorb].
  reflexivity.
Qed.

(** The pattern matches at a position exactly when an issue key starts
    there, and the match is that key. *)
Lemma match_here_iff prev s n g :
  match_here issue_pattern prev s = Some (n, g) <->
  key_here prev s n /\ g = (None, None).
Proof.
  split; [apply match_here_sound|].
  intros [H ->]. now apply match_here_complete.
Qed.

Lemma str_take_app_add a b n :
  str_take (String.length a + n) (a +:+ b) = a +:+ str_take n b.
Proof.
  induction a as [|c a IH]; [reflexivity|].
  rewrite !app_cons_string. simpl. now rewrite IH.
Qed.

Lemma key_here_text prev s n : key_here prev s n -> is_key (str_take n s).
Proof.
  intros (ls & ds & rest & -> & Hl & Hls & Hd & Hds & _ & _ & ->).
  exists ls, ds. repeat split; try tauto.
  rewrite <- Nat.add_assoc, str_take_app_add. f_equal.
  change ("-" +:+ ds +:+ rest) with (String "-" (ds +:+ rest)).
  cbn [Nat.add str_take]. now rewrite str_take_app_length.
Qed.

(** Every text returned by [findall] is an issue key. *)
Lemma findall_from_keys s : forall skip prev m,
  m ∈ findall_from issue_pattern skip prev s -> is_key m.
Proof.
  induction s as [|c s IH]; intros skip prev m.
  - destruct skip; cbn [findall_from]; [|now intros ?%elem_of_nil].
    destruct (match_here issue_pattern prev "") as [[n g]|] eqn:E.
    + intros _. apply match_here_sound in E as [(ls & ds & rest & E & Hl & _) _].
      destruct ls; [simpl in Hl; lia|discriminate].
    + now intros ?%elem_of_nil.
  - destruct skip as [|k]; cbn [findall_from]; [|apply IH].
    destruct (match_here issue_pattern prev (String c s)) as [[n g]|] eqn:E; [|apply IH].
    intros [->|H]%elem_of_cons; [|exact (IH _ _ _ H)].
    apply match_here_sound in E as [E _]. exact (key_here_text _ _ _ E).
Qed.

End IssueKeyFacts.

(** ** Build resolution *)

Lemma next_succeeded_none l :
  Forall other_build l -> next_succeeded l = Ok JNull.
Proof.
  induction 1 as [|b l [Ho Hs] _ IH]; [reflexivity|].
  destruct b; try discriminate. simpl in *.
  destruct (assoc "result" kvs); [now rewrite Hs|exact IH].
Qed.

Lemma next_succeeded_first pre b post :
  Forall other_build pre -> is_succeeded b = true ->
  next_succeeded (pre ++ b :: post) = Ok b.
Proof.
  intros Hpre Hb. induction Hpre as [|x l [Ho Hs] _ IH].
  - destruct b; try discriminate. simpl in *.
    destruct (assoc "result" kvs); [now rewrite Hb|discriminate].
  - destruct x; try discriminate. simpl in *.
    destruct (assoc "result" kvs); [now rewrite Hs|exact IH].
Qed.

Lemma succeeded_truthy b : is_succeeded b = true -> truthy b = true.
Proof.
  destruct b; try discriminate. destruct kvs; [discriminate|reflexivity].
Qed.

Ltac step_prog :=
  unfold lift, print, write; unfold bind, emit, ret, raise, sys_exit, http_request,
    subprocess_run, open_for_writing, strftime_now, catch_key; cbn beta iota.

(** C2. Given the JSON body of the build-list answer: the resolver returns
    None when the count is zero or absent, when the list of builds is
    empty, when no build has result "succeeded", and when the first
    succeeded build has no source version or an empty one; otherwise it
    returns the source version of the first succeeded build. *)
Theorem get_azure_build_commit_selects
    (w : world) (org project definition_id branch build_number pat : json)
    (t : trace) (kvs : list (string * json))
    (Hbody : azure_body w org project definition_id branch build_number pat t (JObj kvs)) :
  let returned :=
    fst (get_azure_build_commit w org project definition_id branch build_number pat t) in
  let count := match assoc "count" kvs with Some c => c | None => JInt 0 end in
  (eq_zero count = true -> returned = Ret JNull)
  /\ (forall entries, assoc "value" kvs = Some (JArr entries) ->
        (entries = [] -> returned = Ret JNull)
        /\ (Forall other_build entries -> returned = Ret JNull)
        /\ (forall pre b post,
              entries = pre ++ b :: post -> Forall other_build pre ->
              is_succeeded b = true ->
              (field "sourceVersion" b = None
               \/ field "sourceVersion" b = Some (JStr "")
               \/ exists v, field "sourceVersion" b = Some v /\ truthy v = false) ->
              returned = Ret JNull)
        /\ (forall pre b post v,
              eq_zero count = false ->
              entries = pre ++ b :: post -> Forall other_build pre ->
              is_succeeded b = true ->
              field "sourceVersion" b = Some v -> truthy v = true ->
              returned = Ret v)).
Proof.
  unfold azure_body in Hbody. intros returned count. subst returned.
  unfold get_azure_build_commit. step_prog. rewrite Hbody. cbn [py_get].
  fold count. step_prog. cbn [py_getitem]. split.
  { intros ->. reflexivity. }
  intros entries Hvalue. rewrite Hvalue. cbn [py_iter].
  assert (Hfirst : forall pre b post, entries = pre ++ b :: post ->
    Forall other_build pre -> is_succeeded b = true ->
    next_succeeded entries = Ok b).
  { intros pre b post -> Hpre Hb. now apply next_succeeded_first. }
  repeat split.
  - intros ->. destruct (eq_zero count); reflexivity.
  - intros H. destruct (eq_zero count); [reflexivity|].
    now rewrite (next_succeeded_none _ H).
  - intros pre b post He Hpre Hb Hsv.
    destruct (eq_zero count); [reflexivity|].
    rewrite (Hfirst _ _ _ He Hpre Hb). cbn beta iota.
    rewrite (succeeded_truthy _ Hb). cbn [negb].
    destruct b as [| | | | | |bk]; try discriminate. cbn [py_get field] in *.
    destruct Hsv as [->|[->|(v & -> & Hv)]]; try reflexivity.
    now rewrite Hv.
  - intros pre b post v Hc He Hpre Hb Hsv Hv. rewrite Hc.
    rewrite (Hfirst _ _ _ He Hpre Hb). cbn beta iota.
    rewrite (succeeded_truthy _ Hb). cbn [negb].
    destruct b as [| | | | | |bk]; try discriminate. cbn [py_get field] in *.
    rewrite Hsv, Hv. reflexivity.
Qed.

(** ** Events added by a computation *)

Section Adds.
Context (P : event -> Prop).

Lemma adds_ret {A} (a : A) : adds P (ret a).
Proof. intros t; exists []; simpl; rewrite app_nil_r; auto. Qed.

Lemma adds_raise {A} e : adds P (@raise A e).
Proof. intros t; exists []; simpl; rewrite app_nil_r; auto. Qed.

Lemma adds_exit {A} c : adds P (@sys_exit A c).
Proof. intros t; exists []; simpl; rewrite app_nil_r; auto. Qed.

Lemma adds_lift {A} (r : result A) : adds P (lift r).
Proof. destruct r; [apply adds_ret|apply adds_raise]. Qed.

Lemma adds_emit e : P e -> adds P (emit e).
Proof. intros H t; exists [e]; simpl; auto. Qed.

Lemma adds_print d : P (Print d) -> adds P (print d).
Proof. exact (adds_emit (Print d)). Qed.

Lemma adds_bind {A B} (m : M A) (f : A -> M B) :
  adds P m -> (forall a, adds P (f a)) -> adds P (bind m f).
Proof.
  intros Hm Hf t. destruct (Hm t) as (d & E & F). unfold bind.
  destruct (m t) as [[a|e|c] t']; simpl in E; subst t';
    [|solve [exists d; auto]..].
  destruct (Hf a (t ++ d)) as (d' & E' & F').
  exists (d ++ d'). rewrite E', app_assoc. split; [reflexivity|].
  apply Forall_app; auto.
Qed.

Lemma adds_catch_key {A} (m : M A) (h : string -> M A) :
  adds P m -> (forall k, adds P (h k)) -> adds P (catch_key m h).
Proof.
  intros Hm Hh t. destruct (Hm t) as (d & E & F). unfold catch_key.
  destruct (m t) as [[a|[k| | |]|c] t']; simpl in E; subst t';
    try solve [exists d; auto].
  destruct (Hh k (t ++ d)) as (d' & E' & F').
  exists (d ++ d'). rewrite E', app_assoc. split; [reflexivity|].
  apply Forall_app; auto.
Qed.

Lemma adds_for_each {A S} (l : list A) (body : A -> S -> M S) :
  (forall x s, x ∈ l -> adds P (body x s)) -> forall s, adds P (for_each l body s).
Proof.
  induction l as [|x l IH]; intros H s; [apply adds_ret|].
  cbn [for_each]. apply adds_bind.
  - apply H. left.
  - intros s'. apply IH. intros y s0 Hy. apply H. now right.
Qed.

Lemma adds_http w url params pat :
  P (HttpGet url params pat) -> adds P (http_request w url params pat).
Proof. intros H t; exists [HttpGet url params pat]; simpl; auto. Qed.

Lemma adds_process w cmd :
  P (RunProcess cmd) -> adds P (subprocess_run w cmd).
Proof. intros H t; exists [RunProcess cmd]; simpl; auto. Qed.

Lemma adds_open w path :
  P (FileOpen path) -> adds P (open_for_writing w path).
Proof. intros H t; exists [FileOpen path]; simpl; auto. Qed.

Lemma adds_now w : adds P (strftime_now w).
Proof. intros t; exists []; simpl; rewrite app_nil_r; auto. Qed.

Lemma adds_write path data :
  P (FileWrite path data) -> adds P (write path data).
Proof. exact (adds_emit (FileWrite path data)). Qed.
End Adds.

Lemma adds_weaken {A} (P Q : event -> Prop) (m : M A) :
  (forall e, P e -> Q e) -> adds P m -> adds Q m.
Proof.
  intros H Hm t. destruct (Hm t) as (d & E & F). exists d. split; [exact E|].
  eapply Forall_impl; eauto.
Qed.

(** Decompose a computation into its primitives; what remains are the side
    conditions on single events. *)
Ltac adds_step :=
  match goal with
  | |- adds _ (bind _ _) => apply adds_bind; [|intros ?]
  | |- adds _ (ret _) => apply adds_ret
  | |- adds _ (raise _) => apply adds_raise
  | |- adds _ (sys_exit _) => apply adds_exit
  | |- adds _ (lift _) => apply adds_lift
  | |- adds _ (print _) => apply adds_print
  | |- adds _ (write _ _) => apply adds_write
  | |- adds _ (emit _) => apply adds_emit
  | |- adds _ (http_request _ _ _ _) => apply adds_http
  | |- adds _ (subprocess_run _ _) => apply adds_process
  | |- adds _ (open_for_writing _ _) => apply adds_open
  | |- adds _ (strftime_now _) => apply adds_now
  | |- adds _ (catch_key _ _) => apply adds_catch_key; [|intros ?]
  | |- adds _ (for_each _ _ _) => apply adds_for_each; intros ? ? ?
  | |- adds _ (match ?x with _ => _ end) => destruct x
  | |- adds _ (if ?x then _ else _) => destruct x
  | |- adds _ (let _ := _ in _) => cbv zeta
  end.

Ltac adds_auto := repeat adds_step.

Ltac event_ok := cbv; intuition (auto; congruence).

Lemma get_azure_build_commit_adds w org project definition_id branch build_number pat :
  adds resolver_event
    (get_azure_build_commit w org project definition_id branch build_number pat).
Proof. unfold get_azure_build_commit. adds_auto; event_ok. Qed.

Ltac split_match :=
  match goal with
  | |- context [match ?x with _ => _ end] =>
      lazymatch x with
      | context [match _ with _ => _ end] => fail
      | _ => destruct x eqn:?
      end
  end.

Ltac trace_eq := cbn [snd fst]; rewrite <- ?app_assoc; cbn [app]; reflexivity.

(** The resolver reports a resolved commit exactly when it returns one. *)
Lemma get_azure_build_commit_resolved w org project definition_id branch build_number pat t :
  let r := get_azure_build_commit w org project definition_id branch build_number pat t in
  exists d, snd r = t ++ d
    /\ resolved d = match fst r with
                    | Ret v => if truthy v then 1 else 0
                    | _ => 0
                    end.
Proof.
  unfold get_azure_build_commit. step_prog.
  repeat (cbn [fst snd truthy]; split_match; step_prog);
    cbn [fst snd truthy]; try solve [cbn [negb] in *; congruence];
    (eexists; split; [trace_eq|]);
    repeat match goal with
           | H : negb (truthy ?v) = false |- _ =>
               apply negb_false_iff in H; rewrite H
           end;
    reflexivity.
Qed.

(** ** The commit range fetcher *)

Lemma collect_commit_ok c acc t :
  entry_ok c = true ->
  fst (collect_commit c acc t)
  = Ret (if has_all_fields c then acc ++ [commit_info_of c] else acc).
Proof.
  unfold entry_ok, has_all_fields, commit_info_of, four_fields, collect_commit.
  destruct c as [| | | | | |kvs]; try discriminate. cbn [is_obj field andb].
  step_prog. cbn [py_getitem].
  destruct (assoc "sha" kvs) as [[| | | |sha| |]|]; try discriminate; [|reflexivity].
  cbn [str_or_absent slice7]. cbn beta iota.
  destruct (assoc "commit" kvs) as [[| | | | | |ck]|]; try discriminate; [|reflexivity].
  cbn [is_obj andb field py_getitem]. cbn beta iota.
  destruct (assoc "message" ck) as [[| | | |m| |]|]; try discriminate;
    cbn [str_or_absent andb]; cbn beta iota.
  - destruct (assoc "author" ck) as [[| | | | | |ak]|]; try discriminate; [|reflexivity].
    cbn [py_getitem field]. cbn beta iota.
    destruct (assoc "name" ak); [|reflexivity]. cbn beta iota.
    destruct (assoc "date" ak); reflexivity.
  - destruct (assoc "author" ck) as [[| | | | | |ak]|]; try discriminate; reflexivity.
Qed.

Lemma for_each_collect_ok entries : forall acc t,
  Forall (fun c => entry_ok c = true) entries ->
  fst (for_each entries collect_commit acc t)
  = Ret (acc ++ map commit_info_of (List.filter has_all_fields entries)).
Proof.
  induction entries as [|c entries IH]; intros acc t H.
  - simpl. now rewrite app_nil_r.
  - inversion H as [|? ? Hc Hr]; subst. cbn [for_each]. unfold bind.
    pose proof (collect_commit_ok c acc t Hc) as E.
    destruct (collect_commit c acc t) as [o t']. cbn [fst] in E. subst o.
    rewrite IH by assumption. cbn [List.filter].
    destruct (has_all_fields c); [|reflexivity].
    cbn [map]. now rewrite <- app_assoc.
Qed.

(** C5. The fetcher returns the comparison URL whenever it returns, and in
    each failure case (non-zero exit status, timeout, missing executable,
    output that is not JSON) it returns it with an empty commit list. *)
Theorem get_github_commits_between_url
    (w : world) (repo sha1 sha2 : string) (t : trace) :
  let url := "https://github.com/" +:+ repo +:+ "/compare/" +:+ sha1 +:+ "..." +:+ sha2 in
  let r := get_github_commits_between w (JStr repo) (JStr sha1) (JStr sha2) t in
  (forall commits u, fst r = Ret (commits, u) -> u = url)
  /\ (gh_answer w repo sha1 sha2 t = ProcTimeout -> fst r = Ret ([], url))
  /\ (gh_answer w repo sha1 sha2 t = ProcNotFound -> fst r = Ret ([], url))
  /\ (forall returncode stdout stderr,
        gh_answer w repo sha1 sha2 t = ProcDone returncode stdout stderr ->
        returncode <> 0%Z -> fst r = Ret ([], url))
  /\ (forall stderr,
        gh_answer w repo sha1 sha2 t = ProcDone 0 None stderr -> fst r = Ret ([], url)).
Proof.
  intros url r. subst url r.
  unfold gh_answer, get_github_commits_between, compare_url_of. cbn [fmt].
  step_prog. cbn [slice7]. cbn beta iota.
  repeat split.
  - intros commits u.
    repeat (cbn [fst snd]; split_match; step_prog); cbn [fst];
      intros [=]; subst; reflexivity.
  - intros ->. reflexivity.
  - intros ->. reflexivity.
  - intros rc out err -> Hrc.
    destruct (Z.eqb_spec rc 0) as [?|_]; [contradiction|reflexivity].
  - intros err ->. reflexivity.
Qed.

Lemma commit_info_of_kept c :
  entry_ok c = true -> has_all_fields c = true ->
  exists sha message name date,
    four_fields c = Some (JStr sha, JStr message, name, date)
    /\ commit_info_of c
       = JObj [("sha", JStr (str_take 7 sha)); ("message", JStr message);
               ("author", name); ("date", date)].
Proof.
  unfold entry_ok, has_all_fields, commit_info_of, four_fields.
  destruct c as [| | | | | |kvs]; try discriminate. cbn [is_obj field andb].
  destruct (assoc "sha" kvs) as [[| | | |sha| |]|]; try discriminate.
  destruct (assoc "commit" kvs) as [[| | | | | |ck]|]; try discriminate.
  cbn [is_obj field andb str_or_absent].
  destruct (assoc "message" ck) as [[| | | |m| |]|]; try discriminate.
  destruct (assoc "author" ck) as [[| | | | | |ak]|]; try discriminate.
  cbn [field].
  destruct (assoc "name" ak) as [name|]; [|discriminate].
  destruct (assoc "date" ak) as [date|]; [|discriminate].
  intros _ _. exists sha, m, name, date. split; reflexivity.
Qed.

(** C6. On a JSON answer whose [commits] entries are shaped as the endpoint
    documents them, the fetcher returns the records of exactly the entries
    that have the four fields, in the order of the answer. *)
Theorem get_github_commits_between_keeps
    (w : world) (repo sha1 sha2 : string) (t : trace)
    (kvs : list (string * json)) (entries : list json) (stderr : string)
    (Hanswer : gh_answer w repo sha1 sha2 t = ProcDone 0 (Some (JObj kvs)) stderr)
    (Hcommits : match assoc "commits" kvs with Some c => c | None => JArr [] end
                = JArr entries)
    (Hshape : Forall (fun c => entry_ok c = true) entries) :
  fst (get_github_commits_between w (JStr repo) (JStr sha1) (JStr sha2) t)
  = Ret (map commit_info_of (List.filter has_all_fields entries),
         "https://github.com/" +:+ repo +:+ "/compare/" +:+ sha1 +:+ "..." +:+ sha2)
  /\ (forall c, c ∈ List.filter has_all_fields entries ->
        exists sha message name date,
          four_fields c = Some (JStr sha, JStr message, name, date)
          /\ commit_info_of c
             = JObj [("sha", JStr (str_take 7 sha)); ("message", JStr message);
                     ("author", name); ("date", date)]).
Proof.
  split.
  - unfold gh_answer, compare_url_of in Hanswer. cbn [fmt] in Hanswer.
    unfold get_github_commits_between, compare_url_of. cbn [fmt].
    step_prog. cbn [slice7]. cbn beta iota. rewrite Hanswer. cbn [Z.eqb negb].
    cbn [py_get]. cbn beta iota. rewrite Hcommits. cbn [py_len py_iter]. cbn beta iota.
    match goal with
    | |- context [for_each entries collect_commit [] ?t0] =>
        pose proof (for_each_collect_ok entries [] t0 Hshape) as E;
        destruct (for_each entries collect_commit [] t0) as [o t']
    end.
    cbn [fst] in E. subst o. reflexivity.
  - intros c Hc. apply list_elem_of_In, filter_In in Hc as [Hin Hall].
    apply commit_info_of_kept; [|exact Hall].
    rewrite Forall_forall in Hshape. apply Hshape. now apply list_elem_of_In.
Qed.

(** ** Commit records *)

Lemma str_take_length n s : String.length (str_take n s) <= n.
Proof.
  revert s; induction n as [|n IH]; intros [|c s]; simpl; try lia.
  specialize (IH s). lia.
Qed.

Lemma slice7_len v short :
  slice7 v = Ok short -> exists n, py_len short = Ok n /\ n <= 7.
Proof.
  destruct v; try discriminate; cbn [slice7]; intros E.
  - assert (short = JStr (str_take 7 s)) as -> by congruence.
    cbn [py_len]. eexists; split; [reflexivity|apply str_take_length].
  - assert (short = JArr (firstn 7 l)) as -> by congruence.
    cbn [py_len]. eexists; split; [reflexivity|]. rewrite length_firstn. lia.
Qed.

Lemma collect_commit_records c acc t acc' t' :
  Forall is_commit_record acc ->
  collect_commit c acc t = (Ret acc', t') ->
  Forall is_commit_record acc'.
Proof.
  intros Hacc. unfold collect_commit. step_prog.
  destruct (py_getitem c "sha") as [sha|[]] eqn:E1; cbn beta iota;
    try (intros [= <- _]; exact Hacc); try discriminate.
  destruct (slice7 sha) as [short|[]] eqn:E2; cbn beta iota;
    try (intros [= <- _]; exact Hacc); try discriminate.
  destruct (py_getitem c "commit") as [commit|[]]; cbn beta iota;
    try (intros [= <- _]; exact Hacc); try discriminate.
  destruct (py_getitem commit "message") as [message|[]]; cbn beta iota;
    try (intros [= <- _]; exact Hacc); try discriminate.
  destruct (py_getitem commit "author") as [author|[]]; cbn beta iota;
    try (intros [= <- _]; exact Hacc); try discriminate.
  destruct (py_getitem author "name") as [name|[]]; cbn beta iota;
    try (intros [= <- _]; exact Hacc); try discriminate.
  destruct (py_getitem author "date") as [date|[]]; cbn beta iota;
    try (intros [= <- _]; exact Hacc); try discriminate.
  destruct message as [| | | |m| |]; cbn [split_first_line]; cbn beta iota;
    try discriminate.
  intros [= <- _]. apply Forall_app. split; [exact Hacc|].
  constructor; [|constructor].
  destruct (slice7_len _ _ E2) as (n & Hn & Hle).
  exists short, m, name, date, n. auto.
Qed.

Lemma for_each_collect_records entries : forall acc t acc' t',
  Forall is_commit_record acc ->
  for_each entries collect_commit acc t = (Ret acc', t') ->
  Forall is_commit_record acc'.
Proof.
  induction entries as [|c entries IH]; intros acc t acc' t' Hacc.
  - intros [= <- _]. exact Hacc.
  - cbn [for_each]. unfold bind.
    destruct (collect_commit c acc t) as [[a|e|k] t1] eqn:E; try discriminate.
    intros H. eapply IH; [|exact H]. eapply collect_commit_records; eauto.
Qed.

Lemma get_github_commits_between_records w repo sha1 sha2 t commit_list url t' :
  get_github_commits_between w repo sha1 sha2 t = (Ret (commit_list, url), t') ->
  Forall is_commit_record commit_list.
Proof.
  unfold get_github_commits_between. step_prog.
  repeat (cbn [fst snd]; split_match; step_prog);
    try discriminate; try (intros [= <- _ _]; constructor).
  intros [= <- _ _].
  eapply for_each_collect_records; [|eassumption]. constructor.
Qed.

Lemma scan_commit_message kvs message refs t :
  assoc "message" kvs = Some (JStr message) ->
  scan_commit (JObj kvs) refs t = (Ret (refs ∪ message_keys message), t).
Proof.
  intros H. unfold scan_commit. step_prog. cbn [py_getitem]. now rewrite H.
Qed.

Lemma scan_commit_missing kvs refs t :
  assoc "message" kvs = None ->
  scan_commit (JObj kvs) refs t = (Ret refs, t ++ [Print DSkipMissingMessage]).
Proof.
  intros H. unfold scan_commit. step_prog. cbn [py_getitem]. now rewrite H.
Qed.

Lemma adds_silent {A} (P : event -> Prop) (m : M A) :
  (forall t, snd (m t) = t) -> adds P m.
Proof. intros H t. exists []. rewrite H, app_nil_r. auto. Qed.

Lemma str_app_assoc (a b c : string) : (a +:+ b) +:+ c = a +:+ b +:+ c.
Proof.
  induction a as [|x a IH]; [reflexivity|].
  now rewrite !app_cons_string, IH.
Qed.

Lemma write_commit_record w repo path sha message author date t :
  write_commit w repo path
    (JObj [("sha", sha); ("message", JStr message); ("author", author); ("date", date)])
    tt t
  = (Ret tt, t ++ [FileWrite path (commit_line w repo sha author date message)]).
Proof.
  unfold write_commit, commit_line. step_prog. cbn.
  now rewrite !str_app_assoc.
Qed.

(** C10. Every record returned by the fetcher has the four keys and a
    [sha] of length at most seven, so neither the reference extractor nor
    the report writer takes its missing-key branch on such a list. *)
Theorem fetched_records_complete
    (w : world) (repo sha1 sha2 : json) (t : trace)
    (commit_list : list json) (url : string) (t' : trace)
    (Hfetch : get_github_commits_between w repo sha1 sha2 t = (Ret (commit_list, url), t')) :
  Forall (fun c =>
            (forall k, k ∈ ["sha"; "message"; "author"; "date"] -> is_Some (field k c))
            /\ exists sha n, field "sha" c = Some sha /\ py_len sha = Ok n /\ n <= 7)
         commit_list
  /\ (forall jira_base_url,
        adds (fun e => is_skip e = false) (analyze_commits commit_list jira_base_url))
  /\ (forall refs_links repo' compare_url output_file,
        adds (fun e => is_skip e = false)
          (export_to_markdown w commit_list refs_links repo' compare_url output_file)).
Proof.
  apply get_github_commits_between_records in Hfetch.
  rewrite Forall_forall in Hfetch. repeat split.
  - apply Forall_forall. intros c Hc.
    destruct (Hfetch c Hc) as (sha & m & a & d & n & -> & Hn & Hle). split.
    + intros k Hk. cbn [field].
      repeat (apply elem_of_cons in Hk as [->|Hk]; [cbn; eauto|]).
      now apply elem_of_nil in Hk.
    + exists sha, n. auto.
  - intros base. unfold analyze_commits. adds_auto; try reflexivity.
    match goal with Hin : ?x ∈ _ |- adds _ (scan_commit ?x _) =>
      destruct (Hfetch _ Hin) as (sha & msg & author & date & n & -> & _) end.
    apply adds_silent. intros t0. now rewrite (scan_commit_message _ msg).
  - intros refs repo' u path. unfold export_to_markdown. adds_auto; try reflexivity.
    match goal with Hin : ?x ∈ _ |- adds _ (write_commit _ _ _ ?x ?u) =>
      destruct (Hfetch _ Hin) as (sha & msg & author & date & n & -> & _);
      destruct u end.
    intros t0. rewrite write_commit_record. eexists; split; [reflexivity|].
    repeat constructor.
Qed.

(** ** The report writer *)

Lemma adds_extends {A} (m : M A) (t : trace) :
  adds (fun _ => True) m -> exists rest, snd (m t) = t ++ rest.
Proof. intros H. destruct (H t) as (d & E & _). eauto. Qed.

Lemma write_example_commit w path t :
  write_commit w (JStr "org/repo") path example_commit tt t
  = (Ret tt, t ++ [FileWrite path example_line]).
Proof. vm_compute. reflexivity. Qed.

(** C7. With repository "org/repo", the commit section of the report for
    the single record of the example is the one line whose short sha links
    to the commit page and whose summary is the first line of the message
    with "#42" turned into a link to pull request 42. *)
Theorem export_to_markdown_example
    (w : world) (t : trace) (refs_links : list string) (compare_url output_file : string)
    (Hopen : open_write w t output_file = true) :
  exists rest,
    snd (export_to_markdown w [example_commit] refs_links (JStr "org/repo")
           compare_url output_file t)
    = t ++ [ FileOpen output_file;
             FileWrite output_file
               ("# Commit Report - " +:+ now w (t ++ [FileOpen output_file]) +:+ nl +:+ nl);
             FileWrite output_file
               ("**GitHub Compare URL:** [" +:+ compare_url +:+ "](" +:+ compare_url
                  +:+ ")" +:+ nl +:+ nl);
             FileWrite output_file ("## GitHub Commits" +:+ nl +:+ nl);
             FileWrite output_file example_line;
             FileWrite output_file (nl +:+ "## Ticket References" +:+ nl +:+ nl) ]
        ++ rest.
Proof.
  unfold export_to_markdown.
  unfold bind at 1, open_for_writing at 1. rewrite Hopen. cbn [negb].
  unfold bind at 1, strftime_now at 1. cbn beta iota.
  do 3 (unfold bind at 1, write at 1, emit at 1; cbn beta iota).
  unfold bind at 1. cbn [for_each]. unfold bind at 1.
  rewrite write_example_commit. unfold ret at 1. cbn beta iota.
  unfold bind at 1, write at 1, emit at 1; cbn beta iota.
  match goal with
  | |- context [snd (?m ?t0)] =>
      destruct (adds_extends m t0) as (rest & E)
  end.
  - adds_auto; exact I.
  - exists rest. rewrite E. rewrite <- !app_assoc. reflexivity.
Qed.

(** ** The reference extractor *)

Section StringOrder.

Lemma compare_lt_trans a b c :
  String.compare a b = Lt -> String.compare b c = Lt -> String.compare a c = Lt.
Proof.
  intros H1 H2. apply String_as_OT.cmp_lt.
  eapply String_as_OT.lt_trans; apply String_as_OT.cmp_lt; eassumption.
Qed.

Lemma leb_cases a b : String.leb a b = true -> String.compare a b = Lt \/ a = b.
Proof.
  unfold String.leb. destruct (String.compare a b) eqn:E; try discriminate; auto.
  right. now apply String.compare_eq_iff.
Qed.

Lemma leb_of_lt a b : String.compare a b = Lt -> String.leb a b = true.
Proof. unfold String.leb. now intros ->. Qed.

#[local] Instance leb_transitive : Transitive (fun a b : string => String.leb a b : Prop).
Proof.
  intros a b c H1%Is_true_true H2%Is_true_true. apply Is_true_true.
  destruct (leb_cases _ _ H1) as [L1| ->]; [|exact H2].
  destruct (leb_cases _ _ H2) as [L2| ->]; [|exact H1].
  apply leb_of_lt. eapply compare_lt_trans; eassumption.
Qed.

#[local] Instance leb_total_rel : Total (fun a b : string => String.leb a b : Prop).
Proof.
  intros a b. destruct (String.leb_total a b) as [H|H]; [left|right];
    now apply Is_true_true.
Qed.

Lemma sorted_strongly (refs : gset string) :
  StronglySorted (fun a b : string => String.leb a b : Prop) (sorted refs).
Proof. unfold sorted. apply (StronglySorted_merge_sort _). Qed.

Lemma sorted_perm (refs : gset string) : sorted refs ≡ₚ elements refs.
Proof. unfold sorted. apply merge_sort_Permutation. Qed.

Lemma sorted_elem (refs : gset string) k : k ∈ sorted refs <-> k ∈ refs.
Proof. now rewrite sorted_perm, elem_of_elements. Qed.

Lemma sorted_NoDup (refs : gset string) : NoDup (sorted refs).
Proof. rewrite sorted_perm. apply NoDup_elements. Qed.

Lemma strict_of_NoDup (l : list string) :
  StronglySorted (fun a b : string => String.leb a b : Prop) l -> NoDup l ->
  StronglySorted str_lt l.
Proof.
  induction 1 as [|x l Hs IH Hx]; intros Hnd; [constructor|].
  apply NoDup_cons in Hnd as [Hnot Hnd]. constructor; [auto|].
  rewrite Forall_forall in Hx |- *. intros y Hy.
  specialize (Hx y Hy). apply Is_true_true in Hx.
  destruct (leb_cases _ _ Hx) as [L| ->]; [|contradiction].
  unfold str_lt, String.ltb. now rewrite L.
Qed.

Lemma sorted_strict (refs : gset string) : StronglySorted str_lt (sorted refs).
Proof. apply strict_of_NoDup; [apply sorted_strongly|apply sorted_NoDup]. Qed.
End StringOrder.

Lemma scan_commit_keys c refs t :
  scannable c = true -> fst (scan_commit c refs t) = Ret (refs ∪ keys_of c).
Proof.
  unfold scannable, keys_of. destruct c as [| | | | | |kvs]; try discriminate.
  cbn [is_obj field andb].
  destruct (assoc "message" kvs) as [[| | | |m| |]|] eqn:E; try discriminate; intros _.
  - now rewrite (scan_commit_message _ m).
  - rewrite scan_commit_missing by assumption. cbn [fst].
    now rewrite union_empty_r_L.
Qed.

Lemma for_each_scan commit_list : forall refs t,
  Forall (fun c => scannable c = true) commit_list ->
  fst (for_each commit_list scan_commit refs t)
  = Ret (refs ∪ ⋃ (keys_of <$> commit_list)).
Proof.
  induction commit_list as [|c l IH]; intros refs t H.
  - cbn. now rewrite union_empty_r_L.
  - inversion H as [|? ? Hc Hl]; subst. cbn [for_each]. unfold bind.
    pose proof (scan_commit_keys c refs t Hc) as E.
    destruct (scan_commit c refs t) as [o t1]. cbn [fst] in E. subst o.
    rewrite IH by assumption. rewrite fmap_cons, union_list_cons.
    now rewrite (assoc_L (∪)).
Qed.

Lemma for_each_print_ret {A} (l : list A) (f : A -> diag) t :
  fst (for_each l (fun x _ => print (f x)) tt t) = Ret tt.
Proof.
  revert t; induction l as [|x l IH]; intros t; [reflexivity|].
  cbn [for_each]. unfold bind, print, emit. apply IH.
Qed.

(** The extractor returns the links of the sorted set of keys. *)
Lemma analyze_commits_links commit_list jira_base_url t :
  Forall (fun c => scannable c = true) commit_list ->
  fst (analyze_commits commit_list jira_base_url t)
  = Ret (map (fun ref => jira_base_url +:+ ref) (sorted (⋃ (keys_of <$> commit_list)))).
Proof.
  intros H. unfold analyze_commits. unfold bind at 1.
  pose proof (for_each_scan commit_list ∅ t H) as E.
  destruct (for_each commit_list scan_commit ∅ t) as [o t1]. cbn [fst] in E. subst o.
  rewrite union_empty_l_L.
  unfold bind at 1, print at 1, emit at 1. unfold bind at 1.
  destruct (sorted _) as [|k keys] eqn:Ek.
  - reflexivity.
  - match goal with
    | |- context [for_each ?l ?b tt ?t0] =>
        pose proof (for_each_print_ret l (fun ref => DRef ref (jira_base_url +:+ ref)) t0) as E;
        destruct (for_each l b tt t0) as [o t2]
    end.
    cbn [fst] in E. subst o. reflexivity.
Qed.

Lemma keys_of_elem c k :
  k ∈ keys_of c <->
  exists message found,
    field "message" c = Some (JStr message)
    /\ found ∈ Re.findall issue_pattern message /\ k = str_upper found.
Proof.
  unfold keys_of, message_keys. split.
  - destruct (field "message" c) as [[| | | |m| |]|]; try (intros ?%elem_of_empty; tauto).
    rewrite elem_of_list_to_set, list_elem_of_fmap. intros (f & -> & Hf). eauto.
  - intros (m & f & -> & Hf & ->).
    rewrite elem_of_list_to_set, list_elem_of_fmap. eauto.
Qed.

Lemma refs_elem commit_list k :
  k ∈ ⋃ (keys_of <$> commit_list) <->
  exists c message found,
    c ∈ commit_list /\ field "message" c = Some (JStr message)
    /\ found ∈ Re.findall issue_pattern message /\ k = str_upper found.
Proof.
  rewrite elem_of_union_list. split.
  - intros (X & HX & Hk). apply list_elem_of_fmap in HX as (c & -> & Hc).
    apply keys_of_elem in Hk as (m & f & ? & ? & ?). eauto 8.
  - intros (c & m & f & Hc & Hm & Hf & ->). exists (keys_of c). split.
    + apply list_elem_of_fmap. eauto.
    + apply keys_of_elem. eauto.
Qed.

Lemma refs_same_elements l1 l2 :
  (forall c, c ∈ l1 <-> c ∈ l2) -> ⋃ (keys_of <$> l1) = ⋃ (keys_of <$> l2).
Proof.
  intros H. apply set_eq. intros k. rewrite !refs_elem.
  split; intros (c & m & f & Hc & ?); exists c, m, f; (split; [now apply H|assumption]).
Qed.

(** ** Upper-casing *)

Lemma str_upper_app a b : str_upper (a +:+ b) = str_upper a +:+ str_upper b.
Proof.
  induction a as [|c a IH]; [reflexivity|].
  rewrite app_cons_string. cbn [str_upper]. now rewrite IH, app_cons_string.
Qed.

Lemma str_upper_length s : String.length (str_upper s) = String.length s.
Proof. induction s as [|c s IH]; simpl; congruence. Qed.

Lemma upper_alpha c : Chars.is_alpha c = true -> Chars.is_upper (Chars.upper c) = true.
Proof. destruct c as [[] [] [] [] [] [] [] []]; vm_compute; intros; congruence. Qed.

Lemma upper_digit c : Chars.is_digit c = true -> Chars.upper c = c.
Proof. destruct c as [[] [] [] [] [] [] [] []]; vm_compute; intros; congruence. Qed.

Lemma upper_idem c : Chars.upper (Chars.upper c) = Chars.upper c.
Proof. destruct c as [[] [] [] [] [] [] [] []]; reflexivity. Qed.

Lemma str_upper_idem s : str_upper (str_upper s) = str_upper s.
Proof. induction s as [|c s IH]; simpl; [reflexivity|]. now rewrite upper_idem, IH. Qed.

Lemma str_upper_letters s :
  str_all Chars.is_alpha s = true -> str_all Chars.is_upper (str_upper s) = true.
Proof.
  induction s as [|c s IH]; simpl; [reflexivity|].
  intros [Hc Hs]%andb_true_iff. now rewrite (upper_alpha _ Hc), IH.
Qed.

Lemma str_upper_digits s : str_all Chars.is_digit s = true -> str_upper s = s.
Proof.
  induction s as [|c s IH]; simpl; [reflexivity|].
  intros [Hc Hs]%andb_true_iff. now rewrite (upper_digit _ Hc), IH.
Qed.

Lemma upper_key_of_key m : IssueKey.is_key m -> upper_key (str_upper m).
Proof.
  intros (ls & ds & -> & Hl & Hls & Hd & Hds).
  exists (str_upper ls), ds. rewrite str_upper_length. repeat split; try tauto.
  - rewrite str_upper_app.
    change ("-" +:+ ds) with (String "-" ds). cbn [str_upper].
    now rewrite (str_upper_digits _ Hds).
  - now apply str_upper_letters.
Qed.

(** C4. For records whose messages are ASCII text, the extractor returns
    one link [jira_base_url ++ KEY] per key, where the keys are the
    upper-cased matches of all messages, so that each key is 3 to 5
    upper-case letters, a hyphen and 2 to 6 digits whatever the case of the
    match; each key occurs once, in strictly ascending lexicographic order;
    the result only depends on which records occur in the list, not on
    their order or multiplicity; the two messages of the example yield the
    single link for ABC-123, and so do two messages that spell the key in
    lower and in upper case. *)
Theorem analyze_commits_unique_sorted
    (commit_list : list json) (jira_base_url : string) (t : trace)
    (Hrecords : Forall (fun c => scannable c = true) commit_list)
    (Hascii : Forall ascii_message commit_list) :
  (exists keys,
     fst (analyze_commits commit_list jira_base_url t)
     = Ret (map (fun key => jira_base_url +:+ key) keys)
     /\ (forall key, key ∈ keys <->
           exists c message found,
             c ∈ commit_list /\ field "message" c = Some (JStr message)
             /\ found ∈ Re.findall issue_pattern message /\ key = str_upper found)
     /\ (forall key, key ∈ keys -> upper_key key)
     /\ NoDup keys
     /\ StronglySorted str_lt keys)
  /\ (forall commit_list' t',
        Forall (fun c => scannable c = true) commit_list' ->
        (forall c, c ∈ commit_list <-> c ∈ commit_list') ->
        fst (analyze_commits commit_list' jira_base_url t')
        = fst (analyze_commits commit_list jira_base_url t))
  /\ fst (analyze_commits (commit_list ++ commit_list) jira_base_url t)
     = fst (analyze_commits commit_list jira_base_url t)
  /\ (forall commit_list', commit_list ≡ₚ commit_list' ->
        fst (analyze_commits commit_list' jira_base_url t)
        = fst (analyze_commits commit_list jira_base_url t))
  /\ fst (analyze_commits [with_message "Fix ABC-123"; with_message "ABC-123 again"]
            jira_base_url t)
     = Ret [jira_base_url +:+ "ABC-123"]
  /\ fst (analyze_commits [with_message "Fix abc-123"; with_message "ABC-123 again"]
            jira_base_url t)
     = Ret [jira_base_url +:+ "ABC-123"].
Proof.
  assert (Hsame : forall commit_list' t',
    Forall (fun c => scannable c = true) commit_list' ->
    (forall c, c ∈ commit_list <-> c ∈ commit_list') ->
    fst (analyze_commits commit_list' jira_base_url t')
    = fst (analyze_commits commit_list jira_base_url t)).
  { intros l' t' Hl' Hiff. rewrite !analyze_commits_links by assumption.
    now rewrite (refs_same_elements _ _ Hiff). }
  split; [|split; [exact Hsame|split; [|split; [|split]]]].
  - exists (sorted (⋃ (keys_of <$> commit_list))). split; [|split; [|split; [|split]]].
    + now apply analyze_commits_links.
    + intros key. now rewrite sorted_elem, refs_elem.
    + intros key Hkey.
      apply sorted_elem, refs_elem in Hkey as (c & m & found & _ & _ & Hfound & ->).
      apply upper_key_of_key. exact (IssueKeyFacts.findall_from_keys _ _ _ _ Hfound).
    + apply sorted_NoDup.
    + apply sorted_strict.
  - apply Hsame.
    + apply Forall_app; split; assumption.
    + intros c. rewrite elem_of_app. tauto.
  - intros l' Hperm. apply Hsame.
    + now rewrite <- Hperm.
    + intros c. now rewrite Hperm.
  - rewrite analyze_commits_links by (repeat constructor).
    assert (sorted (⋃ (keys_of <$> [with_message "Fix ABC-123"; with_message "ABC-123 again"]))
            = ["ABC-123"]) as -> by (vm_compute; reflexivity).
    reflexivity.
  - rewrite analyze_commits_links by (repeat constructor).
    assert (sorted (⋃ (keys_of <$> [with_message "Fix abc-123"; with_message "ABC-123 again"]))
            = ["ABC-123"]) as -> by (vm_compute; reflexivity).
    reflexivity.
Qed.

(** ** The orchestrator *)

Lemma choose_builds_adds g : adds plain (choose_builds g).
Proof. unfold choose_builds. adds_auto; event_ok. Qed.

Lemma warn_formats_adds build1 build2 : adds plain (warn_formats build1 build2).
Proof. unfold warn_formats. adds_auto; event_ok. Qed.

Lemma get_github_commits_between_adds w repo sha1 sha2 :
  adds (fun e => is_analysis e = false /\ is_file e = false)
    (get_github_commits_between w repo sha1 sha2).
Proof.
  unfold get_github_commits_between. adds_auto; try event_ok.
  unfold collect_commit. adds_auto; event_ok.
Qed.

Lemma analyze_commits_adds commit_list jira_base_url :
  adds (fun _ => True) (analyze_commits commit_list jira_base_url).
Proof.
  unfold analyze_commits. adds_auto; try exact I.
  unfold scan_commit. adds_auto; exact I.
Qed.

Lemma export_to_markdown_adds w commit_list refs_links repo compare_url output_file :
  adds (fun _ => True)
    (export_to_markdown w commit_list refs_links repo compare_url output_file).
Proof.
  unfold export_to_markdown. adds_auto; try exact I.
  unfold write_commit. adds_auto; exact I.
Qed.

Lemma report_adds w g build1 build2 sha1 sha2 :
  adds (fun _ => True) (report w g build1 build2 sha1 sha2).
Proof.
  unfold report. apply adds_bind.
  - eapply adds_weaken; [|apply get_github_commits_between_adds]. auto.
  - intros [commit_list url]. cbn [fst snd]. destruct commit_list.
    + adds_auto; exact I.
    + apply adds_bind; [apply analyze_commits_adds|].
      intros refs. apply export_to_markdown_adds.
Qed.

Lemma resolved_app d1 d2 : resolved (d1 ++ d2) = resolved d1 + resolved d2.
Proof. unfold resolved. now rewrite List.filter_app, length_app. Qed.

Lemma plain_quiet e : plain e -> quiet e.
Proof. destruct e; cbv; intuition congruence. Qed.

Lemma resolver_quiet e : resolver_event e -> quiet e.
Proof. unfold resolver_event, quiet. tauto. Qed.

Lemma get_azure_build_commit_no_exit w org project definition_id branch build_number pat t c :
  fst (get_azure_build_commit w org project definition_id branch build_number pat t)
  <> Exit c.
Proof.
  unfold get_azure_build_commit. step_prog.
  repeat (cbn [fst snd]; split_match; step_prog); cbn [fst]; discriminate.
Qed.

Lemma resolve_turn_spec w g build_num commit_shas t o t' :
  resolve_turn w g build_num commit_shas t = (o, t') ->
  exists d, t' = t ++ d /\ Forall quiet d
    /\ match o with
       | Ret shas => length shas = length commit_shas + resolved d
       | Raise _ => True
       | Exit _ => False
       end.
Proof.
  unfold resolve_turn, bind.
  destruct (get_azure_build_commit_resolved w (ORG g) (PROJECT g) (DEFINITION_ID g)
              (BRANCH g) build_num (AZURE_PAT g) t) as (d & E & Hres).
  destruct (get_azure_build_commit_adds w (ORG g) (PROJECT g) (DEFINITION_ID g)
              (BRANCH g) build_num (AZURE_PAT g) t) as (d' & E' & Hq).
  assert (d' = d) as -> by (rewrite E in E'; now apply app_inv_head in E').
  assert (Hq' : Forall quiet d) by (eapply Forall_impl; [exact Hq|apply resolver_quiet]).
  clear E' Hq.
  pose proof (get_azure_build_commit_no_exit w (ORG g) (PROJECT g) (DEFINITION_ID g)
                (BRANCH g) build_num (AZURE_PAT g) t) as Hnoexit.
  destruct (get_azure_build_commit _ _ _ _ _ _ _ t) as [[sha|e|c] t1];
    cbn [fst snd] in *; subst t1.
  - destruct (truthy sha); intros [= <- <-]; exists d; repeat split; auto.
    + rewrite length_app. cbn [length]. lia.
    + lia.
  - intros [= <- <-]. exists d. auto.
  - now destruct (Hnoexit c).
Qed.

Lemma resolve_shas_spec w g build1 build2 t o t' :
  resolve_shas w g build1 build2 t = (o, t') ->
  exists d, t' = t ++ d /\ Forall quiet d
    /\ match o with
       | Ret shas => length shas = resolved d
       | Raise _ => True
       | Exit _ => False
       end.
Proof.
  unfold resolve_shas. cbn [for_each]. fold (resolve_turn w g build1 []).
  unfold bind at 1.
  destruct (resolve_turn w g build1 [] t) as [o1 t1] eqn:E1.
  apply resolve_turn_spec in E1 as (d1 & -> & Q1 & H1).
  destruct o1 as [s1|e|c]; [|intros [= <- <-]; exists d1; auto|contradiction].
  fold (resolve_turn w g build2 s1). unfold bind at 1.
  destruct (resolve_turn w g build2 s1 (t ++ d1)) as [o2 t2] eqn:E2.
  apply resolve_turn_spec in E2 as (d2 & -> & Q2 & H2).
  destruct o2 as [s2|e|c]; [|intros [= <- <-]|contradiction]; cbn [ret].
  - intros [= <- <-]. exists (d1 ++ d2). rewrite app_assoc.
    repeat split; [apply Forall_app; auto|].
    rewrite resolved_app. cbn [length] in H1. lia.
  - exists (d1 ++ d2). rewrite app_assoc. repeat split. apply Forall_app; auto.
Qed.

Lemma adds_inv {A} (P : event -> Prop) (m : M A) t o t' :
  adds P m -> m t = (o, t') -> exists d, t' = t ++ d /\ Forall P d.
Proof. intros H E. destruct (H t) as (d & Hd & F). rewrite E in Hd. eauto. Qed.

Lemma choose_builds_exit g t c t' : choose_builds g t = (Exit c, t') -> c = 1%Z.
Proof.
  unfold choose_builds. step_prog.
  repeat (cbn [fst snd]; split_match; step_prog); intros [=]; congruence.
Qed.

Lemma warn_formats_no_exit build1 build2 t c t' :
  warn_formats build1 build2 t <> (Exit c, t').
Proof.
  unfold warn_formats. cbn [for_each]. step_prog.
  repeat (cbn [fst snd]; split_match; step_prog); discriminate.
Qed.

Lemma quiet_all_plain d : Forall plain d -> Forall quiet d.
Proof. intros H. eapply Forall_impl; [exact H|apply plain_quiet]. Qed.

(** A run of [main] in which fewer than two builds are reported resolved
    ends with status 1 and launches no process and touches no file. *)
Lemma main_spec w g t o t' :
  main w g t = (o, t') ->
  exists d, t' = t ++ d
    /\ (resolved d < 2 -> exit_code o = 1%Z /\ Forall quiet d).
Proof.
  unfold main. unfold bind at 1.
  destruct (choose_builds g t) as [o1 t1] eqn:E1.
  destruct (adds_inv _ _ _ _ _ (choose_builds_adds g) E1) as (d1 & -> & P1).
  destruct o1 as [[build1 build2]|e|c]; cbn [fst snd].
  2:{ intros [= <- <-]. exists d1. split; [reflexivity|]. intros _.
      split; [reflexivity|now apply quiet_all_plain]. }
  2:{ intros [= <- <-]. exists d1. split; [reflexivity|]. intros _.
      split; [exact (choose_builds_exit _ _ _ _ E1)|now apply quiet_all_plain]. }
  unfold bind at 1.
  destruct (warn_formats build1 build2 (t ++ d1)) as [o2 t2] eqn:E2.
  destruct (adds_inv _ _ _ _ _ (warn_formats_adds build1 build2) E2) as (d2 & -> & P2).
  destruct o2 as [[]|e|c].
  2:{ intros [= <- <-]. exists (d1 ++ d2). rewrite app_assoc. split; [reflexivity|].
      intros _. split; [reflexivity|]. apply quiet_all_plain, Forall_app; auto. }
  2:{ now destruct (warn_formats_no_exit _ _ _ _ _ E2). }
  unfold bind at 1.
  destruct (resolve_shas w g build1 build2 ((t ++ d1) ++ d2)) as [o3 t3] eqn:E3.
  destruct (resolve_shas_spec _ _ _ _ _ _ _ E3) as (d3 & -> & Q3 & H3).
  assert (Q : Forall quiet (d1 ++ d2 ++ d3)).
  { repeat (apply Forall_app; split); auto using quiet_all_plain. }
  destruct o3 as [shas|e|c]; [|intros [= <- <-]|contradiction].
  2:{ exists (d1 ++ d2 ++ d3). rewrite !app_assoc. split; [reflexivity|].
      intros _. split; [reflexivity|]. now rewrite <- !app_assoc. }
  destruct (Nat.ltb_spec (length shas) 2) as [Hlt|Hge].
  - unfold bind, print, emit, sys_exit. intros [= <- <-].
    exists (d1 ++ d2 ++ d3 ++ [Print DCouldNotGetTwo]). rewrite !app_assoc.
    split; [reflexivity|]. intros _. split; [reflexivity|].
    rewrite <- !app_assoc. rewrite !app_assoc. apply Forall_app. split.
    + now rewrite <- !app_assoc.
    + repeat constructor.
  - intros E4.
    assert (exists d4, t' = ((t ++ d1) ++ d2) ++ d3 ++ d4) as (d4 & ->).
    { destruct shas as [|sha1 [|sha2 [|]]].
      1,2,4: (injection E4 as _ <-; exists []; now rewrite app_nil_r).
      destruct (adds_inv _ _ _ _ _ (report_adds w g build1 build2 sha1 sha2) E4)
        as (d4 & -> & _).
      exists d4. now rewrite app_assoc. }
    exists (d1 ++ d2 ++ d3 ++ d4). rewrite !app_assoc. split; [reflexivity|].
    rewrite !resolved_app. lia.
Qed.

Lemma program_spec w args o t' :
  program w args [] = (o, t') ->
  resolved t' < 2 -> exit_code o = 1%Z /\ Forall quiet t'.
Proof.
  unfold program. destruct (Nat.ltb (length args) 2).
  { intros [= <- <-] _. split; [reflexivity|]. repeat constructor. }
  destruct (read_config w (nth 1 args "")) as [config|].
  2:{ intros [= <- <-] _. split; [reflexivity|]. repeat constructor. }
  destruct config as [| | | | | |kvs];
    try (intros [= <- <-] _; split; [reflexivity|constructor]).
  cbn [py_get lift]. unfold bind, ret. intros E Hres.
  destruct (main_spec _ _ _ _ _ E) as (d & -> & H). exact (H Hres).
Qed.

(** C8. When fewer than two SHAs resolve, [main] exits with status 1
    right after the resolution, having launched no process and touched no
    file; and every run of the program in which fewer than two builds are
    reported resolved ends with status 1 without doing either. *)
Theorem fewer_than_two_shas_abort (w : world) :
  (forall g t build1 build2 commit_shas t',
     resolves w g t build1 build2 commit_shas t' ->
     length commit_shas < 2 ->
     main w g t = (Exit 1, t' ++ [Print DCouldNotGetTwo])
     /\ exists d, t' ++ [Print DCouldNotGetTwo] = t ++ d /\ Forall quiet d)
  /\ (forall args,
        resolved (snd (program w args [])) < 2 ->
        exit_code (fst (program w args [])) = 1%Z
        /\ Forall quiet (snd (program w args []))).
Proof.
  split.
  - intros g t build1 build2 shas t' (t1 & t2 & E1 & E2 & E3) Hlen.
    assert (Hmain : main w g t = (Exit 1, t' ++ [Print DCouldNotGetTwo])).
    { unfold main. unfold bind at 1. rewrite E1. cbn [fst snd].
      unfold bind at 1. rewrite E2. unfold bind at 1. rewrite E3.
      apply Nat.ltb_lt in Hlen. rewrite Hlen. reflexivity. }
    split; [exact Hmain|].
    destruct (adds_inv _ _ _ _ _ (choose_builds_adds g) E1) as (d1 & -> & P1).
    destruct (adds_inv _ _ _ _ _ (warn_formats_adds build1 build2) E2) as (d2 & -> & P2).
    destruct (resolve_shas_spec _ _ _ _ _ _ _ E3) as (d3 & -> & Q3 & _).
    exists (d1 ++ d2 ++ d3 ++ [Print DCouldNotGetTwo]). split; [now rewrite <- !app_assoc|].
    repeat (apply Forall_app; split); auto using quiet_all_plain.
    repeat constructor.
  - intros args. destruct (program w args []) as [o t'] eqn:E. cbn [fst snd].
    exact (program_spec _ _ _ _ E).
Qed.

(** C9. When two SHAs resolve and the fetcher returns an empty list,
    [main] logs that no commits were found and returns normally; the
    reference extractor does not run and no file is opened or written. *)
Theorem empty_range_returns
    (w : world) (g : globals) (t : trace) (build1 build2 sha1 sha2 : json)
    (t1 : trace) (url : string) (t2 : trace)
    (Hresolved : resolves w g t build1 build2 [sha1; sha2] t1)
    (Hempty : get_github_commits_between w (GITHUB_REPO g) sha1 sha2 t1
              = (Ret ([], url), t2)) :
  main w g t = (Ret tt, t2 ++ [Print DNoCommitsFound])
  /\ exit_code (fst (main w g t)) = 0%Z
  /\ exists d, t2 ++ [Print DNoCommitsFound] = t ++ d
       /\ Forall (fun e => is_analysis e = false /\ is_file e = false) d.
Proof.
  destruct Hresolved as (ta & tb & E1 & E2 & E3).
  assert (Hmain : main w g t = (Ret tt, t2 ++ [Print DNoCommitsFound])).
  { unfold main. unfold bind at 1. rewrite E1. cbn [fst snd].
    unfold bind at 1. rewrite E2. unfold bind at 1. rewrite E3.
    cbn [length Nat.ltb Nat.leb]. unfold report. unfold bind at 1. rewrite Hempty.
    reflexivity. }
  split; [exact Hmain|]. split; [now rewrite Hmain|].
  destruct (adds_inv _ _ _ _ _ (choose_builds_adds g) E1) as (d1 & -> & P1).
  destruct (adds_inv _ _ _ _ _ (warn_formats_adds build1 build2) E2) as (d2 & -> & P2).
  destruct (resolve_shas_spec _ _ _ _ _ _ _ E3) as (d3 & -> & Q3 & _).
  destruct (adds_inv _ _ _ _ _ (get_github_commits_between_adds w _ _ _) Hempty)
    as (d4 & -> & P4).
  exists (d1 ++ d2 ++ d3 ++ d4 ++ [Print DNoCommitsFound]).
  split; [now rewrite <- !app_assoc|].
  assert (Hq : forall e, quiet e -> is_analysis e = false /\ is_file e = false)
    by (unfold quiet; tauto).
  repeat (apply Forall_app; split); auto;
    try (eapply Forall_impl; [|exact Hq]); auto using quiet_all_plain.
Qed.

(** C1, as the code has it.  The two build numbers are the two positional
    arguments when there are exactly two of them.  Otherwise they are the
    two items of BUILD_NUMBERS when its length is two: the two elements of
    a list, but also the two characters of a two-character ASCII string and
    the two keys of a two-key object, and nothing else.  When there are not
    exactly two positional arguments and BUILD_NUMBERS is absent, or is a
    list, an ASCII string or an object whose length is not two, the run
    exits with status 1 having printed one diagnostic only, so before any
    request is sent; a BUILD_NUMBERS without a length ends the run with an
    exception, status 1, having printed nothing. *)
Theorem build_numbers_source (w : world) (g : globals) (t : trace) :
  (length (argv g) = 4 ->
     choose_builds g t
     = (Ret (JStr (nth 2 (argv g) ""), JStr (nth 3 (argv g) "")),
        t ++ [Print (DComparingArgs (JStr (nth 2 (argv g) "")) (JStr (nth 3 (argv g) "")))]))
  /\ (length (argv g) <> 4 -> forall build1 build2,
        BUILD_NUMBERS g = JArr [build1; build2] ->
        choose_builds g t
        = (Ret (build1, build2), t ++ [Print (DComparingConfig build1 build2)]))
  /\ (length (argv g) <> 4 -> forall c1 c2,
        BUILD_NUMBERS g = JStr (String c1 (String c2 EmptyString)) ->
        ascii_text (String c1 (String c2 EmptyString)) ->
        choose_builds g t
        = (Ret (JStr (String c1 EmptyString), JStr (String c2 EmptyString)),
           t ++ [Print (DComparingConfig (JStr (String c1 EmptyString))
                          (JStr (String c2 EmptyString)))]))
  /\ (length (argv g) <> 4 -> forall k1 v1 k2 v2,
        BUILD_NUMBERS g = JObj [(k1, v1); (k2, v2)] -> k1 <> k2 ->
        choose_builds g t
        = (Ret (JStr k1, JStr k2), t ++ [Print (DComparingConfig (JStr k1) (JStr k2))]))
  /\ (forall build1 build2 t',
        representable (BUILD_NUMBERS g) ->
        choose_builds g t = (Ret (build1, build2), t') ->
        (length (argv g) = 4
         /\ build1 = JStr (nth 2 (argv g) "") /\ build2 = JStr (nth 3 (argv g) ""))
        \/ (length (argv g) <> 4 /\ two_items (BUILD_NUMBERS g) build1 build2))
  /\ (length (argv g) <> 4 -> representable (BUILD_NUMBERS g) -> forall n,
        has_len (BUILD_NUMBERS g) n -> n <> 2 ->
        main w g t = (Exit 1, t ++ [Print DNeedTwoBuilds]))
  /\ (length (argv g) <> 4 -> forall e,
        py_len (BUILD_NUMBERS g) = Err e ->
        main w g t = (Raise e, t) /\ exit_code (fst (main w g t)) = 1%Z)
  /\ (forall args cfg,
        2 <= length args -> length args <> 4 ->
        read_config w (nth 1 args "") = Some (JObj cfg) ->
        (assoc "BUILD_NUMBERS" cfg = None
         \/ exists v n, assoc "BUILD_NUMBERS" cfg = Some v
                        /\ representable v /\ has_len v n /\ n <> 2) ->
        program w args [] = (Exit 1, [Print DNeedTwoBuilds])).
Proof.
  assert (Hexit : forall g0 t0 n,
    Nat.eqb (length (argv g0)) 4 = false ->
    has_len (BUILD_NUMBERS g0) n -> n <> 2 ->
    main w g0 t0 = (Exit 1, t0 ++ [Print DNeedTwoBuilds])).
  { intros g0 t0 n H4 Hn Hne. unfold main, choose_builds. rewrite H4. step_prog.
    apply Nat.eqb_neq in Hne.
    destruct (BUILD_NUMBERS g0); cbn [has_len] in Hn; try contradiction;
      cbn [py_len]; cbn beta iota; rewrite Hn, Hne; reflexivity. }
  split; [|split; [|split; [|split; [|split; [|split; [|split]]]]]].
  - intros H. unfold choose_builds. now rewrite H.
  - intros H b1 b2 E. unfold choose_builds.
    apply Nat.eqb_neq in H. rewrite H, E. reflexivity.
  - intros H c1 c2 E _. unfold choose_builds.
    apply Nat.eqb_neq in H. rewrite H, E. reflexivity.
  - intros H k1 v1 k2 v2 E _. unfold choose_builds.
    apply Nat.eqb_neq in H. rewrite H, E. reflexivity.
  - intros b1 b2 t' _. unfold choose_builds.
    destruct (Nat.eqb_spec (length (argv g)) 4) as [H4|H4].
    + intros [= <- <- _]. auto.
    + intros Hrun. right. split; [exact H4|]. revert Hrun. step_prog.
      destruct (BUILD_NUMBERS g) as [| | | |s|l|kvs]; cbn [py_len two_items];
        cbn beta iota; try discriminate.
      * destruct s as [|c1 [|c2 [|c3 s]]]; cbn; try discriminate.
        intros [= <- <- _]. split; reflexivity.
      * destruct l as [|x [|y [|z l]]]; cbn; try discriminate.
        intros [= <- <- _]. split; reflexivity.
      * destruct kvs as [|[k1 v1] [|[k2 v2] [|kv kvs]]]; cbn; try discriminate.
        intros [= <- <- _]. split; reflexivity.
  - intros H _ n Hn Hne. apply (Hexit g t n); [now apply Nat.eqb_neq|exact Hn|exact Hne].
  - intros H e He. unfold main, choose_builds.
    apply Nat.eqb_neq in H. rewrite H. step_prog. rewrite He. split; reflexivity.
  - intros args cfg H2 H4 Hcfg Hbn. unfold program.
    destruct (Nat.ltb_spec (length args) 2) as [?|_]; [lia|].
    rewrite Hcfg. cbn [py_get lift]. unfold bind at 1. unfold ret at 1. cbn beta iota.
    do 6 (unfold bind at 1; unfold ret at 1; cbn beta iota).
    apply Nat.eqb_neq in H4.
    destruct Hbn as [->|(v & n & -> & _ & Hn & Hne)].
    + apply (Hexit _ [] 0); [exact H4|reflexivity|lia].
    + apply (Hexit _ [] n); [exact H4|exact Hn|exact Hne].
Qed.

(** C3. In ASCII text, at any position the issue-key pattern matches
    exactly the texts made of 3 to 5 letters, a hyphen and 2 to 6 digits
    that have no word character on either side, whatever the case of the
    letters; every text that [findall] returns has that shape; and on the
    boundary examples, ABCDE-12 and abc-123 are found while AB-12,
    ABCDEF-12, ABC-1 and ABC-1234567 give no match. *)
Theorem issue_pattern_matches_keys :
  (forall prev s n g,
     ascii_before prev -> ascii_text s ->
     (Re.match_here issue_pattern prev s = Some (n, g) <->
      IssueKey.key_here prev s n /\ g = (None, None)))
  /\ (forall s m,
        ascii_text s -> m ∈ Re.findall issue_pattern s -> IssueKey.is_key m)
  /\ Re.findall issue_pattern "ABCDE-12" = ["ABCDE-12"]
  /\ Re.findall issue_pattern "abc-123" = ["abc-123"]
  /\ Re.findall issue_pattern "AB-12" = []
  /\ Re.findall issue_pattern "ABCDEF-12" = []
  /\ Re.findall issue_pattern "ABC-1" = []
  /\ Re.findall issue_pattern "ABC-1234567" = [].
Proof.
  split; [intros prev s n g _ _; apply IssueKeyFacts.match_here_iff|].
  split; [intros s m _; apply IssueKeyFacts.findall_from_keys|].
  repeat split; vm_compute; reflexivity.
Qed.

(** ** Concrete runs *)

(** C1 as stated fails: no positional build number is given and
    BUILD_NUMBERS is not a two-element list, yet the run sends its two
    build queries, fetches the range, writes the report and ends with
    status 0. *)
Lemma string_build_numbers_run :
  let w := demo_world (Some string_config) demo_builds demo_compare in
  let r := program w demo_args [] in
  length demo_args - 2 <> 2
  /\ field "BUILD_NUMBERS" string_config = Some (JStr "12")
  /\ (forall build1 build2, JStr "12" <> JArr [build1; build2])
  /\ exit_code (fst r) = 0%Z
  /\ length (List.filter is_http (snd r)) = 2
  /\ existsb is_file (snd r) = true.
Proof.
  cbv zeta. split; [vm_compute; lia|]. split; [reflexivity|].
  split; [intros ? ?; discriminate|].
  repeat split; vm_compute; reflexivity.
Qed.

Lemma get_azure_build_commit_selects_witness :
  azure_body azure_world (JStr "org") (JStr "proj") JNull JNull (JStr "1.2.3") JNull []
    (JObj [("count", JInt 2);
           ("value", JArr [JObj [("result", JStr "failed")]; demo_build])])
  /\ fst (get_azure_build_commit azure_world (JStr "org") (JStr "proj") JNull JNull
            (JStr "1.2.3") JNull [])
     = Ret (JStr "0123456789abcdef").
Proof.
  split; [reflexivity|].
  pose proof (get_azure_build_commit_selects azure_world (JStr "org") (JStr "proj")
                JNull JNull (JStr "1.2.3") JNull []
                [("count", JInt 2);
                 ("value", JArr [JObj [("result", JStr "failed")]; demo_build])]
                eq_refl) as H.
  cbv zeta in H. destruct H as [_ H].
  destruct (H [JObj [("result", JStr "failed")]; demo_build] eq_refl) as (_ & _ & _ & H').
  apply (H' [JObj [("result", JStr "failed")]] demo_build []); try reflexivity.
  repeat constructor.
Defined.

Lemma get_github_commits_between_url_witness :
  gh_answer (demo_world None HttpFailed ProcTimeout) "org/repo" "aaa" "bbb" [] = ProcTimeout
  /\ fst (get_github_commits_between (demo_world None HttpFailed ProcTimeout)
            (JStr "org/repo") (JStr "aaa") (JStr "bbb") [])
     = Ret ([], "https://github.com/org/repo/compare/aaa...bbb").
Proof.
  split; [reflexivity|].
  pose proof (get_github_commits_between_url (demo_world None HttpFailed ProcTimeout)
                "org/repo" "aaa" "bbb" []) as H.
  cbv zeta in H. destruct H as (_ & H & _). apply H. reflexivity.
Defined.

Lemma get_github_commits_between_keeps_witness :
  gh_answer fetch_world "org/repo" "aaa" "bbb" []
  = ProcDone 0 (Some (JObj [("commits", JArr [JObj [("sha", JStr "ffff")]; demo_entry])])) ""
  /\ Forall (fun c => entry_ok c = true) [JObj [("sha", JStr "ffff")]; demo_entry]
  /\ fst (get_github_commits_between fetch_world (JStr "org/repo") (JStr "aaa") (JStr "bbb") [])
     = Ret ([commit_info_of demo_entry], "https://github.com/org/repo/compare/aaa...bbb").
Proof.
  split; [reflexivity|]. split; [repeat constructor|].
  destruct (get_github_commits_between_keeps fetch_world "org/repo" "aaa" "bbb" []
              [("commits", JArr [JObj [("sha", JStr "ffff")]; demo_entry])]
              [JObj [("sha", JStr "ffff")]; demo_entry] "" eq_refl eq_refl)
    as [H _].
  - repeat constructor.
  - exact H.
Defined.

Lemma export_to_markdown_example_witness :
  open_write fetch_world [] "report.md" = true
  /\ FileWrite "report.md" example_line
     ∈ snd (export_to_markdown fetch_world [example_commit] [] (JStr "org/repo")
              "url" "report.md" []).
Proof.
  split; [reflexivity|].
  destruct (export_to_markdown_example fetch_world [] [] "url" "report.md" eq_refl)
    as (rest & E).
  rewrite E. cbn [app]. rewrite !elem_of_cons. auto 10.
Defined.

Lemma fetched_records_complete_witness :
  fst (get_github_commits_between fetch_world (JStr "org/repo") (JStr "aaa") (JStr "bbb") [])
  = Ret ([commit_info_of demo_entry], "https://github.com/org/repo/compare/aaa...bbb")
  /\ adds (fun e => is_skip e = false)
       (analyze_commits [commit_info_of demo_entry] default_jira_base_url).
Proof.
  split; [vm_compute; reflexivity|].
  refine (proj1 (proj2
    (fetched_records_complete fetch_world (JStr "org/repo") (JStr "aaa") (JStr "bbb") []
       [commit_info_of demo_entry] "https://github.com/org/repo/compare/aaa...bbb"
       (snd (get_github_commits_between fetch_world (JStr "org/repo") (JStr "aaa")
               (JStr "bbb") []))
       _)) default_jira_base_url).
  vm_compute. reflexivity.
Defined.

Lemma analyze_commits_unique_sorted_witness :
  Forall (fun c => scannable c = true)
    [with_message "Fix abc-123"; with_message "ABC-123 again"]
  /\ Forall ascii_message [with_message "Fix abc-123"; with_message "ABC-123 again"]
  /\ fst (analyze_commits [with_message "Fix abc-123"; with_message "ABC-123 again"]
            "https://jira/" [])
     = Ret ["https://jira/ABC-123"].
Proof.
  assert (H : Forall (fun c => scannable c = true)
                [with_message "Fix abc-123"; with_message "ABC-123 again"])
    by (repeat constructor).
  assert (Ha : Forall ascii_message
                 [with_message "Fix abc-123"; with_message "ABC-123 again"])
    by (repeat (constructor; [reflexivity|]); constructor).
  split; [exact H|]. split; [exact Ha|].
  exact (proj2 (proj2 (proj2 (proj2 (proj2
    (analyze_commits_unique_sorted _ "https://jira/" [] H Ha)))))).
Defined.

Lemma fewer_than_two_shas_abort_witness :
  resolved (snd (program failing_world demo_args [])) < 2
  /\ exit_code (fst (program failing_world demo_args [])) = 1%Z
  /\ Forall quiet (snd (program failing_world demo_args [])).
Proof.
  assert (H : resolved (snd (program failing_world demo_args [])) < 2)
    by (vm_compute; lia).
  split; [exact H|].
  exact (proj2 (fewer_than_two_shas_abort failing_world) demo_args H).
Defined.

Lemma empty_range_returns_witness :
  resolves empty_world two_builds [] (JStr "1.2.3") (JStr "1.2.4")
    [JStr "0123456789abcdef"; JStr "0123456789abcdef"]
    (snd (resolve_shas empty_world two_builds (JStr "1.2.3") (JStr "1.2.4")
            (snd (warn_formats (JStr "1.2.3") (JStr "1.2.4")
                    (snd (choose_builds two_builds []))))))
  /\ exit_code (fst (main empty_world two_builds [])) = 0%Z.
Proof.
  assert (H : resolves empty_world two_builds [] (JStr "1.2.3") (JStr "1.2.4")
    [JStr "0123456789abcdef"; JStr "0123456789abcdef"]
    (snd (resolve_shas empty_world two_builds (JStr "1.2.3") (JStr "1.2.4")
            (snd (warn_formats (JStr "1.2.3") (JStr "1.2.4")
                    (snd (choose_builds two_builds []))))))).
  { exists (snd (choose_builds two_builds [])).
    exists (snd (warn_formats (JStr "1.2.3") (JStr "1.2.4")
                  (snd (choose_builds two_builds [])))).
    repeat split; vm_compute; reflexivity. }
  split; [exact H|].
  refine (proj1 (proj2
    (empty_range_returns empty_world two_builds [] _ _ _ _ _
       "https://github.com/org/repo/compare/0123456789abcdef...0123456789abcdef"
       (snd (get_github_commits_between empty_world (JStr "org/repo")
               (JStr "0123456789abcdef") (JStr "0123456789abcdef")
               (snd (resolve_shas empty_world two_builds (JStr "1.2.3") (JStr "1.2.4")
                       (snd (warn_formats (JStr "1.2.3") (JStr "1.2.4")
                               (snd (choose_builds two_builds []))))))))
       H _))).
  vm_compute. reflexivity.
Defined.

Lemma build_numbers_source_witness :
  program (demo_world (Some (list_config [JStr "1.2.3"])) demo_builds demo_compare)
    demo_args []
  = (Exit 1, [Print DNeedTwoBuilds]).
Proof.
  refine (proj2 (proj2 (proj2 (proj2 (proj2 (proj2 (proj2
    (build_numbers_source
       (demo_world (Some (list_config [JStr "1.2.3"])) demo_builds demo_compare)
       two_builds []))))))) demo_args _ _ _ eq_refl _).
  - vm_compute. lia.
  - vm_compute. lia.
  - right. exists (JArr [JStr "1.2.3"]), 1.
    split; [reflexivity|]. split; [exact I|]. split; [reflexivity|lia].
Defined.

Lemma issue_pattern_matches_keys_witness :
  ascii_text "Fix abc-123, again"
  /\ "abc-123" ∈ Re.findall issue_pattern "Fix abc-123, again"
  /\ IssueKey.is_key "abc-123".
Proof.
  assert (Ha : ascii_text "Fix abc-123, again") by reflexivity.
  assert (H : "abc-123" ∈ Re.findall issue_pattern "Fix abc-123, again").
  { replace (Re.findall issue_pattern "Fix abc-123, again") with ["abc-123"]
      by (vm_compute; reflexivity).
    apply elem_of_cons. now left. }
  split; [exact Ha|]. split; [exact H|].
  exact (proj1 (proj2 issue_pattern_matches_keys) _ _ Ha H).
Defined.

(** * Further properties of the script *)

(** ** The build-number format *)

Lemma head_fails_drop_span p s : head_fails p (str_drop (span p s) s).
Proof.
  induction s as [|c s IH]; simpl; [exact I|].
  destruct (p c) eqn:E; simpl; [exact IH|exact E].
Qed.

Lemma span_take_nonempty p s : 1 <= span p s -> str_take (span p s) s <> EmptyString.
Proof.
  destruct s as [|c s]; simpl; [lia|]. destruct (p c); [discriminate|lia].
Qed.

Lemma length_nonempty (a : string) : a <> EmptyString -> 1 <= String.length a.
Proof. destruct a; [congruence|simpl; lia]. Qed.

Module BuildNumberFacts.
Import Re ReFacts BuildNumber.

Lemma dot_mem c : cset_mem false (CChar ".") c = Ascii.eqb c ".".
Proof. destruct c as [[] [] [] [] [] [] [] []]; reflexivity. Qed.

Lemma digit_not_dot c : Chars.is_digit c = true -> Ascii.eqb c "." = false.
Proof. destruct c as [[] [] [] [] [] [] [] []]; vm_compute; intros; congruence. Qed.

Lemma digit_not_lf c : Chars.is_digit c = true -> Ascii.eqb c "010" = false.
Proof. destruct c as [[] [] [] [] [] [] [] []]; vm_compute; intros; congruence. Qed.

Section Tails.
Context {R : Type}.
Variable k : nat -> option ascii -> string -> option R.

(** A run of digits, then [k]: when [k] cannot start on a digit that
    follows a digit, the run taken is the whole run. *)
Lemma digits_then_iff pos prev s r :
  (forall q d c t, Chars.is_digit d = true -> Chars.is_digit c = true ->
                   k q (Some d) (String c t) = None) ->
  digits_then k pos prev s = Some r <->
  exists a rest,
    s = a +:+ rest /\ digits a /\ head_fails Chars.is_digit rest
    /\ k (pos + String.length a) (str_last prev a) rest = Some r.
Proof.
  intros Hk. unfold digits_then.
  rewrite rep_span; [| |left; lia].
  2:{ intros q d c t Hd Hc. rewrite digit_mem in Hd, Hc. now apply Hk. }
  cbn [within]. rewrite andb_true_r. split.
  - destruct (Nat.leb_spec 1 (span (cset_mem false CDigit) s)) as [H1|]; [|discriminate].
    intros E. exists (str_take (span (cset_mem false CDigit) s) s),
                     (str_drop (span (cset_mem false CDigit) s) s).
    rewrite length_take_span. repeat split.
    + now rewrite str_take_drop.
    + now apply span_take_nonempty.
    + rewrite <- (str_all_ext _ _ _ (digit_mem false)). apply str_all_take_span.
    + pose proof (head_fails_drop_span (cset_mem false CDigit) s) as H.
      destruct (str_drop _ s); [exact I|]. simpl in *. now rewrite <- digit_mem with (ic := false).
    + exact E.
  - intros (a & rest & -> & [Hne Ha] & Hrest & E).
    assert (Hs : span (cset_mem false CDigit) (a +:+ rest) = String.length a).
    { apply span_app.
      - now rewrite (str_all_ext _ _ _ (digit_mem false)).
      - destruct rest; [exact I|]. simpl in *. now rewrite digit_mem. }
    rewrite Hs, str_take_app_length, str_drop_app_length.
    apply length_nonempty in Hne. apply Nat.leb_le in Hne. now rewrite Hne.
Qed.

(** One dot, then [k], when [k] cannot start on a dot. *)
Lemma dot_then_iff pos prev s r :
  (forall q p t, k q p (String "." t) = None) ->
  dot_then k pos prev s = Some r <->
  exists rest, s = String "." rest /\ k (pos + 1) (Some "."%char) rest = Some r.
Proof.
  intros Hk. unfold dot_then.
  rewrite rep_span; [| |left; lia].
  2:{ intros q d c t _ Hc. rewrite dot_mem in Hc. apply Ascii.eqb_eq in Hc as ->.
      apply Hk. }
  destruct s as [|c s]; [split; [discriminate|intros (? & [=] & _)]|].
  cbn [span]. rewrite dot_mem. destruct (Ascii.eqb_spec c ".") as [->|Hne].
  - destruct s as [|c' s].
    + cbn. split; [intros E; eauto|intros (rest & [= <-] & E); exact E].
    + cbn [span]. rewrite dot_mem. destruct (Ascii.eqb_spec c' ".") as [->|Hne'].
      * cbn [within Nat.leb andb]. split; [discriminate|].
        intros (rest & [= <-] & E). now rewrite Hk in E.
      * cbn. split; [intros E; eauto|intros (rest & [= <-] & E); exact E].
  - cbn. split; [discriminate|intros (rest & [= E] & _); congruence].
Qed.

Lemma dot_then_stops q d c t :
  Chars.is_digit c = true -> dot_then k q d (String c t) = None.
Proof.
  intros Hc. unfold dot_then. cbn [rep]. rewrite dot_mem, (digit_not_dot _ Hc).
  reflexivity.
Qed.

Lemma digits_then_stops q p t : digits_then k q p (String "." t) = None.
Proof. reflexivity. Qed.
End Tails.

Lemma at_end_k_iff pos prev s r :
  at_end_k pos prev s = Some r <->
  (s = EmptyString \/ s = nl) /\ r = (pos, (None, None)).
Proof.
  unfold at_end_k. cbn [run]. destruct s as [|c [|c' s]]; cbn [at_end].
  - split; [intros [= <-]; auto|intros [_ ->]; reflexivity].
  - destruct (Ascii.eqb_spec c "010") as [->|Hne].
    + split; [intros [= <-]; auto|intros [_ ->]; reflexivity].
    + split; [discriminate|]. intros [[H|H] _]; [discriminate|].
      unfold nl in H. congruence.
  - split; [discriminate|]. intros [[H|H] _]; discriminate.
Qed.

Lemma at_end_k_stops q d c t :
  Chars.is_digit c = true -> at_end_k q d (String c t) = None.
Proof.
  intros Hc. unfold at_end_k. cbn [run at_end].
  destruct t; [|reflexivity]. now rewrite (digit_not_lf _ Hc).
Qed.

Lemma match_here_build_number s :
  match_here build_number_pattern None s
  = digits_then (dot_then (digits_then (dot_then (digits_then at_end_k)))) 0 None s.
Proof. reflexivity. Qed.

Lemma matches_shape s : matches build_number_pattern s = true <-> shape s.
Proof.
  unfold matches. rewrite match_here_build_number. split.
  - destruct (digits_then _ 0 None s) as [r|] eqn:E; [intros _|discriminate].
    apply digits_then_iff in E as (a & r1 & -> & Ha & _ & E);
      [|intros; now apply dot_then_stops].
    apply dot_then_iff in E as (r2 & -> & E); [|intros; apply digits_then_stops].
    apply digits_then_iff in E as (b & r3 & -> & Hb & _ & E);
      [|intros; now apply dot_then_stops].
    apply dot_then_iff in E as (r4 & -> & E); [|intros; apply digits_then_stops].
    apply digits_then_iff in E as (c & tail & -> & Hc & _ & E);
      [|intros; now apply at_end_k_stops].
    apply at_end_k_iff in E as [Htail _].
    exists a, b, c, tail. auto.
  - intros (a & b & c & tail & -> & Ha & Hb & Hc & Htail).
    assert (Hfail : head_fails Chars.is_digit tail)
      by (destruct Htail as [->| ->]; [exact I|reflexivity]).
    assert (E : digits_then (dot_then (digits_then (dot_then (digits_then at_end_k))))
                  0 None (a +:+ "." +:+ b +:+ "." +:+ c +:+ tail)
                = Some (0 + String.length a + 1 + String.length b + 1 + String.length c,
                        (None, None))).
    { apply digits_then_iff; [intros; now apply dot_then_stops|].
      exists a, ("." +:+ b +:+ "." +:+ c +:+ tail). repeat split; try apply Ha.
      apply dot_then_iff; [intros; apply digits_then_stops|].
      exists (b +:+ "." +:+ c +:+ tail). split; [reflexivity|].
      apply digits_then_iff; [intros; now apply dot_then_stops|].
      exists b, ("." +:+ c +:+ tail). repeat split; try apply Hb.
      apply dot_then_iff; [intros; apply digits_then_stops|].
      exists (c +:+ tail). split; [reflexivity|].
      apply digits_then_iff; [intros; now apply at_end_k_stops|].
      exists c, tail. repeat split; try apply Hc; [exact Hfail|].
      apply at_end_k_iff. auto. }
    now rewrite E.
Qed.

End BuildNumberFacts.

(** X1. A string build number is accepted exactly when it is three
    non-empty runs of digits separated by dots, possibly followed by one
    final line feed; a value that is not a string makes the check raise a
    TypeError. *)
Theorem validate_build_number_shape (v : json) :
  (forall s, v = JStr s ->
     (validate_build_number v = Ok true <-> BuildNumber.shape s)
     /\ (validate_build_number v = Ok false <-> ~ BuildNumber.shape s))
  /\ ((forall s, v <> JStr s) -> validate_build_number v = Err TypeError).
Proof.
  split.
  - intros s ->. cbn [validate_build_number].
    pose proof (BuildNumberFacts.matches_shape s) as H.
    destruct (Re.matches build_number_pattern s); split; split;
      try discriminate; try reflexivity; intros Hs.
    + now apply H.
    + exfalso. apply Hs. now apply H.
    + apply H in Hs. discriminate.
    + intros Hshape. apply H in Hshape. discriminate.
  - intros H. destruct v; try reflexivity. now destruct (H s).
Qed.

Lemma validate_build_number_shape_witness :
  validate_build_number (JStr "10.20.30") = Ok true /\ BuildNumber.shape "10.20.30".
Proof.
  split; [reflexivity|].
  exact (proj1 (proj1 (proj1 (validate_build_number_shape (JStr "10.20.30"))
                         "10.20.30" eq_refl)) eq_refl).
Defined.

(** ** Format warnings and the resolution loop *)



(** X3. A build number taken from the configuration that is not a string
    makes the format check raise a TypeError that nothing catches: the run
    ends with status 1 after the announcement of the two build numbers (and
    the warning for the first one, if it is a malformed string), before any
    request is sent. *)
Theorem non_string_build_number_crashes
    (w : world) (g : globals) (t : trace) (build1 build2 : json)
    (Hargs : length (argv g) <> 4)
    (Hconfig : BUILD_NUMBERS g = JArr [build1; build2])
    (Hnot : is_str build1 = false \/ is_str build2 = false) :
  exists warned,
    main w g t = (Raise TypeError, t ++ Print (DComparingConfig build1 build2) :: warned)
    /\ Forall (fun e => is_print e = true) warned
    /\ exit_code (fst (main w g t)) = 1%Z.
Proof.
  assert (Hchoose : choose_builds g t
                    = (Ret (build1, build2), t ++ [Print (DComparingConfig build1 build2)])).
  { unfold choose_builds. apply Nat.eqb_neq in Hargs. rewrite Hargs, Hconfig. reflexivity. }
  assert (Hwarn : exists warned,
    warn_formats build1 build2 (t ++ [Print (DComparingConfig build1 build2)])
    = (Raise TypeError, (t ++ [Print (DComparingConfig build1 build2)]) ++ warned)
    /\ Forall (fun e => is_print e = true) warned).
  { unfold warn_formats. cbn [for_each]. step_prog.
    destruct build1 as [| | | |s1| |]; cbn [validate_build_number];
      try (exists []; rewrite app_nil_r; split; [reflexivity|constructor]).
    destruct Hnot as [Hnot|Hnot]; [discriminate|].
    destruct build2 as [| | | |s2| |]; try discriminate; cbn [validate_build_number];
      destruct (Re.matches build_number_pattern s1); cbn [negb];
      try (exists []; rewrite app_nil_r; split; [reflexivity|constructor]);
      (eexists [_]; split; [reflexivity|repeat constructor]). }
  destruct Hwarn as (warned & Hwarn & Hprints). exists warned.
  assert (Hmain : main w g t
                  = (Raise TypeError, t ++ Print (DComparingConfig build1 build2) :: warned)).
  { unfold main. unfold bind at 1. rewrite Hchoose. cbn [fst snd].
    unfold bind at 1. rewrite Hwarn. now rewrite <- app_assoc. }
  split; [exact Hmain|]. split; [exact Hprints|]. now rewrite Hmain.
Qed.

Lemma non_string_build_number_crashes_witness :
  fst (main azure_world (demo_globals (JArr [JInt 1; JInt 2])) []) = Raise TypeError.
Proof.
  destruct (non_string_build_number_crashes azure_world
              (demo_globals (JArr [JInt 1; JInt 2])) [] (JInt 1) (JInt 2))
    as (warned & E & _).
  - vm_compute. lia.
  - reflexivity.
  - left. reflexivity.
  - now rewrite E.
Defined.

(** X4. The list of SHAs handed to the comparison holds the truthy answers
    of the resolver, the one for the first build number before the one for
    the second; in particular a list of two SHAs is the pair of answers in
    build order, both truthy. *)
Theorem resolve_shas_in_order
    (w : world) (g : globals) (build1 build2 : json) (t : trace)
    (commit_shas : list json) (t' : trace)
    (Hloop : resolve_shas w g build1 build2 t = (Ret commit_shas, t')) :
  exists sha1 t1 sha2,
    get_azure_build_commit w (ORG g) (PROJECT g) (DEFINITION_ID g) (BRANCH g)
      build1 (AZURE_PAT g) t = (Ret sha1, t1)
    /\ get_azure_build_commit w (ORG g) (PROJECT g) (DEFINITION_ID g) (BRANCH g)
         build2 (AZURE_PAT g) t1 = (Ret sha2, t')
    /\ commit_shas = kept_sha sha1 ++ kept_sha sha2
    /\ (length commit_shas = 2 ->
        commit_shas = [sha1; sha2] /\ truthy sha1 = true /\ truthy sha2 = true).
Proof.
  revert Hloop. unfold resolve_shas. cbn [for_each]. unfold bind.
  destruct (get_azure_build_commit w _ _ _ _ build1 _ t) as [[sha1|e|c] t1];
    try discriminate.
  assert (Hstep : (if truthy sha1 then ret ([] ++ [sha1]) else ret []) t1
                  = (Ret (kept_sha sha1), t1)).
  { unfold kept_sha. destruct (truthy sha1); reflexivity. }
  rewrite Hstep.
  destruct (get_azure_build_commit w _ _ _ _ build2 _ t1) as [[sha2|e|c] t2] eqn:E2;
    try discriminate.
  assert (Hstep2 : (if truthy sha2 then ret (kept_sha sha1 ++ [sha2]) else ret (kept_sha sha1)) t2
                   = (Ret (kept_sha sha1 ++ kept_sha sha2), t2)).
  { unfold kept_sha. destruct (truthy sha1), (truthy sha2); reflexivity. }
  rewrite Hstep2. cbn [ret]. intros [= <- <-].
  exists sha1, t1, sha2. split; [reflexivity|]. split; [exact E2|].
  split; [reflexivity|]. unfold kept_sha.
  destruct (truthy sha1), (truthy sha2); cbn [app length]; intros Hlen;
    try discriminate Hlen. auto.
Qed.

Lemma resolve_shas_in_order_witness :
  resolve_shas azure_world two_builds (JStr "1.2.3") (JStr "1.2.4") []
  = (Ret [JStr "0123456789abcdef"; JStr "0123456789abcdef"],
     snd (resolve_shas azure_world two_builds (JStr "1.2.3") (JStr "1.2.4") []))
  /\ exists sha1 t1 sha2,
       get_azure_build_commit azure_world (JStr "org") (JStr "proj") JNull JNull
         (JStr "1.2.3") JNull [] = (Ret sha1, t1)
       /\ [JStr "0123456789abcdef"; JStr "0123456789abcdef"] = kept_sha sha1 ++ kept_sha sha2.
Proof.
  assert (H : resolve_shas azure_world two_builds (JStr "1.2.3") (JStr "1.2.4") []
    = (Ret [JStr "0123456789abcdef"; JStr "0123456789abcdef"],
       snd (resolve_shas azure_world two_builds (JStr "1.2.3") (JStr "1.2.4") [])))
    by (vm_compute; reflexivity).
  split; [exact H|].
  destruct (resolve_shas_in_order _ _ _ _ _ _ _ H) as (sha1 & t1 & sha2 & E1 & _ & E & _).
  exists sha1, t1, sha2. split; [exact E1|exact E].
Defined.

(** ** The resolver: one request, and its failures *)

(** The events of one call: the announcement, the request, and one
    diagnostic unless an exception escapes. *)
Lemma get_azure_build_commit_trace w org project definition_id branch build_number pat t :
  let r := get_azure_build_commit w org project definition_id branch build_number pat t in
  exists rest,
    snd r = t ++ Print (DFetchingBuild build_number org project)
              :: azure_request w org project definition_id branch build_number pat :: rest
    /\ ((exists e, fst r = Raise e /\ rest = [])
        \/ (exists v d, fst r = Ret v /\ rest = [Print d])).
Proof.
  unfold get_azure_build_commit, azure_request. step_prog.
  repeat (cbn [fst snd]; split_match; step_prog); cbn [fst snd];
    (eexists; split; [trace_eq|]); eauto.
Qed.

(** X5. Each call of the resolver announces the build, sends exactly one
    GET request, to the builds endpoint of the organisation and project,
    with the definition, branch, build number and API version as parameters
    and the token as credential, and then either returns after exactly one
    diagnostic or lets an exception escape without printing; it never
    exits the process. *)
Theorem get_azure_build_commit_one_request
    (w : world) (org project definition_id branch build_number pat : json) (t : trace) :
  let r := get_azure_build_commit w org project definition_id branch build_number pat t in
  (exists rest,
     snd r = t ++ Print (DFetchingBuild build_number org project)
               :: azure_request w org project definition_id branch build_number pat :: rest
     /\ Forall (fun e => is_print e = true) rest
     /\ ((exists e, fst r = Raise e /\ rest = [])
         \/ (exists v d, fst r = Ret v /\ rest = [Print d])))
  /\ (exists d, snd r = t ++ d /\ count_events is_http d = 1)
  /\ (forall c, fst r <> Exit c).
Proof.
  cbv zeta.
  destruct (get_azure_build_commit_trace w org project definition_id branch
              build_number pat t) as (rest & E & H).
  cbv zeta in E, H. split; [|split].
  - exists rest. split; [exact E|]. split; [|exact H].
    destruct H as [(e & _ & ->)|(v & d & _ & ->)]; repeat constructor.
  - eexists. split; [exact E|].
    destruct H as [(e & _ & ->)|(v & d & _ & ->)]; reflexivity.
  - intros c. apply get_azure_build_commit_no_exit.
Qed.

(** X6. When the request fails, or its body is not JSON, the resolver
    returns None after the diagnostic of that failure: the failure of one
    build does not raise. *)
Theorem get_azure_build_commit_failures
    (w : world) (org project definition_id branch build_number pat : json) (t : trace) :
  let sent :=
    t ++ [Print (DFetchingBuild build_number org project);
          azure_request w org project definition_id branch build_number pat] in
  (azure_answer w org project definition_id branch build_number pat t = HttpFailed ->
     get_azure_build_commit w org project definition_id branch build_number pat t
     = (Ret JNull, sent ++ [Print (DErrorFetchingBuild build_number)]))
  /\ (azure_answer w org project definition_id branch build_number pat t = HttpBody None ->
        get_azure_build_commit w org project definition_id branch build_number pat t
        = (Ret JNull, sent ++ [Print (DInvalidJsonBuild build_number)])).
Proof.
  cbv zeta. unfold azure_answer, azure_request, get_azure_build_commit. step_prog.
  split; intros ->; cbn beta iota; rewrite <- !app_assoc; reflexivity.
Qed.

Lemma get_azure_build_commit_failures_witness :
  azure_answer failing_world (JStr "org") (JStr "proj") JNull JNull (JStr "1.2.3") JNull []
  = HttpFailed
  /\ fst (get_azure_build_commit failing_world (JStr "org") (JStr "proj") JNull JNull
            (JStr "1.2.3") JNull []) = Ret JNull.
Proof.
  split; [reflexivity|].
  pose proof (get_azure_build_commit_failures failing_world (JStr "org") (JStr "proj")
                JNull JNull (JStr "1.2.3") JNull []) as H.
  cbv zeta in H. destruct H as [H _]. now rewrite (H eq_refl).
Defined.

(** X7. A JSON body that does not have the shape of a build list makes the
    resolver raise, and nothing catches it: a body that is not an object
    gives an AttributeError; a non-zero count without a [value] key gives
    KeyError('value'); a [value] that cannot be iterated gives a TypeError;
    an entry that is not an object and precedes every succeeded build gives
    an AttributeError.  No diagnostic is printed in these cases. *)
Theorem get_azure_build_commit_malformed_body
    (w : world) (org project definition_id branch build_number pat : json) (t : trace)
    (data : json)
    (Hbody : azure_body w org project definition_id branch build_number pat t data) :
  let r := get_azure_build_commit w org project definition_id branch build_number pat t in
  let sent :=
    t ++ [Print (DFetchingBuild build_number org project);
          azure_request w org project definition_id branch build_number pat] in
  (is_obj data = false -> r = (Raise AttributeError, sent))
  /\ (forall kvs count,
        data = JObj kvs -> assoc "count" kvs = Some count -> eq_zero count = false ->
        (assoc "value" kvs = None -> r = (Raise (KeyError "value"), sent))
        /\ (forall value,
              assoc "value" kvs = Some value -> py_iter value = Err TypeError ->
              r = (Raise TypeError, sent))
        /\ (forall pre bad post,
              assoc "value" kvs = Some (JArr (pre ++ bad :: post)) ->
              Forall other_build pre -> is_obj bad = false ->
              r = (Raise AttributeError, sent))).
Proof.
  cbv zeta. unfold azure_body in Hbody.
  unfold azure_request, get_azure_build_commit. step_prog. rewrite Hbody.
  split.
  - intros Hobj. destruct data; try discriminate; cbn; rewrite <- !app_assoc; reflexivity.
  - intros kvs count -> Hcount Hnz. cbn [py_get]. rewrite Hcount. cbn beta iota.
    rewrite Hnz. cbn [py_getitem]. repeat split.
    + intros ->. cbn beta iota. now rewrite <- !app_assoc.
    + intros value -> Hiter. cbn beta iota. rewrite Hiter. cbn beta iota.
      now rewrite <- !app_assoc.
    + intros pre bad post -> Hpre Hbad. cbn [py_iter]. cbn beta iota.
      assert (Hnext : next_succeeded (pre ++ bad :: post) = Err AttributeError).
      { induction Hpre as [|x l [Ho Hs] _ IH].
        - destruct bad; try discriminate; reflexivity.
        - destruct x; try discriminate. simpl in *.
          destruct (assoc "result" kvs0); [now rewrite Hs|exact IH]. }
      rewrite Hnext. cbn beta iota. now rewrite <- !app_assoc.
Qed.

Lemma get_azure_build_commit_malformed_body_witness :
  azure_body (demo_world None (HttpBody (Some (JArr []))) ProcNotFound)
    (JStr "org") (JStr "proj") JNull JNull (JStr "1.2.3") JNull [] (JArr [])
  /\ fst (get_azure_build_commit (demo_world None (HttpBody (Some (JArr []))) ProcNotFound)
            (JStr "org") (JStr "proj") JNull JNull (JStr "1.2.3") JNull [])
     = Raise AttributeError.
Proof.
  split; [reflexivity|].
  pose proof (get_azure_build_commit_malformed_body
                (demo_world None (HttpBody (Some (JArr []))) ProcNotFound)
                (JStr "org") (JStr "proj") JNull JNull (JStr "1.2.3") JNull [] (JArr [])
                eq_refl) as H.
  cbv zeta in H. destruct H as [H _]. now rewrite (H eq_refl).
Defined.

(** ** The fetcher: one process *)

Lemma collect_commit_prints c acc :
  adds (fun e => is_print e = true) (collect_commit c acc).
Proof. unfold collect_commit. adds_auto; reflexivity. Qed.

Lemma collect_commit_length c acc t acc' t' :
  collect_commit c acc t = (Ret acc', t') -> length acc' <= S (length acc).
Proof.
  unfold collect_commit. step_prog.
  repeat (cbn [fst snd]; split_match; step_prog); intros [= <- _];
    rewrite ?length_app; cbn [length]; lia.
Qed.

Lemma for_each_collect_length entries : forall acc t acc' t',
  for_each entries collect_commit acc t = (Ret acc', t') ->
  length acc' <= length acc + length entries.
Proof.
  induction entries as [|c entries IH]; intros acc t acc' t'.
  - intros [= <- _]. cbn [length]. lia.
  - cbn [for_each]. unfold bind.
    destruct (collect_commit c acc t) as [[a|e|k] t1] eqn:E; try discriminate.
    intros H. apply IH in H. apply collect_commit_length in E. cbn [length]. lia.
Qed.

Lemma get_github_commits_between_events
    (w : world) (repo sha1 sha2 : json) (t : trace) :
  let r := get_github_commits_between w repo sha1 sha2 t in
  let url := compare_url_of w repo sha1 sha2 in
  (forall short1 short2,
     slice7 sha1 = Ok short1 -> slice7 sha2 = Ok short2 ->
     exists rest,
       snd r = t ++ [Print (DCompareUrl url); Print (DFetchingCommits short1 short2 repo);
                      RunProcess (gh_command w repo sha1 sha2)] ++ rest
       /\ Forall (fun e => is_print e = true) rest)
  /\ (forall e, slice7 sha1 = Err e -> r = (Raise e, t ++ [Print (DCompareUrl url)]))
  /\ (forall short1 e, slice7 sha1 = Ok short1 -> slice7 sha2 = Err e ->
        r = (Raise e, t ++ [Print (DCompareUrl url)])).
Proof.
  cbv zeta. unfold get_github_commits_between, gh_command.
  unfold bind at 1, print at 1, emit at 1. unfold bind at 1. split; [|split].
  - intros short1 short2 -> ->. cbn [lift]. unfold ret at 1. unfold bind at 1.
    unfold ret at 1. unfold bind at 1, print at 1, emit at 1.
    unfold bind at 1, subprocess_run at 1.
    match goal with
    | |- context [snd (?m ?t0)] =>
        assert (Hm : adds (fun e => is_print e = true) m)
    end.
    { adds_auto; try reflexivity. apply collect_commit_prints. }
    match goal with
    | |- context [snd (?m ?t0)] => destruct (Hm t0) as (rest & E & Hrest)
    end.
    exists rest. split; [|exact Hrest]. rewrite E. rewrite <- !app_assoc. reflexivity.
  - intros e ->. reflexivity.
  - intros short1 e -> ->. reflexivity.
Qed.

(** X8. With SHAs that can be sliced, the fetcher prints the comparison
    URL and the announcement, launches exactly one process,
    [gh api repos/{repo}/compare/{sha1}...{sha2}], and afterwards only
    prints.  A SHA that cannot be sliced (a number, for instance) raises a
    TypeError after the URL is printed and before any process is
    launched. *)
Theorem get_github_commits_between_one_process
    (w : world) (repo sha1 sha2 : json) (t : trace) :
  let r := get_github_commits_between w repo sha1 sha2 t in
  let url := compare_url_of w repo sha1 sha2 in
  (forall short1 short2,
     slice7 sha1 = Ok short1 -> slice7 sha2 = Ok short2 ->
     exists rest,
       snd r = t ++ [Print (DCompareUrl url); Print (DFetchingCommits short1 short2 repo);
                      RunProcess (gh_command w repo sha1 sha2)] ++ rest
       /\ Forall (fun e => is_print e = true) rest)
  /\ (forall e, slice7 sha1 = Err e -> r = (Raise e, t ++ [Print (DCompareUrl url)]))
  /\ (forall short1 e, slice7 sha1 = Ok short1 -> slice7 sha2 = Err e ->
        r = (Raise e, t ++ [Print (DCompareUrl url)])).
Proof. apply get_github_commits_between_events. Qed.

Lemma get_github_commits_between_one_process_witness :
  slice7 (JInt 5) = Err TypeError
  /\ fst (get_github_commits_between fetch_world (JStr "org/repo") (JInt 5) (JStr "bbb") [])
     = Raise TypeError.
Proof.
  split; [reflexivity|].
  pose proof (get_github_commits_between_one_process fetch_world (JStr "org/repo")
                (JInt 5) (JStr "bbb") []) as H.
  cbv zeta in H. destruct H as (_ & H & _). now rewrite (H TypeError eq_refl).
Defined.

(** X9. The fetcher never returns more records than the [commits] value of
    the answer has entries, whatever their shape; and it returns records
    only when the process ended with status 0 and JSON output. *)
Theorem get_github_commits_between_bounded
    (w : world) (repo sha1 sha2 : string) (t : trace)
    (commit_list : list json) (url : string) (t' : trace)
    (Hfetch : get_github_commits_between w (JStr repo) (JStr sha1) (JStr sha2) t
              = (Ret (commit_list, url), t')) :
  commit_list = []
  \/ exists kvs stderr entries,
       gh_answer w repo sha1 sha2 t = ProcDone 0 (Some (JObj kvs)) stderr
       /\ py_iter (match assoc "commits" kvs with Some c => c | None => JArr [] end)
          = Ok entries
       /\ length commit_list <= length entries.
Proof.
  revert Hfetch. unfold gh_answer, get_github_commits_between, compare_url_of.
  cbn [fmt]. step_prog. cbn [slice7]. cbn beta iota.
  destruct (run_process w _ _) as [rc out err| |];
    try (intros [= <- _ _]; now left).
  destruct (Z.eqb_spec rc 0) as [->|Hrc]; cbn [negb];
    [|intros [= <- _ _]; now left].
  destruct out as [data|]; [|intros [= <- _ _]; now left].
  destruct data as [| | | | | |kvs]; try discriminate. cbn [py_get]. cbn beta iota.
  destruct (py_len _) as [n|e]; [|discriminate]. cbn beta iota.
  destruct (py_iter _) as [entries|e] eqn:Hiter; [|discriminate]. cbn beta iota.
  destruct (for_each entries collect_commit [] _) as [[cl|e|c] t1] eqn:Hloop;
    try discriminate.
  intros [= <- _ _]. right. exists kvs, err, entries.
  split; [reflexivity|]. split; [exact Hiter|].
  apply for_each_collect_length in Hloop. cbn [length] in Hloop. lia.
Qed.

Lemma get_github_commits_between_bounded_witness :
  get_github_commits_between fetch_world (JStr "org/repo") (JStr "aaa") (JStr "bbb") []
  = (Ret ([commit_info_of demo_entry], "https://github.com/org/repo/compare/aaa...bbb"),
     snd (get_github_commits_between fetch_world (JStr "org/repo") (JStr "aaa")
            (JStr "bbb") []))
  /\ ([commit_info_of demo_entry] = []
      \/ exists kvs stderr entries,
           gh_answer fetch_world "org/repo" "aaa" "bbb" []
           = ProcDone 0 (Some (JObj kvs)) stderr
           /\ py_iter (match assoc "commits" kvs with Some c => c | None => JArr [] end)
              = Ok entries
           /\ length [commit_info_of demo_entry] <= length entries).
Proof.
  assert (H : get_github_commits_between fetch_world (JStr "org/repo") (JStr "aaa")
                (JStr "bbb") []
    = (Ret ([commit_info_of demo_entry], "https://github.com/org/repo/compare/aaa...bbb"),
       snd (get_github_commits_between fetch_world (JStr "org/repo") (JStr "aaa")
              (JStr "bbb") [])))
    by (vm_compute; reflexivity).
  split; [exact H|].
  exact (get_github_commits_between_bounded _ _ _ _ _ _ _ _ H).
Defined.

(** ** The report writer: the document *)

Lemma write_commit_line w repo path c line t :
  line_of w repo c = Some line ->
  write_commit w repo path c tt t = (Ret tt, t ++ [FileWrite path line]).
Proof.
  unfold line_of, write_commit, commit_line.
  destruct c as [| | | | | |kvs]; try discriminate. cbn [field]. step_prog.
  cbn [py_getitem].
  destruct (assoc "sha" kvs) as [sha|]; [|discriminate].
  destruct (assoc "message" kvs) as [[| | | |m| |]|]; try discriminate.
  destruct (assoc "author" kvs) as [author|]; [|discriminate].
  destruct (assoc "date" kvs) as [date|]; [|discriminate].
  intros [= <-]. cbn. now rewrite !str_app_assoc.
Qed.

Lemma write_commit_skip w repo path c key t :
  first_missing c = Some key ->
  write_commit w repo path c tt t = (Ret tt, t ++ [Print (DSkipMissingField key)]).
Proof.
  unfold first_missing, write_commit.
  destruct c as [| | | | | |kvs]; try discriminate. step_prog. cbn [py_getitem].
  destruct (assoc "sha" kvs) as [sha|]; [|now intros [= <-]].
  destruct (assoc "message" kvs) as [[| | | |m| |]|]; try discriminate;
    [|now intros [= <-]].
  cbn [split_first_line]. cbn beta iota.
  destruct (assoc "author" kvs) as [author|]; [|now intros [= <-]].
  destruct (assoc "date" kvs) as [date|]; [discriminate|now intros [= <-]].
Qed.

Lemma for_each_write_lines w repo path commit_list : forall t,
  Forall (fun c => is_Some (line_of w repo c)) commit_list ->
  for_each commit_list (write_commit w repo path) tt t
  = (Ret tt, t ++ map (FileWrite path) (lines_of w repo commit_list)).
Proof.
  induction commit_list as [|c l IH]; intros t H.
  - cbn. now rewrite app_nil_r.
  - inversion H as [|? ? [line Hc] Hl]; subst. cbn [for_each lines_of].
    unfold bind. rewrite (write_commit_line _ _ _ _ _ _ Hc).
    rewrite IH by assumption. rewrite Hc. cbn [map]. now rewrite <- app_assoc.
Qed.

Lemma for_each_write_links path (links : list string) : forall t,
  for_each links (fun link (_ : unit) => write path ("- " +:+ link +:+ nl)) tt t
  = (Ret tt, t ++ map (FileWrite path) (map (fun link => "- " +:+ link +:+ nl) links)).
Proof.
  induction links as [|x l IH]; intros t.
  - cbn. now rewrite app_nil_r.
  - cbn [for_each map]. unfold bind, write, emit. rewrite IH.
    now rewrite <- app_assoc.
Qed.

(** What the writer does on a list of complete records. *)
Lemma export_to_markdown_complete w commit_list refs_links repo compare_url output_file t :
  Forall (fun c => is_Some (line_of w repo c)) commit_list ->
  export_to_markdown w commit_list refs_links repo compare_url output_file t
  = if open_write w t output_file
    then (Ret tt,
          t ++ FileOpen output_file
            :: map (FileWrite output_file)
                 (document w repo compare_url (now w (t ++ [FileOpen output_file]))
                    commit_list refs_links)
            ++ [Print (DMarkdownCreated output_file)])
    else (Ret tt, t ++ [FileOpen output_file; Print (DWriteError output_file)]).
Proof.
  intros Hlines. unfold export_to_markdown.
  unfold bind at 1, open_for_writing at 1.
  destruct (open_write w t output_file); cbn [negb].
  2:{ unfold print, emit. now rewrite <- app_assoc. }
  unfold bind at 1, strftime_now at 1. cbn beta iota.
  do 3 (unfold bind at 1, write at 1, emit at 1; cbn beta iota).
  unfold bind at 1.
  assert (Hcommits : forall t0,
    match commit_list with
    | [] => write output_file ("No commits found." +:+ nl)
    | _ :: _ => for_each commit_list (write_commit w repo output_file) tt
    end t0
    = (Ret tt, t0 ++ map (FileWrite output_file)
                       match commit_list with
                       | [] => ["No commits found." +:+ nl]
                       | _ => lines_of w repo commit_list
                       end)).
  { intros t0. destruct commit_list as [|c l]; [reflexivity|].
    now apply for_each_write_lines. }
  rewrite Hcommits. unfold bind at 1, write at 1, emit at 1. cbn beta iota.
  unfold bind at 1.
  assert (Hrefs : forall t0,
    match refs_links with
    | [] => write output_file ("No ticket references found." +:+ nl)
    | _ :: _ =>
        for_each refs_links
          (fun link (_ : unit) => write output_file ("- " +:+ link +:+ nl)) tt
    end t0
    = (Ret tt, t0 ++ map (FileWrite output_file)
                       match refs_links with
                       | [] => ["No ticket references found." +:+ nl]
                       | _ => map (fun link => "- " +:+ link +:+ nl) refs_links
                       end)).
  { intros t0. destruct refs_links as [|x l]; [reflexivity|].
    apply for_each_write_links. }
  rewrite Hrefs. unfold bind at 1, write at 1, emit at 1. cbn beta iota.
  unfold print, emit. f_equal. unfold document.
  rewrite !map_app. cbn [map]. rewrite <- !app_assoc. cbn [app]. reflexivity.
Qed.

Lemma lines_of_complete w repo commit_list :
  Forall (fun c => is_Some (line_of w repo c)) commit_list ->
  length (lines_of w repo commit_list) = length commit_list.
Proof.
  induction 1 as [|c l [line Hc] _ IH]; [reflexivity|].
  cbn [lines_of length]. rewrite Hc. cbn [length]. now rewrite IH.
Qed.

(** X10. When the file opens, the report of a list of complete records is
    written in this order and nothing else is: the heading with the
    timestamp, the comparison link, the commit section with one line per
    record (or the "No commits found." line for an empty list), the
    reference section with one line per link (or its placeholder), and the
    footer with the same timestamp; the writer then reports the file and
    returns. *)
Theorem export_to_markdown_document
    (w : world) (commit_list : list json) (refs_links : list string) (repo : json)
    (compare_url output_file : string) (t : trace)
    (Hcomplete : Forall (fun c => is_Some (line_of w repo c)) commit_list)
    (Hopen : open_write w t output_file = true) :
  export_to_markdown w commit_list refs_links repo compare_url output_file t
  = (Ret tt,
     t ++ FileOpen output_file
       :: map (FileWrite output_file)
            (document w repo compare_url (now w (t ++ [FileOpen output_file]))
               commit_list refs_links)
       ++ [Print (DMarkdownCreated output_file)])
  /\ length (lines_of w repo commit_list) = length commit_list
  /\ length (document w repo compare_url (now w (t ++ [FileOpen output_file]))
               commit_list refs_links)
     = 5 + Nat.max 1 (length commit_list) + Nat.max 1 (length refs_links).
Proof.
  split; [|split].
  - rewrite export_to_markdown_complete by assumption. now rewrite Hopen.
  - now apply lines_of_complete.
  - unfold document. rewrite !length_app. cbn [length].
    pose proof (lines_of_complete _ _ _ Hcomplete) as Hlen.
    destruct commit_list as [|c l]; destruct refs_links as [|x r];
      rewrite ?Hlen, ?length_map; cbn [length]; lia.
Qed.

Lemma export_to_markdown_document_witness :
  Forall (fun c => is_Some (line_of fetch_world (JStr "org/repo") c)) [example_commit]
  /\ open_write fetch_world [] "report.md" = true
  /\ fst (export_to_markdown fetch_world [example_commit] [] (JStr "org/repo") "url"
            "report.md" []) = Ret tt.
Proof.
  assert (H : Forall (fun c => is_Some (line_of fetch_world (JStr "org/repo") c))
                [example_commit]).
  { constructor; [|constructor]. eexists. reflexivity. }
  split; [exact H|]. split; [reflexivity|].
  destruct (export_to_markdown_document fetch_world [example_commit] [] (JStr "org/repo")
              "url" "report.md" [] H eq_refl) as [E _].
  now rewrite E.
Defined.

Lemma write_commit_adds w repo path c u :
  adds (writer_event path) (write_commit w repo path c u).
Proof. unfold write_commit. adds_auto; cbv; auto. Qed.

Lemma export_to_markdown_events w commit_list refs_links repo compare_url output_file t :
  exists rest,
    snd (export_to_markdown w commit_list refs_links repo compare_url output_file t)
    = t ++ FileOpen output_file :: rest
    /\ Forall (writer_event output_file) rest.
Proof.
  unfold export_to_markdown. unfold bind at 1, open_for_writing at 1.
  match goal with
  | |- context [snd (?m ?t0)] =>
      assert (Hm : adds (writer_event output_file) m);
      [|destruct (Hm t0) as (rest & E & Hrest)]
  end.
  - adds_auto; try (cbv; auto; fail). apply write_commit_adds.
  - exists rest. rewrite E. split; [now rewrite <- app_assoc|exact Hrest].
Qed.

(** X11. The writer opens [output_file] once, first, and touches no other
    file, sends nothing and launches nothing; when the file cannot be
    opened it writes nothing, prints the error and returns normally,
    whatever the records are. *)
Theorem export_to_markdown_one_file
    (w : world) (commit_list : list json) (refs_links : list string) (repo : json)
    (compare_url output_file : string) (t : trace) :
  let r := export_to_markdown w commit_list refs_links repo compare_url output_file t in
  (exists rest,
     snd r = t ++ FileOpen output_file :: rest
     /\ Forall (writer_event output_file) rest)
  /\ (open_write w t output_file = false ->
      r = (Ret tt, t ++ [FileOpen output_file; Print (DWriteError output_file)])).
Proof.
  cbv zeta. split.
  - apply export_to_markdown_events.
  - unfold export_to_markdown. unfold bind at 1, open_for_writing at 1.
    intros ->. cbn [negb]. unfold print, emit. now rewrite <- app_assoc.
Qed.

Lemma export_to_markdown_one_file_witness :
  open_write readonly_world [] "report.md" = false
  /\ export_to_markdown readonly_world [example_commit] [] (JStr "org/repo") "url"
       "report.md" []
     = (Ret tt, [FileOpen "report.md"; Print (DWriteError "report.md")]).
Proof.
  split; [reflexivity|].
  exact (proj2 (export_to_markdown_one_file readonly_world [example_commit] []
                  (JStr "org/repo") "url" "report.md" []) eq_refl).
Defined.

Lemma for_each_app {A S} (l1 l2 : list A) (body : A -> S -> M S) s t :
  for_each (l1 ++ l2) body s t = bind (for_each l1 body s) (for_each l2 body) t.
Proof.
  revert s t; induction l1 as [|x l IH]; intros s t; [reflexivity|].
  cbn [app for_each]. unfold bind.
  destruct (body x s t) as [[s'|e|c] t1]; try reflexivity.
  rewrite IH. reflexivity.
Qed.

(** X12. In the commit section a record that lacks one of the four keys is
    skipped: the writer prints a diagnostic naming the first key it misses
    (in the order sha, message, author, date), writes no line for it, and
    goes on with the records that follow.  A message that is present but is
    not a string is not caught: an AttributeError escapes. *)
Theorem write_commit_skips_incomplete
    (w : world) (repo : json) (output_file : string) (t : trace) :
  (forall before c after key,
     Forall (fun c => is_Some (line_of w repo c)) before ->
     Forall (fun c => is_Some (line_of w repo c)) after ->
     first_missing c = Some key ->
     for_each (before ++ c :: after) (write_commit w repo output_file) tt t
     = (Ret tt,
        t ++ map (FileWrite output_file) (lines_of w repo before)
          ++ Print (DSkipMissingField key)
          :: map (FileWrite output_file) (lines_of w repo after)))
  /\ (forall kvs sha message,
        assoc "sha" kvs = Some sha -> assoc "message" kvs = Some message ->
        is_str message = false ->
        write_commit w repo output_file (JObj kvs) tt t = (Raise AttributeError, t)).
Proof.
  split.
  - intros before c after key Hb Ha Hc.
    rewrite for_each_app. unfold bind. rewrite for_each_write_lines by assumption.
    cbn [for_each]. unfold bind. rewrite (write_commit_skip _ _ _ _ _ _ Hc).
    rewrite for_each_write_lines by assumption.
    now rewrite <- !app_assoc.
  - intros kvs sha message Hs Hm Hstr. unfold write_commit. step_prog.
    cbn [py_getitem]. rewrite Hs, Hm. cbn beta iota.
    destruct message; try discriminate; reflexivity.
Qed.

Lemma write_commit_skips_incomplete_witness :
  first_missing (JObj [("sha", JStr "abcdef1"); ("message", JStr "m")]) = Some "author"
  /\ for_each ([example_commit] ++ JObj [("sha", JStr "abcdef1"); ("message", JStr "m")] :: [])
       (write_commit fetch_world (JStr "org/repo") "report.md") tt []
     = (Ret tt, [FileWrite "report.md" example_line; Print (DSkipMissingField "author")]).
Proof.
  split; [reflexivity|].
  assert (H : Forall (fun c => is_Some (line_of fetch_world (JStr "org/repo") c))
                [example_commit]).
  { constructor; [|constructor]. eexists. reflexivity. }
  rewrite (proj1 (write_commit_skips_incomplete fetch_world (JStr "org/repo")
                    "report.md" [])
             [example_commit] (JObj [("sha", JStr "abcdef1"); ("message", JStr "m")])
             [] "author" H (List.Forall_nil _) eq_refl).
  vm_compute. reflexivity.
Defined.

(** ** Whole runs *)

Lemma record_complete w repo c :
  is_commit_record c -> is_Some (line_of w repo c) /\ scannable c = true.
Proof.
  intros (sha & m & a & d & n & -> & _). split; [eexists|]; reflexivity.
Qed.

(** X13. A run in which two SHAs resolve, the fetcher returns at least
    one record and the name of the report,
    [{config stem}_{build1}_{build2}_commit_report.md], is ASCII text
    without a NUL character, always returns normally (status 0): the
    reference extractor returns its links, then the report of that name is
    opened, and every later event is a write to that file or console
    output, whether or not the file could be opened.  (A name with a NUL
    character makes [open] raise a ValueError, which the writer does not
    catch; such names are outside the statement.) *)
Theorem main_writes_report
    (w : world) (g : globals) (t : trace) (build1 build2 sha1 sha2 : json)
    (t1 : trace) (c : json) (commit_list : list json) (url : string) (t2 : trace)
    (Hresolved : resolves w g t build1 build2 [sha1; sha2] t1)
    (Hfetch : get_github_commits_between w (GITHUB_REPO g) sha1 sha2 t1
              = (Ret (c :: commit_list, url), t2))
    (Hname : file_name (report_name w g build1 build2)) :
  exists refs_links t3 rest,
    analyze_commits (c :: commit_list) default_jira_base_url t2 = (Ret refs_links, t3)
    /\ main w g t = (Ret tt, t3 ++ FileOpen (report_name w g build1 build2) :: rest)
    /\ Forall (writer_event (report_name w g build1 build2)) rest
    /\ exit_code (fst (main w g t)) = 0%Z.
Proof.
  destruct Hresolved as (ta & tb & E1 & E2 & E3).
  pose proof (get_github_commits_between_records _ _ _ _ _ _ _ _ Hfetch) as Hrec.
  assert (Hscan : Forall (fun x => scannable x = true) (c :: commit_list)).
  { eapply Forall_impl; [exact Hrec|]. intros x Hx. now apply (record_complete w JNull). }
  assert (Hlines : Forall (fun x => is_Some (line_of w (GITHUB_REPO g) x)) (c :: commit_list)).
  { eapply Forall_impl; [exact Hrec|]. intros x Hx. now apply record_complete. }
  pose proof (analyze_commits_links _ default_jira_base_url t2 Hscan) as Hlinks.
  destruct (analyze_commits (c :: commit_list) default_jira_base_url t2)
    as [o t3] eqn:Ea. cbn [fst] in Hlinks. subst o.
  destruct (export_to_markdown_events w (c :: commit_list)
              (map (fun ref => default_jira_base_url +:+ ref)
                 (sorted (⋃ (keys_of <$> c :: commit_list))))
              (GITHUB_REPO g) url (report_name w g build1 build2) t3) as (rest & Ee & Hrest).
  pose proof (export_to_markdown_complete w (c :: commit_list)
                (map (fun ref => default_jira_base_url +:+ ref)
                   (sorted (⋃ (keys_of <$> c :: commit_list))))
                (GITHUB_REPO g) url (report_name w g build1 build2) t3 Hlines) as Hex.
  assert (Hmain : main w g t
                  = (Ret tt, t3 ++ FileOpen (report_name w g build1 build2) :: rest)).
  { unfold main. unfold bind at 1. rewrite E1. cbn [fst snd].
    unfold bind at 1. rewrite E2. unfold bind at 1. rewrite E3.
    cbn [length Nat.ltb Nat.leb]. unfold report. unfold bind at 1. rewrite Hfetch.
    cbn [fst snd]. unfold bind at 1. rewrite Ea.
    fold (report_name w g build1 build2).
    destruct (export_to_markdown w _ _ _ _ _ t3) as [o t4]. cbn [snd] in Ee. subst t4.
    destruct (open_write w t3 _); injection Hex as -> _; reflexivity. }
  eexists _, t3, rest. split; [reflexivity|]. split; [exact Hmain|].
  split; [exact Hrest|]. now rewrite Hmain.
Qed.

Lemma main_writes_report_witness :
  file_name (report_name report_world two_builds (JStr "1.2.3") (JStr "1.2.4"))
  /\ exit_code (fst (main report_world two_builds [])) = 0%Z.
Proof.
  assert (Hn : file_name (report_name report_world two_builds (JStr "1.2.3")
                            (JStr "1.2.4")))
    by (split; vm_compute; reflexivity).
  split; [exact Hn|].
  assert (H : resolves report_world two_builds [] (JStr "1.2.3") (JStr "1.2.4")
    [JStr "0123456789abcdef"; JStr "0123456789abcdef"]
    (snd (resolve_shas report_world two_builds (JStr "1.2.3") (JStr "1.2.4")
            (snd (warn_formats (JStr "1.2.3") (JStr "1.2.4")
                    (snd (choose_builds two_builds []))))))).
  { exists (snd (choose_builds two_builds [])).
    exists (snd (warn_formats (JStr "1.2.3") (JStr "1.2.4")
                  (snd (choose_builds two_builds [])))).
    repeat split; vm_compute; reflexivity. }
  destruct (main_writes_report report_world two_builds [] _ _ _ _ _
              (commit_info_of demo_entry) []
              "https://github.com/org/repo/compare/0123456789abcdef...0123456789abcdef"
              (snd (get_github_commits_between report_world (JStr "org/repo")
                      (JStr "0123456789abcdef") (JStr "0123456789abcdef")
                      (snd (resolve_shas report_world two_builds (JStr "1.2.3")
                              (JStr "1.2.4")
                              (snd (warn_formats (JStr "1.2.3") (JStr "1.2.4")
                                      (snd (choose_builds two_builds []))))))))
              H) as (refs & t3 & rest & _ & _ & _ & E).
  - vm_compute. reflexivity.
  - exact Hn.
  - exact E.
Defined.

(** ** Exit status *)

Section ExitsOne.

Lemma exits_ret {A} (a : A) : exits_one (ret a).
Proof. intros t c; discriminate. Qed.

Lemma exits_raise {A} e : exits_one (@raise A e).
Proof. intros t c; discriminate. Qed.

Lemma exits_lift {A} (r : result A) : exits_one (lift r).
Proof. destruct r; [apply exits_ret|apply exits_raise]. Qed.

Lemma exits_emit e : exits_one (emit e).
Proof. intros t c; discriminate. Qed.

Lemma exits_sys_exit {A} : exits_one (@sys_exit A 1).
Proof. intros t c [= <-]. reflexivity. Qed.

Lemma exits_bind {A B} (m : M A) (f : A -> M B) :
  exits_one m -> (forall a, exits_one (f a)) -> exits_one (bind m f).
Proof.
  intros Hm Hf t c. unfold bind. specialize (Hm t).
  destruct (m t) as [[a|e|c'] t']; cbn [fst] in *.
  - apply Hf.
  - discriminate.
  - intros [= <-]. now apply Hm.
Qed.

Lemma exits_catch_key {A} (m : M A) (h : string -> M A) :
  exits_one m -> (forall k, exits_one (h k)) -> exits_one (catch_key m h).
Proof.
  intros Hm Hh t c. unfold catch_key. specialize (Hm t).
  destruct (m t) as [[a|[k| | |]|c'] t']; cbn [fst] in *; try discriminate.
  - apply Hh.
  - intros [= <-]. now apply Hm.
Qed.

Lemma exits_for_each {A S} (l : list A) (body : A -> S -> M S) :
  (forall x s, exits_one (body x s)) -> forall s, exits_one (for_each l body s).
Proof.
  intros H. induction l as [|x l IH]; intros s; [apply exits_ret|].
  cbn [for_each]. apply exits_bind; [apply H|exact IH].
Qed.

Lemma exits_oracle {A} (f : trace -> A) (e : event) :
  exits_one (fun t => (Ret (f t), t ++ [e])).
Proof. intros t c; discriminate. Qed.

Lemma exits_now w : exits_one (strftime_now w).
Proof. intros t c; discriminate. Qed.

End ExitsOne.

Ltac exits_step :=
  match goal with
  | |- exits_one (bind _ _) => apply exits_bind; [|intros ?]
  | |- exits_one (ret _) => apply exits_ret
  | |- exits_one (raise _) => apply exits_raise
  | |- exits_one (sys_exit 1) => apply exits_sys_exit
  | |- exits_one (lift _) => apply exits_lift
  | |- exits_one (print _) => apply exits_emit
  | |- exits_one (write _ _) => apply exits_emit
  | |- exits_one (emit _) => apply exits_emit
  | |- exits_one (http_request _ _ _ _) => apply (exits_oracle (fun t => http_get _ t _ _ _))
  | |- exits_one (subprocess_run _ _) => apply (exits_oracle (fun t => run_process _ t _))
  | |- exits_one (open_for_writing _ _) => apply (exits_oracle (fun t => open_write _ t _))
  | |- exits_one (strftime_now _) => apply exits_now
  | |- exits_one (catch_key _ _) => apply exits_catch_key; [|intros ?]
  | |- exits_one (for_each _ _ _) => apply exits_for_each; intros ? ?
  | |- exits_one (match ?x with _ => _ end) => destruct x
  | |- exits_one (if ?x then _ else _) => destruct x
  | |- exits_one (let _ := _ in _) => cbv zeta
  end.

Ltac exits_auto :=
  repeat (exits_step
          || unfold get_azure_build_commit, collect_commit, get_github_commits_between,
               scan_commit, analyze_commits, write_commit, export_to_markdown,
               choose_builds, warn_formats, resolve_shas, report, main, program).

Lemma program_exits_one w args : exits_one (program w args).
Proof. exits_auto. Qed.

(** X14. Every run of the program ends with status 0 or 1: status 0
    exactly when [main] returned, status 1 for each [sys.exit] of the
    script and for every exception that escapes. *)
Theorem program_status (w : world) (args : list string) :
  let o := fst (program w args []) in
  (exit_code o = 0%Z \/ exit_code o = 1%Z)
  /\ (exit_code o = 0%Z <-> o = Ret tt)
  /\ (forall c, o = Exit c -> c = 1%Z).
Proof.
  cbv zeta. pose proof (program_exits_one w args [] ) as H.
  destruct (fst (program w args [])) as [[]|e|c]; cbn [exit_code].
  - repeat split; auto.
  - repeat split; auto; try discriminate.
  - specialize (H c eq_refl). subst c. repeat split; auto; try discriminate.
    intros c [= <-]. reflexivity.
Qed.

(** ** The module body *)

(** X15. Without a configuration path the program prints the usage line
    and exits with status 1; a configuration that cannot be read or decoded
    gives the load diagnostic and status 1; a configuration that is JSON
    but not an object is not diagnosed: the AttributeError of the first
    [config.get] escapes.  Nothing else happens in these runs.  With a
    configuration object the run is [main] on the globals read from it,
    absent keys giving None and an absent BUILD_NUMBERS the empty list. *)
Theorem program_module_body (w : world) (args : list string) :
  (length args < 2 -> program w args [] = (Exit 1, [Print DUsage]))
  /\ (2 <= length args -> read_config w (nth 1 args "") = None ->
      program w args [] = (Exit 1, [Print DConfigLoadFailed]))
  /\ (2 <= length args -> forall config,
        read_config w (nth 1 args "") = Some config -> is_obj config = false ->
        program w args [] = (Raise AttributeError, []))
  /\ (2 <= length args -> forall kvs,
        read_config w (nth 1 args "") = Some (JObj kvs) ->
        program w args [] = main w (globals_of args kvs) []).
Proof.
  unfold program. repeat split.
  - intros H. apply Nat.ltb_lt in H. now rewrite H.
  - intros H Hc. apply Nat.ltb_ge in H. now rewrite H, Hc.
  - intros H config Hc Ho. apply Nat.ltb_ge in H. rewrite H, Hc.
    destruct config; try discriminate; reflexivity.
  - intros H kvs Hc. apply Nat.ltb_ge in H. rewrite H, Hc. reflexivity.
Qed.

Lemma program_module_body_witness :
  length ["GetGitHubCommitsFromDevOpsBuild.py"] < 2
  /\ program azure_world ["GetGitHubCommitsFromDevOpsBuild.py"] [] = (Exit 1, [Print DUsage]).
Proof.
  assert (H : length ["GetGitHubCommitsFromDevOpsBuild.py"] < 2) by (cbn; lia).
  split; [exact H|].
  exact (proj1 (program_module_body azure_world ["GetGitHubCommitsFromDevOpsBuild.py"]) H).
Defined.

(** ** The phases of a run *)

Lemma count_events_app f d1 d2 :
  count_events f (d1 ++ d2) = count_events f d1 + count_events f d2.
Proof. unfold count_events. now rewrite List.filter_app, length_app. Qed.

Lemma count_events_none f d :
  Forall (fun e => f e = false) d -> count_events f d = 0.
Proof.
  induction 1 as [|e d He _ IH]; [reflexivity|].
  unfold count_events in *. cbn [List.filter]. now rewrite He.
Qed.

Lemma print_not_http e : is_print e = true -> is_http e = false.
Proof. destruct e; cbn; congruence. Qed.

Lemma print_not_process e : is_print e = true -> is_process e = false.
Proof. destruct e; cbn; congruence. Qed.

Lemma print_not_file e : is_print e = true -> is_file e = false.
Proof. destruct e; cbn; congruence. Qed.

Lemma print_not_open e : is_print e = true -> is_open e = false.
Proof. destruct e; cbn; congruence. Qed.

Lemma resolve_turn_requests w g build_num commit_shas t o t' :
  resolve_turn w g build_num commit_shas t = (o, t') ->
  exists d, t' = t ++ d /\ Forall resolving_event d /\ count_events is_http d = 1.
Proof.
  unfold resolve_turn, bind.
  destruct (get_azure_build_commit_trace w (ORG g) (PROJECT g) (DEFINITION_ID g)
              (BRANCH g) build_num (AZURE_PAT g) t) as (rest & E & H).
  cbv zeta in E, H.
  pose proof (get_azure_build_commit_no_exit w (ORG g) (PROJECT g) (DEFINITION_ID g)
                (BRANCH g) build_num (AZURE_PAT g) t) as Hnoexit.
  destruct (get_azure_build_commit _ _ _ _ _ _ _ t) as [[sha|e|c] t1];
    cbn [fst snd] in *; subst t1; [| |now destruct (Hnoexit c)].
  - intros Hrun.
    assert (t' = t ++ Print (DFetchingBuild build_num (ORG g) (PROJECT g))
                  :: azure_request w (ORG g) (PROJECT g) (DEFINITION_ID g) (BRANCH g)
                       build_num (AZURE_PAT g) :: rest) as ->
      by (destruct (truthy sha); unfold ret in Hrun; congruence).
    eexists. split; [reflexivity|].
    destruct H as [(e & _ & ->)|(v & d & _ & ->)];
      (split; [repeat constructor|reflexivity]).
  - intros [= <- <-]. eexists. split; [reflexivity|].
    destruct H as [(e' & _ & ->)|(v & d & _ & ->)];
      (split; [repeat constructor|reflexivity]).
Qed.

Lemma resolve_shas_requests w g build1 build2 t o t' :
  resolve_shas w g build1 build2 t = (o, t') ->
  exists d, t' = t ++ d /\ Forall resolving_event d /\ count_events is_http d <= 2.
Proof.
  unfold resolve_shas. cbn [for_each]. fold (resolve_turn w g build1 []).
  unfold bind at 1.
  destruct (resolve_turn w g build1 [] t) as [o1 t1] eqn:E1.
  apply resolve_turn_requests in E1 as (d1 & -> & Q1 & H1).
  destruct o1 as [s1|e|c]; [|intros [= <- <-]; exists d1; repeat split; auto; lia..].
  fold (resolve_turn w g build2 s1). unfold bind at 1.
  destruct (resolve_turn w g build2 s1 (t ++ d1)) as [o2 t2] eqn:E2.
  apply resolve_turn_requests in E2 as (d2 & -> & Q2 & H2).
  intros Hrun.
  assert (t' = (t ++ d1) ++ d2) as -> by (destruct o2; unfold ret in Hrun; congruence).
  exists (d1 ++ d2). rewrite app_assoc. split; [reflexivity|].
  split; [apply Forall_app; auto|]. rewrite count_events_app. lia.
Qed.

Lemma get_github_commits_between_phase w repo sha1 sha2 t o t' :
  get_github_commits_between w repo sha1 sha2 t = (o, t') ->
  exists d, t' = t ++ d /\ Forall fetching_event d /\ count_events is_process d <= 1.
Proof.
  intros Hrun.
  pose proof (get_github_commits_between_events w repo sha1 sha2 t) as H.
  cbv zeta in H. rewrite Hrun in H. cbn [snd] in H. destruct H as (Hok & He1 & He2).
  destruct (slice7 sha1) as [short1|e1].
  - destruct (slice7 sha2) as [short2|e2].
    + destruct (Hok short1 short2 eq_refl eq_refl) as (rest & -> & Hrest).
      eexists. split; [reflexivity|]. split.
      * apply Forall_app. split; [repeat constructor|].
        eapply Forall_impl; [exact Hrest|]. intros e He.
        split; [now apply print_not_http|now apply print_not_file].
      * rewrite count_events_app, (count_events_none is_process rest).
        -- reflexivity.
        -- eapply Forall_impl; [exact Hrest|]. apply print_not_process.
    + injection (He2 short1 e2 eq_refl eq_refl) as _ ->.
      eexists. split; [reflexivity|]. split; [repeat constructor|cbn; lia].
  - injection (He1 e1 eq_refl) as _ ->.
    eexists. split; [reflexivity|]. split; [repeat constructor|cbn; lia].
Qed.

Lemma analyze_commits_prints commit_list jira_base_url :
  adds (fun e => is_print e = true) (analyze_commits commit_list jira_base_url).
Proof.
  unfold analyze_commits. adds_auto; try reflexivity.
  unfold scan_commit. adds_auto; reflexivity.
Qed.

Lemma plain_resolving d : Forall plain d -> Forall resolving_event d.
Proof.
  intros H. eapply Forall_impl; [exact H|]. intros e (Hp & _).
  split; [now apply print_not_process|now apply print_not_file].
Qed.

Lemma plain_no_http d : Forall plain d -> count_events is_http d = 0.
Proof.
  intros H. apply count_events_none. eapply Forall_impl; [exact H|].
  intros e (Hp & _). now apply print_not_http.
Qed.

(** The part of a run after the two SHAs are known. *)
Lemma report_phases w g build1 build2 sha1 sha2 t o t' :
  report w g build1 build2 sha1 sha2 t = (o, t') ->
  exists b c,
    t' = t ++ b ++ c
    /\ Forall fetching_event b /\ count_events is_process b <= 1
    /\ Forall reporting_event c /\ count_events is_open c <= 1.
Proof.
  unfold report. unfold bind at 1.
  destruct (get_github_commits_between w (GITHUB_REPO g) sha1 sha2 t)
    as [o1 t1] eqn:E1.
  apply get_github_commits_between_phase in E1 as (d1 & -> & F1 & C1).
  destruct o1 as [[commit_list url]|e|k]; cbn [fst snd].
  2,3: intros [= <- <-]; exists d1, []; rewrite app_nil_r;
       repeat split; auto; try solve [constructor]; try solve [cbn; lia].
  destruct commit_list as [|c0 cl].
  - unfold bind, print, emit, ret. intros [= <- <-].
    exists (d1 ++ [Print DNoCommitsFound]), []. rewrite app_nil_r, app_assoc.
    split; [reflexivity|].
    split; [apply Forall_app; split; [exact F1|repeat constructor]|].
    split; [rewrite count_events_app; cbn; lia|].
    split; [constructor|cbn; lia].
  - unfold bind at 1.
    destruct (analyze_commits (c0 :: cl) default_jira_base_url (t ++ d1)) as [o2 t2] eqn:E2.
    destruct (adds_inv _ _ _ _ _ (analyze_commits_prints _ _) E2) as (d2 & -> & P2).
    assert (R2 : Forall reporting_event d2).
    { eapply Forall_impl; [exact P2|]. intros e He.
      split; [now apply print_not_http|now apply print_not_process]. }
    assert (O2 : count_events is_open d2 = 0).
    { apply count_events_none. eapply Forall_impl; [exact P2|]. apply print_not_open. }
    destruct o2 as [refs|e|k].
    2,3: intros [= <- <-]; exists d1, d2; rewrite <- app_assoc;
         repeat split; auto; try lia.
    intros E3.
    match type of E3 with
    | export_to_markdown ?w0 ?cl0 ?r0 ?repo0 ?u0 ?p0 ?t0 = _ =>
        destruct (export_to_markdown_events w0 cl0 r0 repo0 u0 p0 t0) as (rest & Ee & Hrest)
    end.
    rewrite E3 in Ee. cbn [snd] in Ee. subst t'.
    exists d1, (d2 ++ FileOpen
                        (path_stem w (config_file g) +:+ "_" +:+ fmt w build1 +:+ "_"
                           +:+ fmt w build2 +:+ "_commit_report.md") :: rest).
    rewrite <- !app_assoc. repeat split; auto.
    + apply Forall_app. split; [exact R2|]. constructor; [split; reflexivity|].
      eapply Forall_impl; [exact Hrest|]. intros e (_ & _ & Hh & Hp). split; assumption.
    + rewrite count_events_app, O2.
      change (count_events is_open (FileOpen _ :: rest)) with (S (count_events is_open rest)).
      rewrite (count_events_none is_open rest); [lia|].
      eapply Forall_impl; [exact Hrest|]. now intros e (Ho & _).
Qed.

Lemma main_phases w g t o t' :
  main w g t = (o, t') ->
  exists a b c,
    t' = t ++ a ++ b ++ c
    /\ Forall resolving_event a /\ count_events is_http a <= 2
    /\ Forall fetching_event b /\ count_events is_process b <= 1
    /\ Forall reporting_event c /\ count_events is_open c <= 1.
Proof.
  assert (Hstop : forall a, Forall resolving_event a -> count_events is_http a <= 2 ->
    exists a0 b c,
      t ++ a = t ++ a0 ++ b ++ c
      /\ Forall resolving_event a0 /\ count_events is_http a0 <= 2
      /\ Forall fetching_event b /\ count_events is_process b <= 1
      /\ Forall reporting_event c /\ count_events is_open c <= 1).
  { intros a Ha Hc. exists a, [], []. rewrite !app_nil_r.
    repeat split; auto; try constructor; cbn; lia. }
  unfold main. unfold bind at 1.
  destruct (choose_builds g t) as [o1 t1] eqn:E1.
  destruct (adds_inv _ _ _ _ _ (choose_builds_adds g) E1) as (d1 & -> & P1).
  pose proof (plain_resolving _ P1) as R1. pose proof (plain_no_http _ P1) as C1.
  destruct o1 as [[build1 build2]|e|c]; cbn [fst snd];
    [|intros [= <- <-]; apply Hstop; [exact R1|lia]..].
  unfold bind at 1.
  destruct (warn_formats build1 build2 (t ++ d1)) as [o2 t2] eqn:E2.
  destruct (adds_inv _ _ _ _ _ (warn_formats_adds build1 build2) E2) as (d2 & -> & P2).
  pose proof (plain_resolving _ P2) as R2. pose proof (plain_no_http _ P2) as C2.
  destruct o2 as [[]|e|c];
    [|intros [= <- <-]; rewrite <- app_assoc; apply Hstop;
      [apply Forall_app; auto|rewrite count_events_app; lia]..].
  unfold bind at 1.
  destruct (resolve_shas w g build1 build2 ((t ++ d1) ++ d2)) as [o3 t3] eqn:E3.
  destruct (resolve_shas_requests _ _ _ _ _ _ _ E3) as (d3 & -> & R3 & C3).
  assert (Ra : Forall resolving_event (d1 ++ d2 ++ d3))
    by (repeat (apply Forall_app; split); auto).
  assert (Ca : count_events is_http (d1 ++ d2 ++ d3) <= 2)
    by (rewrite !count_events_app; lia).
  destruct o3 as [shas|e|c];
    [|intros [= <- <-]; rewrite <- !app_assoc; now apply Hstop..].
  destruct (Nat.ltb (length shas) 2).
  { unfold bind, print, emit, sys_exit. intros [= <- <-].
    rewrite <- !app_assoc. apply Hstop.
    - rewrite !app_assoc. apply Forall_app. split; [now rewrite <- !app_assoc|].
      repeat constructor.
    - rewrite !count_events_app in *. cbn. lia. }
  destruct shas as [|sha1 [|sha2 [|]]];
    try (intros [= <- <-]; rewrite <- !app_assoc; now apply Hstop).
  intros E4. apply report_phases in E4 as (b & c & -> & Fb & Cb & Fc & Cc).
  exists (d1 ++ d2 ++ d3), b, c. rewrite <- !app_assoc. repeat split; auto.
Qed.

(** X16. The events of any run come in three phases, in this order:
    first console output and at most two HTTP requests; then console output
    and at most one process; then console output and file operations with
    at most one [open].  So every request precedes the process, the process
    precedes every file operation, and no run sends a third request, starts
    a second process or opens a second file. *)
Theorem program_phases (w : world) (args : list string) :
  exists a b c,
    snd (program w args []) = a ++ b ++ c
    /\ Forall resolving_event a /\ count_events is_http a <= 2
    /\ Forall fetching_event b /\ count_events is_process b <= 1
    /\ Forall reporting_event c /\ count_events is_open c <= 1.
Proof.
  assert (Hstop : forall a, Forall (fun e => is_print e = true) a ->
    exists a0 b c,
      a = a0 ++ b ++ c
      /\ Forall resolving_event a0 /\ count_events is_http a0 <= 2
      /\ Forall fetching_event b /\ count_events is_process b <= 1
      /\ Forall reporting_event c /\ count_events is_open c <= 1).
  { intros a Ha. exists a, [], []. rewrite !app_nil_r.
    repeat split; try constructor; cbn; try lia.
    - eapply Forall_impl; [exact Ha|]. intros e He.
      split; [now apply print_not_process|now apply print_not_file].
    - rewrite count_events_none; [lia|].
      eapply Forall_impl; [exact Ha|]. apply print_not_http. }
  unfold program. destruct (Nat.ltb (length args) 2).
  { apply Hstop. repeat constructor. }
  destruct (read_config w (nth 1 args "")) as [config|];
    [|apply Hstop; repeat constructor].
  destruct config as [| | | | | |kvs]; try (apply Hstop; constructor).
  cbn [py_get lift]. unfold bind, ret.
  match goal with
  | |- context [main ?w0 ?g0 []] => destruct (main w0 g0 []) as [o t'] eqn:E
  end.
  apply main_phases in E as (a & b & c & -> & H). exists a, b, c. cbn [snd app]. auto.
Qed.

(** ** The keys the extractor returns *)

(** X17. Every link the extractor returns is the base URL followed by a
    normalised key: 3 to 5 upper-case letters, a hyphen and 2 to 6 digits. *)
Theorem analyze_commits_link_shape
    (commit_list : list json) (jira_base_url : string) (t : trace)
    (refs_links : list string) (t' : trace)
    (Hrecords : Forall (fun c => scannable c = true) commit_list)
    (Hrun : analyze_commits commit_list jira_base_url t = (Ret refs_links, t')) :
  forall link, link ∈ refs_links ->
    exists key, link = jira_base_url +:+ key /\ upper_key key.
Proof.
  pose proof (analyze_commits_links commit_list jira_base_url t Hrecords) as E.
  rewrite Hrun in E. cbn [fst] in E. injection E as ->.
  intros link Hlink. apply list_elem_of_fmap in Hlink as (key & -> & Hkey).
  exists key. split; [reflexivity|].
  apply sorted_elem, refs_elem in Hkey as (c & m & found & _ & _ & Hfound & ->).
  apply upper_key_of_key. exact (IssueKeyFacts.findall_from_keys _ _ _ _ Hfound).
Qed.

Lemma analyze_commits_link_shape_witness :
  exists key, "https://jira/ABC-123" = "https://jira/" +:+ key /\ upper_key key.
Proof.
  assert (H : Forall (fun c => scannable c = true) [with_message "see abc-123"])
    by (repeat constructor).
  apply (analyze_commits_link_shape [with_message "see abc-123"] "https://jira/" []
           ["https://jira/ABC-123"]
           (snd (analyze_commits [with_message "see abc-123"] "https://jira/" [])) H).
  - vm_compute. reflexivity.
  - apply elem_of_cons. now left.
Defined.

(** ** Case does not matter *)

Lemma upper_word c : Chars.is_word (Chars.upper c) = Chars.is_word c.
Proof. destruct c as [[] [] [] [] [] [] [] []]; reflexivity. Qed.

Lemma upper_lf c : Ascii.eqb (Chars.upper c) "010" = Ascii.eqb c "010".
Proof. destruct c as [[] [] [] [] [] [] [] []]; reflexivity. Qed.

Lemma str_head_upper s : str_head (str_upper s) = option_map Chars.upper (str_head s).
Proof. destruct s; reflexivity. Qed.

Lemma opt_word_upper o : Re.opt_word (option_map Chars.upper o) = Re.opt_word o.
Proof. destruct o; [apply upper_word|reflexivity]. Qed.

Lemma str_take_upper n s : str_take n (str_upper s) = str_upper (str_take n s).
Proof.
  revert s; induction n as [|n IH]; intros [|c s]; simpl; try reflexivity.
  now rewrite IH.
Qed.

Section Caseless.
Import Re.

Lemma rep_upper {R} p (k k' : nat -> option ascii -> string -> option R) :
  (forall c, p (Chars.upper c) = p c) ->
  (forall pos prev s, k' pos (option_map Chars.upper prev) (str_upper s) = k pos prev s) ->
  forall s lo hi pos prev,
    rep p k' lo hi pos (option_map Chars.upper prev) (str_upper s)
    = rep p k lo hi pos prev s.
Proof.
  intros Hp Hk. induction s as [|c s IH]; intros lo hi pos prev.
  - pose proof (Hk pos prev EmptyString) as E0. cbn [str_upper] in E0.
    cbn [str_upper rep]. now rewrite E0.
  - pose proof (Hk pos prev (String c s)) as E0. cbn [str_upper] in E0.
    cbn [str_upper rep]. rewrite Hp, E0.
    change (Some (Chars.upper c)) with (option_map Chars.upper (Some c)).
    now rewrite IH.
Qed.

Lemma run_upper ic its :
  Forall (caseless ic) its ->
  forall g pos prev s,
    run ic its g pos (option_map Chars.upper prev) (str_upper s) = run ic its g pos prev s.
Proof.
  induction 1 as [|it its Hit _ IH]; intros g pos prev s; [reflexivity|].
  destruct it; cbn [run].
  - unfold at_boundary. rewrite str_head_upper, !opt_word_upper.
    destruct (xorb _ _); [apply IH|reflexivity].
  - destruct prev; cbn [option_map at_begin]; [reflexivity|]. apply (IH g pos None).
  - assert (at_end (str_upper s) = at_end s) as ->.
    { destruct s as [|c [|c' s]]; cbn [str_upper at_end]; try reflexivity. apply upper_lf. }
    destruct (at_end s); [apply IH|reflexivity].
  - apply rep_upper; [exact Hit|]. intros. apply IH.
  - apply IH.
  - apply IH.
Qed.

Lemma findall_from_upper re :
  Forall (caseless (ignorecase re)) (items re) ->
  forall s skip prev,
    findall_from re skip (option_map Chars.upper prev) (str_upper s)
    = map str_upper (findall_from re skip prev s).
Proof.
  intros Hre. induction s as [|c s IH]; intros skip prev.
  - destruct skip; cbn [str_upper findall_from]; [|reflexivity].
    unfold match_here. rewrite (run_upper _ _ Hre _ _ prev EmptyString).
    destruct (run _ _ _ _ prev EmptyString) as [[n g]|]; [|reflexivity].
    cbn [map]. now rewrite <- str_take_upper.
  - destruct skip as [|k]; cbn [str_upper findall_from].
    + unfold match_here.
      change (String (Chars.upper c) (str_upper s)) with (str_upper (String c s)).
      rewrite (run_upper _ _ Hre _ _ prev (String c s)).
      change (Some (Chars.upper c)) with (option_map Chars.upper (Some c)).
      destruct (run _ _ _ _ prev (String c s)) as [[n g]|].
      * cbn [map]. rewrite str_take_upper. f_equal. apply IH.
      * apply IH.
    + change (Some (Chars.upper c)) with (option_map Chars.upper (Some c)). apply IH.
Qed.

Lemma issue_pattern_caseless :
  Forall (caseless (ignorecase issue_pattern)) (items issue_pattern).
Proof.
  repeat constructor; intros c; destruct c as [[] [] [] [] [] [] [] []]; reflexivity.
Qed.

End Caseless.

(** X18. Extraction does not depend on the case of the text: the matches
    found in an upper-cased message are the upper-cased matches of the
    message, so a message and its upper-cased form, or any two messages
    that differ only in case, give the same keys. *)
Theorem extraction_ignores_case (message : string) :
  Re.findall issue_pattern (str_upper message)
  = map str_upper (Re.findall issue_pattern message)
  /\ message_keys (str_upper message) = message_keys message
  /\ (forall other, str_upper other = str_upper message ->
        message_keys other = message_keys message).
Proof.
  assert (Hfind : forall m, Re.findall issue_pattern (str_upper m)
                            = map str_upper (Re.findall issue_pattern m)).
  { intros m. exact (findall_from_upper _ issue_pattern_caseless m 0 None). }
  assert (Hkeys : forall m, message_keys (str_upper m) = message_keys m).
  { intros m. unfold message_keys. rewrite Hfind, map_map. f_equal.
    apply map_ext. intros x. apply str_upper_idem. }
  split; [apply Hfind|]. split; [apply Hkeys|].
  intros other E. now rewrite <- (Hkeys other), E, Hkeys.
Qed.

Lemma extraction_ignores_case_witness :
  str_upper "fix abc-123" = str_upper "Fix ABC-123"
  /\ message_keys "fix abc-123" = message_keys "Fix ABC-123".
Proof.
  split; [reflexivity|].
  exact (proj2 (proj2 (extraction_ignores_case "Fix ABC-123")) "fix abc-123" eq_refl).
Defined.

(** ** Records the extractor cannot use *)

Lemma for_each_scan_full commit_list : forall refs t,
  Forall (fun c => scannable c = true) commit_list ->
  exists t', for_each commit_list scan_commit refs t
             = (Ret (refs ∪ ⋃ (keys_of <$> commit_list)), t').
Proof.
  intros refs t H. pose proof (for_each_scan commit_list refs t H) as E.
  destruct (for_each commit_list scan_commit refs t) as [o t']. cbn [fst] in E.
  subst o. eauto.
Qed.

(** X19. A record without a message does not change the links: it only
    produces a warning.  A record whose message is present but is not a
    string stops the extraction with a TypeError that is not caught,
    whatever follows it. *)
Theorem analyze_commits_unusable_records
    (before after : list json) (kvs : list (string * json))
    (jira_base_url : string) (t : trace)
    (Hbefore : Forall (fun c => scannable c = true) before) :
  (assoc "message" kvs = None ->
   Forall (fun c => scannable c = true) after ->
   fst (analyze_commits (before ++ JObj kvs :: after) jira_base_url t)
   = fst (analyze_commits (before ++ after) jira_base_url t))
  /\ (forall message,
        assoc "message" kvs = Some message -> is_str message = false ->
        fst (analyze_commits (before ++ JObj kvs :: after) jira_base_url t)
        = Raise TypeError).
Proof.
  split.
  - intros Hm Hafter.
    assert (Hc : scannable (JObj kvs) = true).
    { unfold scannable. cbn [is_obj field andb]. now rewrite Hm. }
    rewrite !analyze_commits_links
      by (repeat (apply Forall_app; split); auto).
    do 3 f_equal. rewrite !fmap_app, fmap_cons, !union_list_app_L, union_list_cons.
    unfold keys_of at 2. cbn [field]. rewrite Hm. now rewrite union_empty_l_L.
  - intros message Hm Hstr. unfold analyze_commits. unfold bind at 1.
    rewrite for_each_app. unfold bind at 1.
    destruct (for_each_scan_full before ∅ t Hbefore) as (t1 & ->).
    cbn [for_each]. unfold bind at 1.
    assert (Hscan : forall refs t0, scan_commit (JObj kvs) refs t0 = (Raise TypeError, t0)).
    { intros refs t0. unfold scan_commit. step_prog. cbn [py_getitem]. rewrite Hm.
      cbn beta iota. destruct message; try discriminate; reflexivity. }
    now rewrite Hscan.
Qed.

Lemma analyze_commits_unusable_records_witness :
  assoc "message" [("sha", JStr "abcdef1")] = None
  /\ fst (analyze_commits ([with_message "ABC-123"] ++ JObj [("sha", JStr "abcdef1")] :: [])
            "https://jira/" [])
     = fst (analyze_commits ([with_message "ABC-123"] ++ []) "https://jira/" []).
Proof.
  split; [reflexivity|].
  apply (proj1 (analyze_commits_unusable_records [with_message "ABC-123"] []
                  [("sha", JStr "abcdef1")] "https://jira/" []
                  ltac:(repeat constructor)));
    [reflexivity|constructor].
Defined.

(** ** The summary line *)

Lemma str_app_nil_r (a : string) : a +:+ EmptyString = a.
Proof. induction a as [|c a IH]; [reflexivity|]. now rewrite app_cons_string, IH. Qed.

Lemma first_line_plain s : free_of is_lf s -> first_line s = s.
Proof.
  unfold free_of, is_lf. induction s as [|c s IH]; cbn [str_all first_line]; [reflexivity|].
  intros [Hc Hs]%andb_true_iff. apply negb_true_iff in Hc. rewrite Hc. now rewrite IH.
Qed.

Lemma first_line_app a rest : free_of is_lf a -> first_line (a +:+ nl +:+ rest) = a.
Proof.
  unfold free_of, is_lf. induction a as [|c a IH]; cbn [str_all].
  - intros _. rewrite app_nil_string. unfold nl. now rewrite app_cons_string.
  - intros [Hc Hs]%andb_true_iff. apply negb_true_iff in Hc.
    rewrite app_cons_string. cbn [first_line]. rewrite Hc. now rewrite IH.
Qed.

Lemma first_line_free s : free_of is_lf (first_line s).
Proof.
  unfold free_of, is_lf. induction s as [|c s IH]; [reflexivity|].
  cbn [first_line]. destruct (Ascii.eqb c "010") eqn:Hc; [reflexivity|].
  cbn [str_all]. now rewrite Hc, IH.
Qed.

Lemma first_line_split s :
  s = first_line s \/ exists rest, s = first_line s +:+ nl +:+ rest.
Proof.
  induction s as [|c s IH]; [now left|]. cbn [first_line].
  destruct (Ascii.eqb c "010") eqn:Hc.
  - apply Ascii.eqb_eq in Hc as ->. right. exists s.
    rewrite app_nil_string. unfold nl. now rewrite app_cons_string, app_nil_string.
  - destruct IH as [IH|(rest & IH)].
    + left. now rewrite <- IH.
    + right. exists rest. rewrite app_cons_string. now rewrite <- IH.
Qed.

(** X20. The summary of a message is its text before the first line
    feed: a text without a line feed is its own summary, and is the summary
    of every message that continues it with a line feed.  Conversely the
    summary of any string holds no line feed, and the message is the
    summary alone or the summary, a line feed and a rest.  A message that is
    not a string has no summary: the call raises AttributeError. *)
Theorem split_first_line_summary (summary rest : string)
    (Hsummary : free_of is_lf summary) :
  split_first_line (JStr summary) = Ok summary
  /\ split_first_line (JStr (summary +:+ nl +:+ rest)) = Ok summary
  /\ (forall message s,
        split_first_line (JStr message) = Ok s ->
        free_of is_lf s /\ (message = s \/ exists r, message = s +:+ nl +:+ r))
  /\ (forall v, is_str v = false -> split_first_line v = Err AttributeError).
Proof.
  cbn [split_first_line]. split; [now rewrite first_line_plain|].
  split; [now rewrite first_line_app|]. split.
  - intros message s [= <-]. split; [apply first_line_free|apply first_line_split].
  - intros v Hv. destruct v; try reflexivity. discriminate.
Qed.

Lemma split_first_line_summary_witness :
  free_of is_lf "Fix #42"
  /\ split_first_line (JStr ("Fix #42" +:+ nl +:+ "body")) = Ok "Fix #42".
Proof.
  split; [reflexivity|].
  exact (proj1 (proj2 (split_first_line_summary "Fix #42" "body" eq_refl))).
Defined.

(** ** Pull-request references *)

Module PullRequestFacts.
Import Re ReFacts.

(** A greedy repetition without upper bound, followed by something that
    always matches, takes the whole run of [p]-characters. *)
Lemma rep_greedy {R} p (k : nat -> option ascii -> string -> option R) :
  (forall pos prev s, k pos prev s <> None) ->
  forall s lo pos prev,
    rep p k lo None pos prev s =
      if Nat.leb lo (span p s)
      then k (pos + span p s) (str_last prev (str_take (span p s) s))
             (str_drop (span p s) s)
      else None.
Proof.
  intros Hk. induction s as [|c s IH]; intros lo pos prev.
  - cbn [rep span str_take str_drop str_last]. rewrite Nat.add_0_r.
    destruct lo; reflexivity.
  - cbn [rep span option_map]. destruct (p c) eqn:Hc.
    + rewrite IH. cbn [str_take str_drop str_last].
      replace (S pos + span p s) with (pos + S (span p s)) by lia.
      replace (Nat.leb lo (S (span p s))) with (Nat.leb (Nat.pred lo) (span p s))
        by (destruct lo; reflexivity).
      destruct (Nat.leb (Nat.pred lo) (span p s)) eqn:E.
      * destruct (k _ _ _) eqn:Ek; [reflexivity|]. now apply Hk in Ek.
      * destruct lo as [|lo]; [discriminate|reflexivity].
    + rewrite Nat.add_0_r. cbn [str_take str_drop str_last].
      destruct lo; reflexivity.
Qed.

Lemma rep_done {R} p (k : nat -> option ascii -> string -> option R) pos prev s :
  rep p k 0 (Some 0) pos prev s = k pos prev s.
Proof. destruct s; reflexivity. Qed.

Lemma hash_mem c : cset_mem false (CChar "#") c = is_hash c.
Proof. unfold cset_mem, is_hash. cbn [cset_in andb]. apply orb_false_r. Qed.

Lemma span_ext p q s : (forall c, p c = q c) -> span p s = span q s.
Proof. intros H; induction s as [|c s IH]; simpl; [reflexivity|now rewrite H, IH]. Qed.

(** A match of the pattern is the sign and the whole run of digits after
    it; the group is that run. *)
Lemma match_here_pr prev s :
  match_here pr_pattern prev s =
    match s with
    | String c s' =>
        if is_hash c && Nat.leb 1 (span Chars.is_digit s')
        then Some (S (span Chars.is_digit s'),
                   (Some 1, Some (S (span Chars.is_digit s'))))
        else None
    | EmptyString => None
    end.
Proof.
  unfold match_here, pr_pattern. cbn [items ignorecase run IOne IPlus].
  destruct s as [|c s']; [reflexivity|].
  cbn [rep Nat.eqb option_map Nat.pred]. rewrite hash_mem.
  destruct (is_hash c); [|reflexivity]. cbn [andb].
  rewrite rep_done. cbn [run fst snd].
  rewrite rep_greedy by discriminate.
  rewrite (span_ext _ Chars.is_digit) by apply digit_mem.
  destruct (Nat.leb 1 _); reflexivity.
Qed.

Lemma sub_from_prev f s skip prev prev' :
  sub_from pr_pattern f skip prev s = sub_from pr_pattern f skip prev' s.
Proof.
  destruct s as [|c s]; destruct skip; cbn [sub_from]; try reflexivity;
    now rewrite !match_here_pr.
Qed.

Lemma sub_from_skip re f a : forall b prev,
  sub_from re f (String.length a) prev (a +:+ b) = sub_from re f 0 (str_last prev a) b.
Proof.
  induction a as [|c a IH]; intros b prev.
  - now rewrite app_nil_string.
  - rewrite app_cons_string. cbn [String.length sub_from str_last]. apply IH.
Qed.

Lemma sub_from_plain f a : forall b prev,
  free_of is_hash a ->
  sub_from pr_pattern f 0 prev (a +:+ b)
  = a +:+ sub_from pr_pattern f 0 (str_last prev a) b.
Proof.
  unfold free_of. induction a as [|c a IH]; intros b prev H.
  - now rewrite !app_nil_string.
  - cbn [str_all] in H. apply andb_true_iff in H as [Hc Ha].
    apply negb_true_iff in Hc.
    rewrite !app_cons_string. cbn [sub_from str_last].
    rewrite match_here_pr, Hc. cbn [andb]. f_equal. now apply IH.
Qed.

Lemma sub_from_hash f prev number after :
  str_all Chars.is_digit number = true -> head_fails Chars.is_digit after ->
  sub_from pr_pattern f 0 prev (String "#" (number +:+ after))
  = match number with
    | EmptyString => String "#" (sub_from pr_pattern f 0 None after)
    | _ => f number +:+ sub_from pr_pattern f 0 None after
    end.
Proof.
  intros Hn Ha. cbn [sub_from]. rewrite match_here_pr.
  change (is_hash "#") with true. cbn [andb].
  rewrite (span_app _ _ _ Hn Ha).
  destruct number as [|d ds].
  - cbn [String.length Nat.leb]. rewrite app_nil_string. f_equal. apply sub_from_prev.
  - remember (String d ds) as number eqn:En.
    assert (Nat.leb 1 (String.length number) = true) as -> by (subst; reflexivity).
    unfold group1. cbn [str_drop]. rewrite Nat.sub_succ, Nat.sub_0_r.
    rewrite str_take_app_length, sub_from_skip.
    rewrite (sub_from_prev _ _ _ _ None). now subst.
Qed.

End PullRequestFacts.

(** X21. In a summary every [#] that is followed by digits is replaced,
    together with the whole run of digits, by the link to that pull request
    of the repository; a [#] that no digit follows stays as it is, and so
    does all other text.  Stated on a summary cut at its first [#]: the
    text before it is kept, the reference is linked, and the rest is
    treated in the same way. *)
Theorem pr_references_linked (w : world) (repo : json) (before number after : string)
    (Hbefore : free_of is_hash before)
    (Hnumber : str_all Chars.is_digit number = true)
    (Hafter : head_fails Chars.is_digit after) :
  Re.sub pr_pattern (pr_link w repo) (before +:+ "#" +:+ number +:+ after)
  = before +:+ linked w repo number +:+ Re.sub pr_pattern (pr_link w repo) after
  /\ Re.sub pr_pattern (pr_link w repo) before = before.
Proof.
  unfold Re.sub. split.
  - rewrite PullRequestFacts.sub_from_plain by exact Hbefore. f_equal.
    rewrite app_cons_string, app_nil_string.
    rewrite PullRequestFacts.sub_from_hash by assumption.
    destruct number; [|reflexivity].
    cbn [linked]. now rewrite app_cons_string, app_nil_string.
  - rewrite <- (str_app_nil_r before) at 1.
    rewrite PullRequestFacts.sub_from_plain by exact Hbefore.
    cbn [Re.sub_from]. rewrite PullRequestFacts.match_here_pr. apply str_app_nil_r.
Qed.

Lemma pr_references_linked_witness :
  free_of is_hash "Merge "
  /\ str_all Chars.is_digit "42" = true
  /\ head_fails Chars.is_digit " and #x"
  /\ Re.sub pr_pattern (pr_link fetch_world (JStr "org/repo")) "Merge #42 and #x"
     = "Merge [#42](https://github.com/org/repo/pull/42) and #x".
Proof.
  split; [reflexivity|]. split; [reflexivity|]. split; [reflexivity|].
  etransitivity.
  - exact (proj1 (pr_references_linked fetch_world (JStr "org/repo")
                    "Merge " "42" " and #x" eq_refl eq_refl eq_refl)).
  - vm_compute. reflexivity.
Defined.

(** ** What the extractor prints *)

Lemma for_each_scan_trace commit_list : forall refs t,
  Forall (fun c => scannable c = true) commit_list ->
  snd (for_each commit_list scan_commit refs t)
  = t ++ List.repeat (Print DSkipMissingMessage)
           (List.length (List.filter lacks_message commit_list)).
Proof.
  induction commit_list as [|c l IH]; intros refs t H.
  - cbn. now rewrite app_nil_r.
  - inversion H as [|? ? Hc Hl]; subst. cbn [for_each]. unfold bind.
    destruct c as [| | | | | |kvs]; try discriminate.
    unfold scannable in Hc. cbn [is_obj field andb] in Hc.
    cbn [List.filter]. unfold lacks_message at 1. cbn [field].
    destruct (assoc "message" kvs) as [[| | | |m| |]|] eqn:E; try discriminate.
    + rewrite (scan_commit_message _ m) by exact E. now apply IH.
    + rewrite scan_commit_missing by exact E. rewrite IH by assumption.
      cbn [List.length List.repeat]. now rewrite <- app_assoc.
Qed.

Lemma for_each_print_all {A} (l : list A) (f : A -> diag) : forall t,
  for_each l (fun x _ => print (f x)) tt t = (Ret tt, t ++ map (fun x => Print (f x)) l).
Proof.
  induction l as [|x l IH]; intros t; [cbn; now rewrite app_nil_r|].
  cbn [for_each map]. unfold bind, print, emit. rewrite IH.
  now rewrite <- app_assoc.
Qed.

(** X22. On records that can be scanned the console output of the
    extractor agrees with what it returns: one warning for each record
    without a message, then the heading, then one line for each returned
    link, in the order of the links, or the line [None found.] when no link
    is returned. *)
Theorem analyze_commits_console
    (commit_list : list json) (jira_base_url : string) (t : trace)
    (Hrecords : Forall (fun c => scannable c = true) commit_list) :
  analyze_commits commit_list jira_base_url t
  = (Ret (map (fun ref => jira_base_url +:+ ref) (sorted (⋃ (keys_of <$> commit_list)))),
     t ++ List.repeat (Print DSkipMissingMessage)
            (List.length (List.filter lacks_message commit_list))
       ++ Print DUniqueRefsHeader
          :: listing jira_base_url (sorted (⋃ (keys_of <$> commit_list)))).
Proof.
  unfold analyze_commits. unfold bind at 1.
  pose proof (for_each_scan commit_list ∅ t Hrecords) as E1.
  pose proof (for_each_scan_trace commit_list ∅ t Hrecords) as E2.
  destruct (for_each commit_list scan_commit ∅ t) as [o t1]. cbn [fst snd] in E1, E2.
  subst o t1. rewrite union_empty_l_L.
  unfold bind at 1, print at 1, emit at 1. unfold bind at 1.
  destruct (sorted _) as [|k keys] eqn:Ek.
  - unfold print, emit, ret. cbn [listing]. now rewrite <- !app_assoc.
  - rewrite for_each_print_all. unfold ret. cbn [listing]. now rewrite <- !app_assoc.
Qed.

Lemma analyze_commits_console_witness :
  Forall (fun c => scannable c = true)
    [with_message "see abc-123"; JObj [("sha", JStr "abcdef1")]]
  /\ analyze_commits [with_message "see abc-123"; JObj [("sha", JStr "abcdef1")]]
       "https://jira/" []
     = (Ret ["https://jira/ABC-123"],
        [Print DSkipMissingMessage; Print DUniqueRefsHeader;
         Print (DRef "ABC-123" "https://jira/ABC-123")]).
Proof.
  assert (H : Forall (fun c => scannable c = true)
                [with_message "see abc-123"; JObj [("sha", JStr "abcdef1")]])
    by (repeat constructor).
  split; [exact H|].
  rewrite (analyze_commits_console _ "https://jira/" [] H).
  vm_compute. reflexivity.
Defined.

(** ** What the fetcher prints *)

Lemma collect_commit_line c acc t :
  entry_ok c = true ->
  collect_commit c acc t
  = (Ret (if has_all_fields c then acc ++ [commit_info_of c] else acc),
     t ++ [entry_line c]).
Proof.
  unfold entry_ok, has_all_fields, commit_info_of, entry_line, entry_missing,
    four_fields, collect_commit.
  destruct c as [| | | | | |kvs]; try discriminate. cbn [is_obj field andb].
  step_prog. cbn [py_getitem].
  destruct (assoc "sha" kvs) as [[| | | |sha| |]|]; try discriminate; [|reflexivity].
  cbn [str_or_absent slice7]. cbn beta iota.
  destruct (assoc "commit" kvs) as [[| | | | | |ck]|]; try discriminate; [|reflexivity].
  cbn [is_obj andb field py_getitem]. cbn beta iota.
  destruct (assoc "message" ck) as [[| | | |m| |]|]; try discriminate;
    cbn [str_or_absent andb]; cbn beta iota.
  - destruct (assoc "author" ck) as [[| | | | | |ak]|]; try discriminate; [|reflexivity].
    cbn [py_getitem field]. cbn beta iota.
    destruct (assoc "name" ak); [|reflexivity]. cbn beta iota.
    destruct (assoc "date" ak); reflexivity.
  - destruct (assoc "author" ck) as [[| | | | | |ak]|]; try discriminate; reflexivity.
Qed.

Lemma for_each_collect_lines entries : forall acc t,
  Forall (fun c => entry_ok c = true) entries ->
  for_each entries collect_commit acc t
  = (Ret (acc ++ map commit_info_of (List.filter has_all_fields entries)),
     t ++ map entry_line entries).
Proof.
  induction entries as [|c entries IH]; intros acc t H.
  - cbn. now rewrite !app_nil_r.
  - inversion H as [|? ? Hc Hr]; subst. cbn [for_each]. unfold bind.
    rewrite (collect_commit_line c acc t Hc), IH by assumption.
    cbn [List.filter map]. rewrite <- app_assoc.
    destruct (has_all_fields c); [|reflexivity].
    cbn [map]. now rewrite <- app_assoc.
Qed.

(** X23. On a JSON answer whose [commits] entries are shaped as the
    endpoint documents them, the fetcher prints, after launching the
    process, the number of entries of the answer (not the number of records
    it keeps) and then exactly one line per entry, in the order of the
    answer: the commit line with the short SHA, the author, the date and
    the summary for an entry that has the four fields, and otherwise the
    warning that names the first field the entry misses. *)
Theorem get_github_commits_between_console
    (w : world) (repo sha1 sha2 : string) (t : trace)
    (kvs : list (string * json)) (entries : list json) (stderr : string)
    (Hanswer : gh_answer w repo sha1 sha2 t = ProcDone 0 (Some (JObj kvs)) stderr)
    (Hcommits : match assoc "commits" kvs with Some c => c | None => JArr [] end
                = JArr entries)
    (Hshape : Forall (fun c => entry_ok c = true) entries) :
  snd (get_github_commits_between w (JStr repo) (JStr sha1) (JStr sha2) t)
  = t ++ [Print (DCompareUrl (compare_url_of w (JStr repo) (JStr sha1) (JStr sha2)));
          Print (DFetchingCommits (JStr (str_take 7 sha1)) (JStr (str_take 7 sha2))
                   (JStr repo));
          RunProcess (gh_command w (JStr repo) (JStr sha1) (JStr sha2));
          Print (DFoundCommits (List.length entries)
                   (JStr (str_take 7 sha1)) (JStr (str_take 7 sha2)))]
      ++ map entry_line entries
  /\ (forall c, c ∈ entries ->
        if has_all_fields c
        then exists sha message name date,
               four_fields c = Some (JStr sha, JStr message, name, date)
               /\ entry_line c
                  = Print (DCommitLine (JStr (str_take 7 sha)) name date
                             (first_line message))
        else entry_line c = Print (DSkipMalformed (entry_missing c))).
Proof.
  split.
  - unfold gh_answer, compare_url_of in Hanswer. cbn [fmt] in Hanswer.
    unfold get_github_commits_between, gh_command, compare_url_of. cbn [fmt].
    step_prog. cbn [slice7]. cbn beta iota. rewrite Hanswer. cbn [Z.eqb negb].
    cbn [py_get]. cbn beta iota. rewrite Hcommits. cbn [py_len py_iter]. cbn beta iota.
    rewrite for_each_collect_lines by exact Hshape. cbn [snd].
    now rewrite <- !app_assoc.
  - intros c Hc. rewrite Forall_forall in Hshape.
    assert (Hok : entry_ok c = true) by (apply Hshape; exact Hc).
    destruct (has_all_fields c) eqn:Hall.
    + destruct (commit_info_of_kept c Hok Hall) as (sha & m & name & date & E & _).
      exists sha, m, name, date. split; [exact E|]. unfold entry_line. now rewrite E.
    + unfold entry_line. unfold has_all_fields in Hall.
      destruct (four_fields c); [discriminate|reflexivity].
Qed.

Lemma get_github_commits_between_console_witness :
  gh_answer fetch_world "org/repo" "aaa" "bbb" []
  = ProcDone 0 (Some (JObj [("commits", JArr [JObj [("sha", JStr "ffff")]; demo_entry])])) ""
  /\ Forall (fun c => entry_ok c = true) [JObj [("sha", JStr "ffff")]; demo_entry]
  /\ snd (get_github_commits_between fetch_world (JStr "org/repo") (JStr "aaa")
            (JStr "bbb") [])
     = [Print (DCompareUrl "https://github.com/org/repo/compare/aaa...bbb");
        Print (DFetchingCommits (JStr "aaa") (JStr "bbb") (JStr "org/repo"));
        RunProcess ["gh"; "api"; "repos/org/repo/compare/aaa...bbb"];
        Print (DFoundCommits 2 (JStr "aaa") (JStr "bbb"));
        Print (DSkipMalformed "commit");
        Print (DCommitLine (JStr "abcdef1") (JStr "A") (JStr "2024-01-01T00:00:00Z")
                 "Fix abc-123 (#42)")].
Proof.
  assert (H : Forall (fun c => entry_ok c = true) [JObj [("sha", JStr "ffff")]; demo_entry])
    by (repeat constructor).
  split; [reflexivity|]. split; [exact H|].
  rewrite (proj1 (get_github_commits_between_console fetch_world "org/repo" "aaa" "bbb" []
                    [("commits", JArr [JObj [("sha", JStr "ffff")]; demo_entry])]
                    [JObj [("sha", JStr "ffff")]; demo_entry] "" eq_refl eq_refl H)).
  vm_compute. reflexivity.
Defined.
